(** * ltspice_mlp: a shallow embedding of the MLP-to-LTspice bridge

    The development follows [src/ltspice_mlp.py] class by class:
    [DigitalPot], [DigitalPotFactory], [MLP_Circuit_Layer] and
    [MLP_Circuit].

    Modelling conventions.
    - Python floats are idealised as exact rationals ([Q]); Python ints
      that are only ever used as sizes or indices are [nat], the tap
      count (which takes part in arithmetic) is [Z].
    - A Python exception is a value [Raise e] of the result type [Res];
      sequencing stops at the first one, as in the interpreter.
    - Lists indexed with non-negative indices are Rocq lists; reading
      past the end raises [IndexError].
    - [numpy.asarray] of a list of rows is that list when the rows have
      one length; in [get_outputs], where the rows can differ, it
      raises [ValueError] otherwise (NumPy 1.24 and later).
    - The process-wide random generator and the external simulator are
      explicit: a stream of raw draws, and a function giving the outcome
      of the n-th run.
    - The text of the netlist ([create_layer_subcircuit],
      [create_netlist] and the functions they call) prints floats and is
      not embedded; [think] takes the netlist writer as a parameter.
      Calls of [print] are left out. *)

From Stdlib Require Import ZArith QArith Qround Qabs Lqa Lia.
From Stdlib Require Import String Ascii.
From stdpp Require Import base list strings pretty.

Local Open Scope Q_scope.

(** ** Exceptions and results *)

Inductive PyExc : Type :=
| ZeroDivisionError
| IndexError
| ValueError
| CalledProcessError
| FileNotFoundError.

Inductive Res (A : Type) : Type :=
| Ok (a : A)
| Raise (e : PyExc).

Arguments Ok {A} a.
Arguments Raise {A} e.

Definition bind {A B : Type} (m : Res A) (k : A -> Res B) : Res B :=
  match m with
  | Ok a => k a
  | Raise e => Raise e
  end.

Notation "'let*' x ':=' m 'in' k" := (bind m (fun x => k))
  (at level 10, x name, m at level 100, k at level 200).

(** [for x in xs: st = body(x, st)], stopping at the first exception. *)
Fixpoint for_each {A S : Type} (xs : list A) (body : A -> S -> Res S)
    (st : S) : Res S :=
  match xs with
  | [] => Ok st
  | x :: xs' => let* st' := body x st in for_each xs' body st'
  end.

(** [[f(x) for x in xs]] where [f] may raise and threads a state. *)
Fixpoint comprehension {A B S : Type} (xs : list A)
    (f : A -> S -> Res (B * S)) (st : S) : Res (list B * S) :=
  match xs with
  | [] => Ok ([], st)
  | x :: xs' =>
      let* r := f x st in
      let* rs := comprehension xs' f (snd r) in
      Ok (fst r :: fst rs, snd rs)
  end.

(** [range(0, n)] for a non-negative bound.  With [n : nat] the bound
    [n - 1] is [0] when [n = 0], and Python's [range(0, -1)] is empty
    as well. *)
Definition range0 (n : nat) : list nat := seq 0 n.

(** [xs[i]] for [i >= 0]. *)
Definition index {A : Type} (xs : list A) (i : nat) : Res A :=
  match xs !! i with
  | Some x => Ok x
  | None => Raise IndexError
  end.

(** ** Numbers *)

(** True division [a / b]: raises on a zero divisor.  (On numpy scalars
    the quotient is [inf] or [nan] instead and the [int(...)] that
    follows raises: the call fails either way.) *)
Definition py_div (a b : Q) : Res Q :=
  if Qeq_bool b 0 then Raise ZeroDivisionError else Ok (a / b).

(** [int(x)] on a float: truncation toward zero. *)
Definition py_int (x : Q) : Z :=
  if Qle_bool 0 x then Qfloor x else Qceiling x.

(** [round(x)] on a float: nearest integer, ties to the even one.  Only
    the specification uses it; the program never calls [round]. *)
Definition py_round (x : Q) : Z :=
  let f := Qfloor x in
  let d := x - inject_Z f in
  match Qcompare d (1 # 2) with
  | Lt => f
  | Gt => (f + 1)%Z
  | Eq => if Z.even f then f else (f + 1)%Z
  end.

(** Module constants. *)
Definition _v_plus : Q := 7.
Definition _v_minus : Q := -7.
Definition _v_in_max : Q := 3 # 2.
Definition _v_in_min : Q := - (3 # 2).
Definition _pot_tolerance : Q := 1 # 5.
Definition _pot_tap_count : Z := 128.
Definition _pots_per_chip : nat := 4.
Definition _r_total_ohms : Q := 5000.

(** ** DigitalPot *)

Module DigitalPot.

Record t : Type := mk {
  r_total_ohms : Q;
  tap_count : Z;
  max_weight : Q;
  r_neg : Q;
  r_pos : Q
}.

(** The local [wiper_position] of [set_weight]:
    [min(tap_count-1, max(1, int((weight / max_weight + 1) / 2 * tap_count)))]. *)
Definition wiper_position (self : t) (weight : Q) : Res Z :=
  let* ratio := py_div weight (max_weight self) in
  Ok (Z.min (tap_count self - 1)
        (Z.max 1 (py_int ((ratio + 1) / 2 * inject_Z (tap_count self))))).

Definition set_weight (self : t) (weight : Q) : Res t :=
  let* wiper := wiper_position self weight in
  let* frac := py_div (inject_Z wiper) (inject_Z (tap_count self)) in
  let r_neg' := frac * r_total_ohms self in
  Ok {| r_total_ohms := r_total_ohms self;
        tap_count := tap_count self;
        max_weight := max_weight self;
        r_neg := r_neg';
        r_pos := r_total_ohms self - r_neg' |}.

(** [__init__]: the two resistances do not exist before the throw-away
    [set_weight(0)] assigns them, so the placeholders below are never
    observed. *)
Definition new (r_total : Q) (taps : Z) (max_w : Q) : Res t :=
  set_weight {| r_total_ohms := r_total; tap_count := taps;
                max_weight := max_w; r_neg := 0; r_pos := 0 |} 0.

End DigitalPot.

(** ** The random generator

    [random.randrange] reads the process-wide generator.  Its state is
    modelled by the stream of raw draws and the number already used. *)

Module Random.

Record t : Type := mk {
  raw : nat -> Z;
  used : nat
}.

(** [randrange(start, stop)]: an integer of [start <= n < stop], every
    one of them reachable; an empty range raises [ValueError]. *)
Definition randrange (start stop : Z) (rng : t) : Res (Z * t) :=
  if (start <? stop)%Z
  then Ok ((start + raw rng (used rng) mod (stop - start))%Z,
           {| raw := raw rng; used := S (used rng) |})
  else Raise ValueError.

End Random.

(** ** DigitalPotFactory *)

Module DigitalPotFactory.

Record t : Type := mk {
  r_total_ohms : Q;
  tap_count : Z;
  tolerance : Q;
  pots_per_chip : Z;
  pot_counter : Z;
  chip_resistance : Q
}.

Definition new (r_total : Q) (taps : Z) (per_chip : Z) (tol : Q) : t :=
  {| r_total_ohms := r_total; tap_count := taps; tolerance := tol;
     pots_per_chip := per_chip; pot_counter := 1;
     chip_resistance := r_total |}.

Definition set_chip_resistance (r : Q) (self : t) : t :=
  {| r_total_ohms := r_total_ohms self; tap_count := tap_count self;
     tolerance := tolerance self; pots_per_chip := pots_per_chip self;
     pot_counter := pot_counter self; chip_resistance := r |}.

Definition set_pot_counter (c : Z) (self : t) : t :=
  {| r_total_ohms := r_total_ohms self; tap_count := tap_count self;
     tolerance := tolerance self; pots_per_chip := pots_per_chip self;
     pot_counter := c; chip_resistance := chip_resistance self |}.

(** The bounds handed to [randrange]. *)
Definition draw_low (self : t) : Z :=
  py_int ((1 - tolerance self) * r_total_ohms self).
Definition draw_high (self : t) : Z :=
  py_int ((1 + tolerance self) * r_total_ohms self).

Definition pot (self : t) (max_w : Q) (rng : Random.t)
  : Res (DigitalPot.t * (t * Random.t)) :=
  let* drawn :=
    if (pot_counter self =? 1)%Z
    then let* r := Random.randrange (draw_low self) (draw_high self) rng in
         Ok (set_chip_resistance (inject_Z (fst r)) self, snd r)
    else Ok (self, rng) in
  let self1 := fst drawn in
  let self2 :=
    set_pot_counter
      (if (pot_counter self1 <? pots_per_chip self1)%Z
       then (pot_counter self1 + 1)%Z else 1%Z) self1 in
  let* p := DigitalPot.new (chip_resistance self2) (tap_count self2) max_w in
  Ok (p, (self2, snd drawn)).

(** [n] successive calls of [pot], as a caller's loop makes them. *)
Fixpoint pots (n : nat) (self : t) (max_w : Q) (rng : Random.t)
  : Res (list DigitalPot.t * (t * Random.t)) :=
  match n with
  | O => Ok ([], (self, rng))
  | S n' =>
      let* r := pot self max_w rng in
      let* rs := pots n' (fst (snd r)) max_w (snd (snd r)) in
      Ok (fst r :: fst rs, snd rs)
  end.

End DigitalPotFactory.

(** ** The network layer (external collaborator)

    Only what the circuit reads from it. *)

Module NeuronLayer.

Record t : Type := mk {
  neuron_count : nat;
  inputs_per_neuron : nat;
  synaptic_weights : list (list Q);
  max_weight : Q
}.

End NeuronLayer.

(** ** MLP_Circuit_Layer *)

Module MLP_Circuit_Layer.

Record t : Type := mk {
  neuron_layer : NeuronLayer.t;
  neuron_count : nat;
  inputs_per_neuron : nat;
  input_nodes : option (list string);
  output_nodes : list string;
  layer_number : nat;
  r_total_ohms : Q;
  max_weight : Q;
  digital_pots : list (list DigitalPot.t);
  synapses_r_neg : option (list (list Q));
  synapses_r_pos : option (list (list Q))
}.

Definition set_digital_pots (v : list (list DigitalPot.t)) (self : t) : t :=
  {| neuron_layer := neuron_layer self; neuron_count := neuron_count self;
     inputs_per_neuron := inputs_per_neuron self;
     input_nodes := input_nodes self; output_nodes := output_nodes self;
     layer_number := layer_number self; r_total_ohms := r_total_ohms self;
     max_weight := max_weight self; digital_pots := v;
     synapses_r_neg := synapses_r_neg self;
     synapses_r_pos := synapses_r_pos self |}.

Definition set_synapses_r_neg (v : option (list (list Q))) (self : t) : t :=
  {| neuron_layer := neuron_layer self; neuron_count := neuron_count self;
     inputs_per_neuron := inputs_per_neuron self;
     input_nodes := input_nodes self; output_nodes := output_nodes self;
     layer_number := layer_number self; r_total_ohms := r_total_ohms self;
     max_weight := max_weight self; digital_pots := digital_pots self;
     synapses_r_neg := v;
     synapses_r_pos := synapses_r_pos self |}.

Definition set_synapses_r_pos (v : option (list (list Q))) (self : t) : t :=
  {| neuron_layer := neuron_layer self; neuron_count := neuron_count self;
     inputs_per_neuron := inputs_per_neuron self;
     input_nodes := input_nodes self; output_nodes := output_nodes self;
     layer_number := layer_number self; r_total_ohms := r_total_ohms self;
     max_weight := max_weight self; digital_pots := digital_pots self;
     synapses_r_neg := synapses_r_neg self;
     synapses_r_pos := v |}.

Definition set_input_nodes (v : option (list string)) (self : t) : t :=
  {| neuron_layer := neuron_layer self; neuron_count := neuron_count self;
     inputs_per_neuron := inputs_per_neuron self;
     input_nodes := v; output_nodes := output_nodes self;
     layer_number := layer_number self; r_total_ohms := r_total_ohms self;
     max_weight := max_weight self; digital_pots := digital_pots self;
     synapses_r_neg := synapses_r_neg self;
     synapses_r_pos := synapses_r_pos self |}.

(** The loop body
    [self.digital_pots[j][i].set_weight(self.neuron_layer.synaptic_weights[j][i])],
    in evaluation order: the pot is looked up before the weight. *)
Definition push_weight (self : t) (i j : nat)
    (pots : list (list DigitalPot.t)) : Res (list (list DigitalPot.t)) :=
  let* row := index pots j in
  let* pot := index row i in
  let* wrow := index (NeuronLayer.synaptic_weights (neuron_layer self)) j in
  let* w := index wrow i in
  let* pot' := DigitalPot.set_weight pot w in
  Ok (<[j := <[i := pot']> row]> pots).

(** The two nested [for] loops of [update_synapse_weights]. *)
Definition push_weights (self : t) : Res (list (list DigitalPot.t)) :=
  for_each (range0 (inputs_per_neuron self - 1))
    (fun i =>
       for_each (range0 (neuron_count self - 1))
         (fun j => push_weight self i j))
    (digital_pots self).

Definition update_synapse_weights (self : t) : Res t :=
  let* pots := push_weights self in
  let self1 := set_digital_pots pots self in
  (* self.synapses_r_neg = asarray([[x.r_neg for x in y] for y in pots]);
     the rows of the pot array have one length (line 46 builds them
     so and the loop replaces entries in place), the array is read as
     the list of its rows *)
  let self2 :=
    set_synapses_r_neg
      (Some (map (map DigitalPot.r_neg) (digital_pots self1))) self1 in
  (* self.synapses_r_pos = self.synapses_r_neg = asarray([[x.r_pos ...]]) *)
  let m := Some (map (map DigitalPot.r_pos) (digital_pots self2)) in
  Ok (set_synapses_r_neg m (set_synapses_r_pos m self2)).

Definition synapse_in_name (layer x : nat) : string :=
  "Synapse_" +:+ pretty layer +:+ "_" +:+ pretty x +:+ "_in".

Definition neuron_out_name (layer x : nat) : string :=
  "Neuron_" +:+ pretty layer +:+ "_" +:+ pretty x +:+ "_out".

(** [__init__].  The pots are created row by row, [inputs_per_neuron]
    rows of [neuron_count] pots, each by one call of the factory. *)
Definition new (nl : NeuronLayer.t) (inputs : option (list string))
    (number : nat) (r_total : Q)
    (st : DigitalPotFactory.t * Random.t)
  : Res (t * (DigitalPotFactory.t * Random.t)) :=
  let nc := NeuronLayer.neuron_count nl in
  let ipn := NeuronLayer.inputs_per_neuron nl in
  let mw := NeuronLayer.max_weight nl in
  let* made :=
    comprehension (range0 ipn)
      (fun _ =>
         comprehension (range0 nc)
           (fun _ s => DigitalPotFactory.pot (fst s) mw (snd s)))
      st in
  let* self :=
    update_synapse_weights
      {| neuron_layer := nl; neuron_count := nc; inputs_per_neuron := ipn;
         input_nodes :=
           if (number =? 0)%nat
           then Some (map (synapse_in_name number) (range0 ipn))
           else inputs;
         output_nodes := map (neuron_out_name number) (range0 nc);
         layer_number := number; r_total_ohms := r_total;
         max_weight := mw; digital_pots := fst made;
         synapses_r_neg := None; synapses_r_pos := None |} in
  Ok (self, snd made).

End MLP_Circuit_Layer.

(** ** Text: lower-casing, the [re] pattern of [get_outputs], [float]

    The result log is taken to be ASCII text. *)

Definition is_digit (c : ascii) : bool :=
  let n := nat_of_ascii c in (48 <=? n)%nat && (n <=? 57)%nat.

(** [\s] of a [str] pattern on ASCII: tab, LF, VT, FF, CR, the four
    separators FS, GS, RS, US, and the space. *)
Definition is_space (c : ascii) : bool :=
  let n := nat_of_ascii c in
  ((9 <=? n)%nat && (n <=? 13)%nat) || ((28 <=? n)%nat && (n <=? 32)%nat).

Definition lower_ascii (c : ascii) : ascii :=
  let n := nat_of_ascii c in
  if (65 <=? n)%nat && (n <=? 90)%nat then ascii_of_nat (n + 32) else c.

(** [str.lower()]. *)
Fixpoint lower (s : string) : string :=
  match s with
  | EmptyString => EmptyString
  | String c s' => String (lower_ascii c) (lower s')
  end.

Module Re.

(** The fragment of [re] that the pattern of [get_outputs] is written
    in: literal characters, [\d], [\s], the greedy quantifiers [?], [*]
    and [+] on a single character, and capture groups in sequence. *)
Inductive atom : Type :=
| Lit (c : ascii)
| Digit
| Space.

Inductive item : Type :=
| One (a : atom)
| Opt (a : atom)
| Star (a : atom)
| Plus (a : atom).

Definition accepts (a : atom) (c : ascii) : bool :=
  match a with
  | Lit d => Ascii.eqb c d
  | Digit => is_digit c
  | Space => is_space c
  end.

Definition or_else {R : Type} (x y : option R) : option R :=
  match x with
  | Some r => Some r
  | None => y
  end.

(** Greedy [a*] followed by the continuation [k]: take as many
    characters as possible, give them back one at a time while the
    rest of the pattern fails. *)
Fixpoint star {R : Type} (a : atom) (k : string -> option R)
    (s : string) : option R :=
  match s with
  | String c s' =>
      if accepts a c then or_else (star a k s') (k s) else k s
  | EmptyString => k s
  end.

(** The backtracking matcher, anchored at the start of [s]; [k]
    receives what is left of the text. *)
Fixpoint run {R : Type} (p : list item) (k : string -> option R)
    (s : string) : option R :=
  match p with
  | [] => k s
  | One a :: p' =>
      match s with
      | String c s' => if accepts a c then run p' k s' else None
      | EmptyString => None
      end
  | Opt a :: p' =>
      match s with
      | String c s' =>
          if accepts a c then or_else (run p' k s') (run p' k s)
          else run p' k s
      | EmptyString => run p' k s
      end
  | Star a :: p' => star a (run p' k) s
  | Plus a :: p' =>
      match s with
      | String c s' => if accepts a c then star a (run p' k) s' else None
      | EmptyString => None
      end
  end.

(** A sequence of capture groups; the result lists the text of each
    group and what follows the match. *)
Fixpoint groups (gs : list (list item)) (s : string)
  : option (list string * string) :=
  match gs with
  | [] => Some ([], s)
  | g :: gs' =>
      run g
        (fun rest =>
           match groups gs' rest with
           | Some (caps, fin) =>
               Some (substring 0 (String.length s - String.length rest) s
                       :: caps, fin)
           | None => None
           end)
        s
  end.

(** [pattern.search(text)]: the match at the leftmost position where
    there is one. *)
Fixpoint search (gs : list (list item)) (s : string)
  : option (list string) :=
  match groups gs s with
  | Some (caps, _) => Some caps
  | None =>
      match s with
      | EmptyString => None
      | String _ s' => search gs s'
      end
  end.

(** [match[n]] for [n >= 1]. *)
Definition group (caps : list string) (n : nat) : string :=
  nth (n - 1) caps EmptyString.

Definition literal (s : string) : list item :=
  map (fun c => One (Lit c)) (list_ascii_of_string s).

End Re.

(** The pattern compiled for a node, an f-string of three groups:
    group 1 is [{node.lower()}] followed by the escaped [))=],
    group 2 is [-?], [\d+], [\.?], [\d*], [e?], [-?], [\d*] in a row,
    group 3 is [\s].
    The node names interpolated into it are those built by
    [neuron_out_name]: letters, digits and underscores, which [re] reads
    as literals. *)
Definition output_pattern (node : string) : list (list Re.item) :=
  [ Re.literal (lower node +:+ "))=");
    [ Re.Opt (Re.Lit "-"); Re.Plus Re.Digit; Re.Opt (Re.Lit ".");
      Re.Star Re.Digit; Re.Opt (Re.Lit "e"); Re.Opt (Re.Lit "-");
      Re.Star Re.Digit ];
    [ Re.One Re.Space ] ].

(** Leading decimal digits of [s]: their value, their number, and the
    rest of [s]. *)
Fixpoint digits (acc : Z) (n : nat) (s : string) : Z * nat * string :=
  match s with
  | String c s' =>
      if is_digit c
      then digits (10 * acc + Z.of_nat (nat_of_ascii c - 48))%Z (S n) s'
      else (acc, n, s)
  | EmptyString => (acc, n, s)
  end.

Definition sign (s : string) : bool * string :=
  match s with
  | String "-" s' => (true, s')
  | String "+" s' => (false, s')
  | _ => (false, s)
  end.

Definition signed (neg : bool) (x : Q) : Q := if neg then - x else x.

(** [float(s)] on decimal text: an optional sign, digits with an
    optional point (at least one digit), and an optional exponent that,
    once begun, needs at least one digit.  Anything else raises
    [ValueError].  The value is the exact decimal one.  (White space,
    underscores, [inf] and [nan], which [float] also reads, cannot reach
    it from [output_pattern].) *)
Definition float (s : string) : Res Q :=
  let '(neg, s1) := sign s in
  let '(ip, n1, s2) := digits 0 0 s1 in
  let '(fp, n2, s3) :=
    match s2 with
    | String "." r => digits 0 0 r
    | _ => (0%Z, 0%nat, s2)
    end in
  if (n1 + n2 =? 0)%nat then Raise ValueError
  else
    let mant := inject_Z ip + inject_Z fp / inject_Z (10 ^ Z.of_nat n2) in
    match s3 with
    | EmptyString => Ok (signed neg mant)
    | String c r =>
        if Ascii.eqb c "e" || Ascii.eqb c "E"
        then
          let '(eneg, r1) := sign r in
          let '(ev, n3, r2) := digits 0 0 r1 in
          match n3, r2 with
          | S _, EmptyString =>
              Ok (signed neg mant * Qpower 10 (if eneg then - ev else ev))
          | _, _ => Raise ValueError
          end
        else Raise ValueError
    end.

(** ** MLP_Circuit *)

Module MLP_Circuit.

Record t : Type := mk {
  v_plus : Q;
  v_minus : Q;
  v_in_max : Q;
  v_in_min : Q;
  r_total_ohms : Q;
  digital_pot_factory : DigitalPotFactory.t;
  neural_network : list NeuronLayer.t;
  hardware_layers : list MLP_Circuit_Layer.t;
  power_sources : list (string * Q);
  input_sources : list Q
}.

Definition set_hardware_layers (v : list MLP_Circuit_Layer.t) (self : t) : t :=
  {| v_plus := v_plus self; v_minus := v_minus self;
     v_in_max := v_in_max self; v_in_min := v_in_min self;
     r_total_ohms := r_total_ohms self;
     digital_pot_factory := digital_pot_factory self;
     neural_network := neural_network self;
     hardware_layers := v;
     power_sources := power_sources self;
     input_sources := input_sources self |}.

Definition set_input_sources (v : list Q) (self : t) : t :=
  {| v_plus := v_plus self; v_minus := v_minus self;
     v_in_max := v_in_max self; v_in_min := v_in_min self;
     r_total_ohms := r_total_ohms self;
     digital_pot_factory := digital_pot_factory self;
     neural_network := neural_network self;
     hardware_layers := hardware_layers self;
     power_sources := power_sources self;
     input_sources := v |}.

(** The first loop of [initialize_hardware_layers]: one circuit layer
    per network layer, each fed the output nodes of the one before. *)
Fixpoint build_layers (models : list NeuronLayer.t) (idx : nat)
    (input_nodes : option (list string)) (r_total : Q)
    (st : DigitalPotFactory.t * Random.t)
  : Res (list MLP_Circuit_Layer.t * (DigitalPotFactory.t * Random.t)) :=
  match models with
  | [] => Ok ([], st)
  | model_layer :: models' =>
      let* made := MLP_Circuit_Layer.new model_layer input_nodes idx r_total st in
      let* rest :=
        build_layers models' (S idx)
          (Some (MLP_Circuit_Layer.output_nodes (fst made))) r_total
          (snd made) in
      Ok (fst made :: fst rest, snd rest)
  end.

(** The second loop: [layers[i].input_nodes = layers[i-1].output_nodes]
    for [i >= 1]. *)
Fixpoint relink (prev : MLP_Circuit_Layer.t)
    (layers : list MLP_Circuit_Layer.t) : list MLP_Circuit_Layer.t :=
  match layers with
  | [] => []
  | l :: layers' =>
      let l' :=
        MLP_Circuit_Layer.set_input_nodes
          (Some (MLP_Circuit_Layer.output_nodes prev)) l in
      l' :: relink l' layers'
  end.

Definition initialize_hardware_layers (models : list NeuronLayer.t)
    (r_total : Q) (st : DigitalPotFactory.t * Random.t)
  : Res (list MLP_Circuit_Layer.t * (DigitalPotFactory.t * Random.t)) :=
  let* built := build_layers models 0 None r_total st in
  Ok (match fst built with
      | [] => []
      | l0 :: ls => l0 :: relink l0 ls
      end, snd built).

(** [__init__]. *)
Definition new (network : list NeuronLayer.t) (rng : Random.t)
  : Res (t * Random.t) :=
  let factory :=
    DigitalPotFactory.new _r_total_ohms _pot_tap_count
      (Z.of_nat _pots_per_chip) _pot_tolerance in
  let* built := initialize_hardware_layers network _r_total_ohms (factory, rng) in
  Ok ({| v_plus := _v_plus; v_minus := _v_minus;
         v_in_max := _v_in_max; v_in_min := _v_in_min;
         r_total_ohms := _r_total_ohms;
         digital_pot_factory := fst (snd built);
         neural_network := network;
         hardware_layers := fst built;
         power_sources := [("V+"%string, _v_plus); ("V-"%string, _v_minus)];
         input_sources := [] |},
      snd (snd built)).

Definition update_input_sources (self : t) (inputs : list Q) : t :=
  let v_in_range := v_in_max self - v_in_min self in
  let v_in_center := v_in_range / 2 + v_in_min self in
  let map_input := fun x => x * v_in_range / 2 + v_in_center in
  set_input_sources (map map_input inputs) self.

(** The normalisation that [get_outputs] applies to the voltages of a
    layer, [(asarray(output_voltages) + v_in_max) / (2 * v_in_max)],
    element by element.  The divisor is the constant [2 * 1.5] in
    every circuit that [new] builds. *)
Definition normalize (self : t) (v : Q) : Q :=
  (v + v_in_max self) / (2 * v_in_max self).

(** The inner loop of [get_outputs] over the output nodes of a layer.
    [Ok None] is the early [return False, None]. *)
Fixpoint layer_voltages (nodes : list string) (result : string)
  : Res (option (list Q)) :=
  match nodes with
  | [] => Ok (Some [])
  | node :: nodes' =>
      match Re.search (output_pattern node) result with
      | None => Ok None
      | Some caps =>
          let* v := float (Re.group caps 2) in
          let* vs := layer_voltages nodes' result in
          Ok (option_map (cons v) vs)
      end
  end.

(** The outer loop over the layers. *)
Fixpoint layers_outputs (self : t) (layers : list MLP_Circuit_Layer.t)
    (result : string) : Res (option (list (list Q))) :=
  match layers with
  | [] => Ok (Some [])
  | layer :: layers' =>
      let* vs := layer_voltages (MLP_Circuit_Layer.output_nodes layer) result in
      match vs with
      | None => Ok None
      | Some output_voltages =>
          let* rest := layers_outputs self layers' result in
          Ok (option_map (cons (map (normalize self) output_voltages)) rest)
      end
  end.

(** The final [numpy.asarray(outputs)] on the list of per-layer
    arrays.  Rows of one length make a two-dimensional array, read
    here as the list of its rows; rows of different lengths raise
    [ValueError] (NumPy 1.24 and later; earlier releases warn and
    build an array of objects).  An empty list is an empty array. *)
Definition homogeneous (rows : list (list Q)) : bool :=
  match rows with
  | [] => true
  | row :: rows' =>
      forallb (fun r => Nat.eqb (length r) (length row)) rows'
  end.

Definition asarray (rows : list (list Q)) : Res (list (list Q)) :=
  if homogeneous rows then Ok rows else Raise ValueError.

(** [get_outputs]: the pair [(success, outputs)].  The argument is what
    the result file holds, [None] when there is no such file. *)
Definition get_outputs (self : t) (result_file : option string)
  : Res (bool * option (list (list Q))) :=
  match result_file with
  | None => Raise FileNotFoundError
  | Some result =>
      let* outs := layers_outputs self (hardware_layers self) result in
      match outs with
      | None => Ok (false, None)
      | Some outputs =>
          let* array := asarray outputs in
          Ok (true, Some array)
      end
  end.

(** The weight synchronisation of [think]:
    [for layer in self.hardware_layers: layer.update_synapse_weights()]. *)
Fixpoint update_layers (layers : list MLP_Circuit_Layer.t)
  : Res (list MLP_Circuit_Layer.t) :=
  match layers with
  | [] => Ok []
  | layer :: layers' =>
      let* layer' := MLP_Circuit_Layer.update_synapse_weights layer in
      let* rest := update_layers layers' in
      Ok (layer' :: rest)
  end.

Section Simulation.

(** What lies outside the embedding: the text of the netlist (its
    rendering prints floats) and the simulator process.
    [create_netlist] gives the netlist written for a circuit, or the
    exception raised while assembling it; [ltspice n net] is the
    [n]-th run of the simulator on the netlist [net]: a non-zero
    exit makes [check_call] raise, otherwise the result file holds
    the given text afterwards ([None]: there is no such file). *)
Variable Netlist : Type.
Variable create_netlist : t -> Res Netlist.
Variable ltspice : nat -> Netlist -> Res (option string).

Record World : Type := mkWorld {
  invocations : nat;
  result_file : option string
}.

Definition run_simulation (net : Netlist) (w : World) : Res World :=
  let* log := ltspice (invocations w) net in
  Ok {| invocations := S (invocations w); result_file := log |}.

(** [while success == False and attempts > 0: ...]. *)
Fixpoint attempt_loop (self : t) (net : Netlist) (attempts : nat)
    (success : bool) (outputs : option (list (list Q))) (w : World)
  : Res (option (list (list Q)) * World) :=
  match attempts with
  | O => Ok (outputs, w)
  | S attempts' =>
      if success then Ok (outputs, w)
      else
        let* w1 := run_simulation net w in
        let* r := get_outputs self (result_file w1) in
        attempt_loop self net attempts' (fst r) (snd r) w1
  end.

(** [think]: returns [outputs], which is [None] when no attempt
    parsed.  ([outputs] is unbound before the loop; the loop body
    runs at least once, so the initial [None] is never returned.) *)
Definition think (self : t) (inputs : list Q) (w : World)
  : Res (option (list (list Q)) * (t * World)) :=
  let self1 := update_input_sources self inputs in
  let* layers := update_layers (hardware_layers self1) in
  let self2 := set_hardware_layers layers self1 in
  let* net := create_netlist self2 in
  let* r := attempt_loop self2 net 5 false None w in
  Ok (fst r, (self2, snd r)).

End Simulation.

End MLP_Circuit.

(** ** Definitions that follow the specification's words

    They are compared with the program's definitions below. *)

Module Spec.

(** [clamp(x, lo, hi)]. *)
Definition clamp (x lo hi : Z) : Z :=
  if (x <? lo)%Z then lo else if (hi <? x)%Z then hi else x.

(** The position before clamping, [(w / max_weight + 1) / 2 * tap_count]. *)
Definition tap_of_weight (w max_w : Q) (taps : Z) : Q :=
  (w / max_w + 1) / 2 * inject_Z taps.

(** [wiper = clamp(round(...), 1, tap_count - 1)], as specified. *)
Definition wiper (w max_w : Q) (taps : Z) : Z :=
  clamp (py_round (tap_of_weight w max_w taps)) 1 (taps - 1).

(** The same with [int] (truncation) where the specification says
    [round]. *)
Definition wiper_trunc (w max_w : Q) (taps : Z) : Z :=
  clamp (py_int (tap_of_weight w max_w taps)) 1 (taps - 1).

Definition r_neg (wiper : Z) (taps : Z) (r_total : Q) : Q :=
  inject_Z wiper / inject_Z taps * r_total.

Definition r_pos (wiper : Z) (taps : Z) (r_total : Q) : Q :=
  r_total - r_neg wiper taps r_total.

End Spec.

(** ** Sample configurations *)

(** A pot of the program's configuration (128 taps, nominal 5 kOhm) for
    a layer whose [max_weight] is 1, at mid-scale. *)
Definition pot_5k : DigitalPot.t :=
  {| DigitalPot.r_total_ohms := 5000; DigitalPot.tap_count := 128;
     DigitalPot.max_weight := 1;
     DigitalPot.r_neg := 2500; DigitalPot.r_pos := 2500 |}.

(** A pot with a single tap: the clamp [1 .. tap_count - 1] is empty. *)
Definition pot_one_tap : DigitalPot.t :=
  {| DigitalPot.r_total_ohms := 5000; DigitalPot.tap_count := 1;
     DigitalPot.max_weight := 1;
     DigitalPot.r_neg := 0; DigitalPot.r_pos := 5000 |}.

(** A pot whose total resistance is negative. *)
Definition pot_negative_total : DigitalPot.t :=
  {| DigitalPot.r_total_ohms := - (2500); DigitalPot.tap_count := 128;
     DigitalPot.max_weight := 1;
     DigitalPot.r_neg := - (1250); DigitalPot.r_pos := - (1250) |}.


(** A generator whose raw draws are all zero: [randrange] returns its
    lower bound. *)
Definition rng_zero : Random.t := {| Random.raw := fun _ => 0%Z; Random.used := 0 |}.

(** A generator whose first raw draws are 1000, 1001, ...: with the
    program's constants the first chip gets exactly 5000 ohm. *)
Definition rng_mid : Random.t :=
  {| Random.raw := fun n => (1000 + Z.of_nat n)%Z; Random.used := 0 |}.

(** The factory that [MLP_Circuit.new] creates. *)
Definition factory_5k : DigitalPotFactory.t :=
  DigitalPotFactory.new _r_total_ohms _pot_tap_count
    (Z.of_nat _pots_per_chip) _pot_tolerance.

(** The [n]-th value that a factory draws from a generator. *)
Definition drawn (f : DigitalPotFactory.t) (rng : Random.t) (n : nat) : Z :=
  (DigitalPotFactory.draw_low f
   + Random.raw rng (Random.used rng + n)
     mod (DigitalPotFactory.draw_high f - DigitalPotFactory.draw_low f))%Z.

(** Two states of one factory: the configuration is the same. *)
Definition same_config (f f' : DigitalPotFactory.t) : Prop :=
  DigitalPotFactory.r_total_ohms f' = DigitalPotFactory.r_total_ohms f /\
  DigitalPotFactory.tap_count f' = DigitalPotFactory.tap_count f /\
  DigitalPotFactory.tolerance f' = DigitalPotFactory.tolerance f /\
  DigitalPotFactory.pots_per_chip f' = DigitalPotFactory.pots_per_chip f.

(** A factory with a nominal resistance of 5001 ohm: the bounds of the
    tolerance band, 4000.8 and 6001.2, are not integers. *)
Definition factory_5001 : DigitalPotFactory.t :=
  DigitalPotFactory.new 5001 128 4 (1 # 5).

(** ** Shapes *)

(** A list of [rows] rows of [cols] entries each. *)
Definition shaped {A : Type} (rows cols : nat) (m : list (list A)) : Prop :=
  length m = rows /\ Forall (fun row => length row = cols) m.

(** A pot on which [set_weight] cannot divide by zero; every pot that
    [DigitalPot.new] returned is one. *)
Definition well_formed (p : DigitalPot.t) : Prop :=
  ~ DigitalPot.max_weight p == 0 /\ DigitalPot.tap_count p <> 0%Z.

(** The state in which [update_synapse_weights] finds a layer ([pots_ok]
    is what concerns the pots alone): the pot array has [inputs_per_neuron] rows of [neuron_count] pots, as
    [MLP_Circuit_Layer.new] builds it, and the weight matrix of the
    network layer has [neuron_count] rows of [inputs_per_neuron]
    weights. *)
Definition pots_ok (rows cols : nat) (pots : list (list DigitalPot.t)) : Prop :=
  shaped rows cols pots /\ Forall (Forall well_formed) pots.

Definition layer_ok (l : MLP_Circuit_Layer.t) : Prop :=
  pots_ok (MLP_Circuit_Layer.inputs_per_neuron l)
    (MLP_Circuit_Layer.neuron_count l) (MLP_Circuit_Layer.digital_pots l) /\
  shaped (MLP_Circuit_Layer.neuron_count l)
    (MLP_Circuit_Layer.inputs_per_neuron l)
    (NeuronLayer.synaptic_weights (MLP_Circuit_Layer.neuron_layer l)).

(** Every index pair that the loops of [update_synapse_weights] visit
    lies inside the pot array: either a loop is empty, or the largest
    first index [neuron_count - 2] is a row and the largest second index
    [inputs_per_neuron - 2] is a column. *)
Definition stays_in_bounds (inputs_per_neuron neuron_count : nat) : Prop :=
  (inputs_per_neuron <= 1)%nat \/ (neuron_count <= 1)%nat \/
  ((neuron_count - 1 <= inputs_per_neuron)%nat /\
   (inputs_per_neuron - 1 <= neuron_count)%nat).

(** ** Sample layers *)

(** Three inputs, three neurons; the weights at [0][1] and [1][0] differ. *)
Definition net_3x3 : NeuronLayer.t :=
  {| NeuronLayer.neuron_count := 3; NeuronLayer.inputs_per_neuron := 3;
     NeuronLayer.synaptic_weights :=
       [[0; 1 # 2; 0]; [- (1 # 2); 0; 0]; [0; 0; 0]];
     NeuronLayer.max_weight := 1 |}.

(** Two inputs, two neurons. *)
Definition net_2x2 : NeuronLayer.t :=
  {| NeuronLayer.neuron_count := 2; NeuronLayer.inputs_per_neuron := 2;
     NeuronLayer.synaptic_weights := [[1 # 2; 0]; [0; 0]];
     NeuronLayer.max_weight := 1 |}.

(** One input, three neurons. *)
Definition net_1x3 : NeuronLayer.t :=
  {| NeuronLayer.neuron_count := 3; NeuronLayer.inputs_per_neuron := 1;
     NeuronLayer.synaptic_weights := [[1 # 2]; [0]; [0]];
     NeuronLayer.max_weight := 1 |}.

(** Two inputs, four neurons. *)
Definition net_2x4 : NeuronLayer.t :=
  {| NeuronLayer.neuron_count := 4; NeuronLayer.inputs_per_neuron := 2;
     NeuronLayer.synaptic_weights := [[0; 0]; [0; 0]; [0; 0]; [0; 0]];
     NeuronLayer.max_weight := 1 |}.

(** The layer that [MLP_Circuit_Layer.new] has assembled for [net_2x4]
    at the point where it calls [update_synapse_weights]. *)
Definition layer_2x4_unsynced : MLP_Circuit_Layer.t :=
  {| MLP_Circuit_Layer.neuron_layer := net_2x4;
     MLP_Circuit_Layer.neuron_count := 4;
     MLP_Circuit_Layer.inputs_per_neuron := 2;
     MLP_Circuit_Layer.input_nodes :=
       Some (map (MLP_Circuit_Layer.synapse_in_name 0) (range0 2));
     MLP_Circuit_Layer.output_nodes :=
       map (MLP_Circuit_Layer.neuron_out_name 0) (range0 4);
     MLP_Circuit_Layer.layer_number := 0;
     MLP_Circuit_Layer.r_total_ohms := 5000;
     MLP_Circuit_Layer.max_weight := 1;
     MLP_Circuit_Layer.digital_pots := replicate 2 (replicate 4 pot_5k);
     MLP_Circuit_Layer.synapses_r_neg := None;
     MLP_Circuit_Layer.synapses_r_pos := None |}.

(** ** Reading the result log *)

(** The voltage that [get_outputs] extracts for a node, when the pattern
    is found and [float] accepts the text of group 2. *)
Definition measured (log node : string) : option Q :=
  match Re.search (output_pattern node) log with
  | Some caps =>
      match float (Re.group caps 2) with
      | Ok v => Some v
      | Raise _ => None
      end
  | None => None
  end.

(** The pattern of a node is absent from the log. *)
Definition missing (log node : string) : Prop :=
  Re.search (output_pattern node) log = None.

(** The output nodes of all layers, in the order [get_outputs] visits
    them. *)
Definition expected_nodes (c : MLP_Circuit.t) : list string :=
  concat (map MLP_Circuit_Layer.output_nodes (MLP_Circuit.hardware_layers c)).

(** Some expected node is absent from the log, and every node visited
    before it yields a voltage. *)
Definition cleanly_missing (nodes : list string) (log : string) : Prop :=
  exists pre node post,
    nodes = pre ++ node :: post /\
    Forall (fun n => exists v, measured log n = Some v) pre /\
    missing log node.

(** How a parse ended, without its payload. *)
Inductive outcome : Type :=
| Parsed
| Missed
| Failed (e : PyExc).

Definition status {X : Type} (r : Res (option X)) : outcome :=
  match r with
  | Ok (Some _) => Parsed
  | Ok None => Missed
  | Raise e => Failed e
  end.

(** The circuit of [think] once inputs and weights are synchronised. *)
Definition synced (c : MLP_Circuit.t) (inputs : list Q)
    (layers : list MLP_Circuit_Layer.t) : MLP_Circuit.t :=
  MLP_Circuit.set_hardware_layers layers
    (MLP_Circuit.update_input_sources c inputs).

(** A log in which the first node carries a malformed number and the
    second node is absent. *)
Definition log_malformed : string :=
  "vneuron_0_0_out: AVG(v(neuron_0_0_out))=1e FROM 0 TO 1e-09".

(** A log with both nodes of a two-neuron layer at the rails of the
    input range. *)
Definition log_rails : string :=
  "vneuron_0_0_out: AVG(v(neuron_0_0_out))=1.5 FROM 0 TO 1e-09 vneuron_0_1_out: AVG(v(neuron_0_1_out))=-1.5 FROM 0 TO 1e-09".

(** A log that mentions no output node. *)
Definition log_empty : string := "Circuit: * MLP_netlist.net".

(** ** Further sample data *)

(** The circuit that [MLP_Circuit.new] returns for a network without
    layers. *)
Definition circuit_empty : MLP_Circuit.t :=
  {| MLP_Circuit.v_plus := _v_plus; MLP_Circuit.v_minus := _v_minus;
     MLP_Circuit.v_in_max := _v_in_max; MLP_Circuit.v_in_min := _v_in_min;
     MLP_Circuit.r_total_ohms := _r_total_ohms;
     MLP_Circuit.digital_pot_factory := factory_5k;
     MLP_Circuit.neural_network := [];
     MLP_Circuit.hardware_layers := [];
     MLP_Circuit.power_sources :=
       [("V+"%string, _v_plus); ("V-"%string, _v_minus)];
     MLP_Circuit.input_sources := [] |}.

(** A factory without tolerance. *)
Definition factory_exact : DigitalPotFactory.t :=
  DigitalPotFactory.new 5000 128 4 0.

(** A factory that puts a single pot on each chip. *)
Definition factory_single : DigitalPotFactory.t :=
  DigitalPotFactory.new 5000 128 1 (1 # 5).

(** ** Cells of a matrix *)

(** [m[a][b]] when both indices are in range. *)
Definition cell {A : Type} (m : list (list A)) (a b : nat) : option A :=
  match m !! a with
  | Some row => row !! b
  | None => None
  end.

(** The pot after [set_weight(w)], for a pot on which it succeeds. *)
Definition tuned (p : DigitalPot.t) (w : Q) : DigitalPot.t :=
  match DigitalPot.set_weight p w with
  | Ok p' => p'
  | Raise _ => p
  end.

(** The pot of a cell after it is given the weight of the same cell of
    the weight matrix. *)
Definition tune_cell (weights : list (list Q))
    (pots : list (list DigitalPot.t)) (a b : nat) : option DigitalPot.t :=
  match cell pots a b, cell weights a b with
  | Some p, Some w => Some (tuned p w)
  | _, _ => None
  end.

(** The layer built for [net_3x3] at the point where the constructor
    calls [update_synapse_weights]. *)
Definition layer_3x3_unsynced : MLP_Circuit_Layer.t :=
  {| MLP_Circuit_Layer.neuron_layer := net_3x3;
     MLP_Circuit_Layer.neuron_count := 3;
     MLP_Circuit_Layer.inputs_per_neuron := 3;
     MLP_Circuit_Layer.input_nodes :=
       Some (map (MLP_Circuit_Layer.synapse_in_name 0) (range0 3));
     MLP_Circuit_Layer.output_nodes :=
       map (MLP_Circuit_Layer.neuron_out_name 0) (range0 3);
     MLP_Circuit_Layer.layer_number := 0;
     MLP_Circuit_Layer.r_total_ohms := 5000;
     MLP_Circuit_Layer.max_weight := 1;
     MLP_Circuit_Layer.digital_pots := replicate 3 (replicate 3 pot_5k);
     MLP_Circuit_Layer.synapses_r_neg := None;
     MLP_Circuit_Layer.synapses_r_pos := None |}.

(** ** Soundness of pots and factories *)

(** A pot as a factory with band [lo .. hi - 1] and [taps] taps makes
    it, and as [set_weight] keeps it: an integer total resistance inside
    the band, both branches strictly positive and summing to the
    total. *)
Definition pot_sound (lo hi taps : Z) (p : DigitalPot.t) : Prop :=
  DigitalPot.tap_count p = taps /\
  ~ DigitalPot.max_weight p == 0 /\
  (exists v : Z, DigitalPot.r_total_ohms p = inject_Z v /\ (lo <= v < hi)%Z) /\
  0 < DigitalPot.r_neg p /\
  0 < DigitalPot.r_pos p /\
  DigitalPot.r_pos p + DigitalPot.r_neg p == DigitalPot.r_total_ohms p.

(** A factory state between two calls of [pot]: unless the next call
    draws, the chip resistance it will reuse lies in the band. *)
Definition factory_sound (lo hi taps : Z) (f : DigitalPotFactory.t) : Prop :=
  DigitalPotFactory.tap_count f = taps /\
  DigitalPotFactory.draw_low f = lo /\
  DigitalPotFactory.draw_high f = hi /\
  (DigitalPotFactory.pot_counter f = 1%Z \/
   exists v : Z,
     DigitalPotFactory.chip_resistance f = inject_Z v /\ (lo <= v < hi)%Z).

(** A network of two layers, two inputs and two neurons each. *)
Definition network_2_2 : list NeuronLayer.t := [net_2x2; net_2x2].

(** ** Wiring *)

(** What [MLP_Circuit_Layer.new] copies from the network layer [nl] into
    the circuit layer number [n]. *)
Definition layer_of (nl : NeuronLayer.t) (n : nat) (l : MLP_Circuit_Layer.t)
  : Prop :=
  MLP_Circuit_Layer.neuron_layer l = nl /\
  MLP_Circuit_Layer.neuron_count l = NeuronLayer.neuron_count nl /\
  MLP_Circuit_Layer.inputs_per_neuron l = NeuronLayer.inputs_per_neuron nl /\
  MLP_Circuit_Layer.max_weight l = NeuronLayer.max_weight nl /\
  MLP_Circuit_Layer.layer_number l = n /\
  MLP_Circuit_Layer.output_nodes l =
    map (MLP_Circuit_Layer.neuron_out_name n)
      (range0 (NeuronLayer.neuron_count nl)).

(** ** Characters of a string *)

(** Every character of [s] satisfies [P]. *)
Fixpoint every (P : ascii -> bool) (s : string) : bool :=
  match s with
  | EmptyString => true
  | String c s' => P c && every P s'
  end.

(** ** The shape of the outputs *)

(** The number of output nodes of each layer. *)
Definition widths (layers : list MLP_Circuit_Layer.t) : list nat :=
  map (fun l => length (MLP_Circuit_Layer.output_nodes l)) layers.

(** All layers have the same number of output nodes. *)
Definition same_width (layers : list MLP_Circuit_Layer.t) : Prop :=
  forall a b, In a (widths layers) -> In b (widths layers) -> a = b.

(** Two inputs, one neuron. *)
Definition net_2x1 : NeuronLayer.t :=
  {| NeuronLayer.neuron_count := 1; NeuronLayer.inputs_per_neuron := 2;
     NeuronLayer.synaptic_weights := [[0; 0]];
     NeuronLayer.max_weight := 1 |}.

(** A network that narrows from two neurons to one. *)
Definition network_2_1 : list NeuronLayer.t := [net_2x2; net_2x1].

(** A log with a voltage for each of the three output nodes of
    [network_2_1]. *)
Definition log_2_1 : string :=
  "vneuron_0_0_out: AVG(v(neuron_0_0_out))=1.5 FROM 0 TO 1e-09 vneuron_0_1_out: AVG(v(neuron_0_1_out))=-1.5 FROM 0 TO 1e-09 vneuron_1_0_out: AVG(v(neuron_1_0_out))=0 FROM 0 TO 1e-09".

(** ** Sample simulators *)

(** A simulator whose first two runs leave a log without the output
    nodes, and whose later runs leave [log_rails]. *)
Definition sim_third_time (n : nat) (_ : unit) : Res (option string) :=
  if (n <? 2)%nat then Ok (Some log_empty) else Ok (Some log_rails).

(** A simulator that leaves a useless log once and then exits with a
    non-zero status. *)
Definition sim_crash (n : nat) (_ : unit) : Res (option string) :=
  if (n <? 1)%nat then Ok (Some log_empty) else Raise CalledProcessError.

(** The world before the first inference. *)
Definition world0 : MLP_Circuit.World :=
  {| MLP_Circuit.invocations := 0; MLP_Circuit.result_file := None |}.

(** ** create_measurements

    The measurement directives of the netlist; unlike the other parts of
    the netlist they print no float. *)

(** The one-character string ['\n']. *)
Definition newline : string := String (ascii_of_nat 10) EmptyString.

(** [f'.save V({node})']. *)
Definition save_line (node : string) : string := ".save V(" +:+ node +:+ ")".

(** [f'.measure V{node} avg V({node})']. *)
Definition measure_line (node : string) : string :=
  ".measure V" +:+ node +:+ " avg V(" +:+ node +:+ ")".

(** The pattern [(Neuron_\d+_\d+)], a single group. *)
Definition activation_pattern : list (list Re.item) :=
  [ Re.literal "Neuron_"
    ++ [ Re.Plus Re.Digit; Re.One (Re.Lit "_"); Re.Plus Re.Digit ] ].

(** [f'{pattern.search(node)[0]}_005'].  The whole match [match[0]] is
    the text of the only group.  [None] stands for the [TypeError] that
    subscripting raises when the search finds nothing. *)
Definition activation_input_node (node : string) : option string :=
  match Re.search activation_pattern node with
  | Some caps => Some (Re.group caps 1 +:+ "_005")
  | None => None
  end.

(** The third loop of [create_measurements]: two lines per node. *)
Fixpoint debug_lines (nodes : list string) : option (list string) :=
  match nodes with
  | [] => Some []
  | node :: nodes' =>
      match activation_input_node node with
      | None => None
      | Some a =>
          option_map (fun ls => save_line a :: measure_line a :: ls)
            (debug_lines nodes')
      end
  end.

(** [create_measurements]: the lines returned, or [None] for the
    [TypeError].  Each of the three loops visits the output nodes of
    all layers in the order of [expected_nodes]. *)
Definition create_measurements (self : MLP_Circuit.t) : option (list string) :=
  let nodes := expected_nodes self in
  let lines := map save_line nodes ++ map measure_line nodes ++ [newline] in
  match debug_lines nodes with
  | None => None
  | Some dbg => Some (lines ++ dbg ++ [newline])
  end.

(** A circuit whose only layer has an output node that is not named as
    the constructor names them. *)
Definition circuit_renamed : MLP_Circuit.t :=
  MLP_Circuit.set_hardware_layers
    [ {| MLP_Circuit_Layer.neuron_layer := net_2x2;
         MLP_Circuit_Layer.neuron_count := 2;
         MLP_Circuit_Layer.inputs_per_neuron := 2;
         MLP_Circuit_Layer.input_nodes := None;
         MLP_Circuit_Layer.output_nodes := ["Neuron_0_0_out"; "out_1"]%string;
         MLP_Circuit_Layer.layer_number := 0;
         MLP_Circuit_Layer.r_total_ohms := 5000;
         MLP_Circuit_Layer.max_weight := 1;
         MLP_Circuit_Layer.digital_pots := replicate 2 (replicate 2 pot_5k);
         MLP_Circuit_Layer.synapses_r_neg := None;
         MLP_Circuit_Layer.synapses_r_pos := None |} ]
    circuit_empty.

(** * Properties *)

(** ** Arithmetic helpers *)

Lemma Qeq_bool_false (a : Q) : ~ a == 0 -> Qeq_bool a 0 = false.
Proof.
  intros H. destruct (Qeq_bool a 0) eqn:E; [|reflexivity].
  apply Qeq_bool_iff in E. contradiction.
Qed.

Lemma py_div_ok (a b : Q) : ~ b == 0 -> py_div a b = Ok (a / b).
Proof. intros H. unfold py_div. now rewrite Qeq_bool_false. Qed.

Lemma py_div_zero (a b : Q) : b == 0 -> py_div a b = Raise ZeroDivisionError.
Proof.
  intros H. unfold py_div.
  apply Qeq_bool_iff in H. now rewrite H.
Qed.

Lemma inject_Z_nonzero (z : Z) : z <> 0%Z -> ~ inject_Z z == 0.
Proof.
  intros H E. apply H. unfold Qeq in E. simpl in E. lia.
Qed.

Lemma py_int_nonneg (x : Q) : 0 <= x -> py_int x = Qfloor x.
Proof.
  intros H. unfold py_int.
  apply Qle_bool_iff in H. now rewrite H.
Qed.

Lemma py_int_neg (x : Q) : x < 0 -> py_int x = Qceiling x.
Proof.
  intros H. unfold py_int.
  destruct (Qle_bool 0 x) eqn:E; [|reflexivity].
  apply Qle_bool_iff in E. lra.
Qed.

Lemma py_int_inject_Z (z : Z) : py_int (inject_Z z) = z.
Proof.
  unfold py_int. destruct (Qle_bool 0 (inject_Z z));
    [apply Qfloor_Z | apply Qceiling_Z].
Qed.

Lemma py_int_comp (x y : Q) : x == y -> py_int x = py_int y.
Proof.
  intros H. destruct (Qlt_le_dec x 0) as [Hx|Hx].
  - assert (Hy : y < 0) by (rewrite <- H; exact Hx).
    rewrite (py_int_neg x Hx), (py_int_neg y Hy). now apply Qceiling_comp.
  - assert (Hy : 0 <= y) by (rewrite <- H; exact Hx).
    rewrite (py_int_nonneg x Hx), (py_int_nonneg y Hy). now apply Qfloor_comp.
Qed.

(** Truncation toward zero is monotone. *)
Lemma py_int_mono (x y : Q) : x <= y -> (py_int x <= py_int y)%Z.
Proof.
  intros H.
  destruct (Qlt_le_dec x 0) as [Hx|Hx], (Qlt_le_dec y 0) as [Hy|Hy].
  - rewrite (py_int_neg x Hx), (py_int_neg y Hy). now apply Qceiling_resp_le.
  - rewrite (py_int_neg x Hx), (py_int_nonneg y Hy).
    transitivity 0%Z.
    + assert (Hc : (Qceiling x <= Qceiling 0)%Z)
        by (apply Qceiling_resp_le; lra).
      exact Hc.
    + assert (Hf : (Qfloor 0 <= Qfloor y)%Z)
        by (apply Qfloor_resp_le; exact Hy).
      exact Hf.
  - lra.
  - rewrite (py_int_nonneg x Hx), (py_int_nonneg y Hy).
    now apply Qfloor_resp_le.
Qed.

Lemma py_int_ge (x : Q) (z : Z) : inject_Z z <= x -> (z <= py_int x)%Z.
Proof. intros H. rewrite <- (py_int_inject_Z z). now apply py_int_mono. Qed.

Lemma py_int_le (x : Q) (z : Z) : x <= inject_Z z -> (py_int x <= z)%Z.
Proof. intros H. rewrite <- (py_int_inject_Z z). now apply py_int_mono. Qed.

(** ** DigitalPot *)

Section DigitalPotFacts.

Import DigitalPot.

Variable p : DigitalPot.t.
Hypothesis max_weight_nonzero : ~ max_weight p == 0.

Lemma wiper_position_ok (w : Q) :
  wiper_position p w =
  Ok (Z.min (tap_count p - 1)
        (Z.max 1 (py_int (Spec.tap_of_weight w (max_weight p) (tap_count p))))).
Proof.
  unfold wiper_position. rewrite py_div_ok by assumption. reflexivity.
Qed.

Lemma set_weight_ok (w : Q) (wiper : Z) :
  tap_count p <> 0%Z ->
  wiper_position p w = Ok wiper ->
  set_weight p w =
  Ok {| r_total_ohms := r_total_ohms p; tap_count := tap_count p;
        max_weight := max_weight p;
        r_neg := Spec.r_neg wiper (tap_count p) (r_total_ohms p);
        r_pos := Spec.r_pos wiper (tap_count p) (r_total_ohms p) |}.
Proof.
  intros Ht Hw. unfold set_weight. rewrite Hw. cbn [bind].
  rewrite py_div_ok by now apply inject_Z_nonzero.
  reflexivity.
Qed.

Lemma min_max_is_clamp (x : Z) :
  (2 <= tap_count p)%Z ->
  Z.min (tap_count p - 1) (Z.max 1 x) = Spec.clamp x 1 (tap_count p - 1).
Proof.
  intros Ht. unfold Spec.clamp.
  destruct (Z.ltb_spec x 1); [lia|].
  destruct (Z.ltb_spec (tap_count p - 1) x); lia.
Qed.

Lemma wiper_in_range (w : Q) (wiper : Z) :
  (2 <= tap_count p)%Z ->
  wiper_position p w = Ok wiper ->
  (1 <= wiper <= tap_count p - 1)%Z.
Proof.
  intros Ht. rewrite wiper_position_ok. intros [= <-]. lia.
Qed.

Lemma wiper_position_mono (w1 w2 : Q) (x1 x2 : Z) :
  0 < max_weight p -> (0 < tap_count p)%Z -> w1 <= w2 ->
  wiper_position p w1 = Ok x1 -> wiper_position p w2 = Ok x2 ->
  (x1 <= x2)%Z.
Proof.
  intros Hm Ht Hw. rewrite !wiper_position_ok. intros [= <-] [= <-].
  apply Z.min_le_compat_l, Z.max_le_compat_l, py_int_mono.
  unfold Spec.tap_of_weight.
  assert (Hq : w1 / max_weight p <= w2 / max_weight p).
  { unfold Qdiv. apply Qmult_le_compat_r; [exact Hw|].
    apply Qlt_le_weak, Qinv_lt_0_compat, Hm. }
  assert (Hz : 0 < inject_Z (tap_count p)).
  { change 0 with (inject_Z 0). rewrite <- Zlt_Qlt. exact Ht. }
  revert Hq. generalize (w1 / max_weight p) (w2 / max_weight p).
  intros a b Hq.
  apply Qmult_le_compat_r; [|lra].
  unfold Qdiv. apply Qmult_le_compat_r; [lra | discriminate].
Qed.

End DigitalPotFacts.

Lemma spec_r_neg_bounds (wiper taps : Z) (r_total : Q) :
  (1 <= wiper <= taps - 1)%Z -> 0 <= r_total ->
  0 <= Spec.r_neg wiper taps r_total <= r_total.
Proof.
  intros Hw Hr. unfold Spec.r_neg.
  assert (Ht : 0 < inject_Z taps).
  { change 0 with (inject_Z 0). rewrite <- Zlt_Qlt. lia. }
  assert (H0 : 0 <= inject_Z wiper / inject_Z taps).
  { apply Qle_shift_div_l; [exact Ht|]. rewrite Qmult_0_l.
    change 0 with (inject_Z 0). rewrite <- Zle_Qle. lia. }
  assert (H1 : inject_Z wiper / inject_Z taps <= 1).
  { apply Qle_shift_div_r; [exact Ht|]. rewrite Qmult_1_l.
    rewrite <- Zle_Qle. lia. }
  split.
  - now apply Qmult_le_0_compat.
  - rewrite <- (Qmult_1_l r_total) at 2.
    now apply Qmult_le_compat_r.
Qed.

Lemma spec_r_neg_mono (x1 x2 taps : Z) (r_total : Q) :
  (0 < taps)%Z -> 0 <= r_total -> (x1 <= x2)%Z ->
  Spec.r_neg x1 taps r_total <= Spec.r_neg x2 taps r_total.
Proof.
  intros Ht Hr Hx. unfold Spec.r_neg.
  apply Qmult_le_compat_r; [|exact Hr].
  unfold Qdiv. apply Qmult_le_compat_r.
  - rewrite <- Zle_Qle. exact Hx.
  - apply Qlt_le_weak, Qinv_lt_0_compat.
    change 0 with (inject_Z 0). rewrite <- Zlt_Qlt. exact Ht.
Qed.

(** C1 (amended). For every pot with a non-zero [max_weight] and at
    least two taps, and every weight [w], [set_weight(w)] computes
    [wiper = clamp(int((w / max_weight + 1) / 2 * tap_count), 1, tap_count - 1)]
    where [int] truncates toward zero (it is not [round]), then sets
    [r_neg = wiper / tap_count * total_resistance] and
    [r_pos = total_resistance - r_neg]; the result depends on the pot
    only through [(max_weight, tap_count, total_resistance)]. *)
Theorem set_weight_truncates (p : DigitalPot.t) (w : Q) :
  ~ DigitalPot.max_weight p == 0 ->
  (2 <= DigitalPot.tap_count p)%Z ->
  DigitalPot.set_weight p w =
    Ok {| DigitalPot.r_total_ohms := DigitalPot.r_total_ohms p;
          DigitalPot.tap_count := DigitalPot.tap_count p;
          DigitalPot.max_weight := DigitalPot.max_weight p;
          DigitalPot.r_neg :=
            Spec.r_neg
              (Spec.wiper_trunc w (DigitalPot.max_weight p) (DigitalPot.tap_count p))
              (DigitalPot.tap_count p) (DigitalPot.r_total_ohms p);
          DigitalPot.r_pos :=
            Spec.r_pos
              (Spec.wiper_trunc w (DigitalPot.max_weight p) (DigitalPot.tap_count p))
              (DigitalPot.tap_count p) (DigitalPot.r_total_ohms p) |}
  /\ forall q : DigitalPot.t,
       DigitalPot.r_total_ohms q = DigitalPot.r_total_ohms p ->
       DigitalPot.tap_count q = DigitalPot.tap_count p ->
       DigitalPot.max_weight q = DigitalPot.max_weight p ->
       DigitalPot.set_weight q w = DigitalPot.set_weight p w.
Proof.
  intros Hm Ht. split.
  - apply set_weight_ok; [lia|].
    rewrite wiper_position_ok by assumption.
    unfold Spec.wiper_trunc. now rewrite min_max_is_clamp.
  - intros q Hr Hc Hw. destruct p, q; simpl in *; subst.
    reflexivity.
Qed.

Lemma set_weight_truncates_witness :
  DigitalPot.set_weight pot_5k (1 # 80) =
    Ok {| DigitalPot.r_total_ohms := 5000; DigitalPot.tap_count := 128;
          DigitalPot.max_weight := 1;
          DigitalPot.r_neg := Spec.r_neg (Spec.wiper_trunc (1 # 80) 1 128) 128 5000;
          DigitalPot.r_pos := Spec.r_pos (Spec.wiper_trunc (1 # 80) 1 128) 128 5000 |}.
Proof.
  assert (H1 : ~ DigitalPot.max_weight pot_5k == 0) by (simpl; discriminate).
  assert (H2 : (2 <= DigitalPot.tap_count pot_5k)%Z) by (simpl; lia).
  exact (proj1 (set_weight_truncates pot_5k (1 # 80) H1 H2)).
Defined.

(** C1 (as stated) fails: at weight 1/80 the scaled position is 64.8;
    the program truncates it to tap 64 (2500 ohm on the negative
    branch) where rounding gives tap 65. *)
Lemma set_weight_round_counterexample :
  DigitalPot.wiper_position pot_5k (1 # 80) = Ok 64%Z /\
  Spec.wiper (1 # 80) (DigitalPot.max_weight pot_5k)
    (DigitalPot.tap_count pot_5k) = 65%Z /\
  exists p',
    DigitalPot.set_weight pot_5k (1 # 80) = Ok p' /\
    DigitalPot.r_neg p' == 2500 /\
    ~ DigitalPot.r_neg p' ==
      Spec.r_neg
        (Spec.wiper (1 # 80) (DigitalPot.max_weight pot_5k)
           (DigitalPot.tap_count pot_5k))
        (DigitalPot.tap_count pot_5k) (DigitalPot.r_total_ohms pot_5k).
Proof.
  split; [reflexivity|]. split; [reflexivity|].
  eexists. split; [reflexivity|]. split; [reflexivity|].
  vm_compute. discriminate.
Qed.

(** C5 (amended). For a pot with a non-zero [max_weight], at least two
    taps and a non-negative total resistance: after [set_weight] with
    any weight, and after construction, [r_pos + r_neg] is the total
    resistance, both are non-negative, and the wiper is an integer of
    [1 .. tap_count - 1] that depends on the weight alone: whatever
    weight the pot held before, the state is the same. *)
Theorem pot_invariant (p : DigitalPot.t) (w : Q) :
  ~ DigitalPot.max_weight p == 0 ->
  (2 <= DigitalPot.tap_count p)%Z ->
  0 <= DigitalPot.r_total_ohms p ->
  (exists wiper p',
     DigitalPot.wiper_position p w = Ok wiper /\
     DigitalPot.set_weight p w = Ok p' /\
     (1 <= wiper <= DigitalPot.tap_count p - 1)%Z /\
     DigitalPot.r_neg p' ==
       inject_Z wiper / inject_Z (DigitalPot.tap_count p)
       * DigitalPot.r_total_ohms p /\
     DigitalPot.r_total_ohms p' = DigitalPot.r_total_ohms p /\
     DigitalPot.r_pos p' + DigitalPot.r_neg p' == DigitalPot.r_total_ohms p' /\
     0 <= DigitalPot.r_pos p' /\
     0 <= DigitalPot.r_neg p' /\
     forall (w0 : Q) (p0 : DigitalPot.t),
       DigitalPot.set_weight p w0 = Ok p0 ->
       DigitalPot.wiper_position p0 w = Ok wiper /\
       DigitalPot.set_weight p0 w = Ok p')
  /\
  (exists p0,
     DigitalPot.new (DigitalPot.r_total_ohms p) (DigitalPot.tap_count p)
       (DigitalPot.max_weight p) = Ok p0 /\
     DigitalPot.set_weight p 0 = Ok p0 /\
     DigitalPot.r_pos p0 + DigitalPot.r_neg p0 == DigitalPot.r_total_ohms p0 /\
     0 <= DigitalPot.r_pos p0 /\
     0 <= DigitalPot.r_neg p0).
Proof.
  intros Hm Ht Hr.
  assert (Hgen : forall v, exists wiper p',
     DigitalPot.wiper_position p v = Ok wiper /\
     DigitalPot.set_weight p v = Ok p' /\
     (1 <= wiper <= DigitalPot.tap_count p - 1)%Z /\
     DigitalPot.r_neg p' = Spec.r_neg wiper (DigitalPot.tap_count p)
                             (DigitalPot.r_total_ohms p) /\
     DigitalPot.r_pos p' = Spec.r_pos wiper (DigitalPot.tap_count p)
                             (DigitalPot.r_total_ohms p) /\
     DigitalPot.r_total_ohms p' = DigitalPot.r_total_ohms p /\
     DigitalPot.tap_count p' = DigitalPot.tap_count p /\
     DigitalPot.max_weight p' = DigitalPot.max_weight p).
  { intros v.
    destruct (DigitalPot.wiper_position p v) as [x|e] eqn:Hx;
      [|rewrite wiper_position_ok in Hx by assumption; discriminate].
    exists x. eexists. split; [reflexivity|].
    split; [apply (set_weight_ok p v x); [lia | exact Hx]|].
    split; [now apply (wiper_in_range p Hm v)|].
    simpl. repeat split; reflexivity. }
  split.
  - destruct (Hgen w) as (x & p' & Hx & Hs & Hrange & Hn & Hp & Hr' & Ht' & Hm').
    exists x, p'. split; [exact Hx|]. split; [exact Hs|].
    split; [exact Hrange|].
    destruct (spec_r_neg_bounds x (DigitalPot.tap_count p)
                (DigitalPot.r_total_ohms p) Hrange Hr) as [Hlo Hhi].
    split; [rewrite Hn; reflexivity|].
    split; [exact Hr'|].
    split; [rewrite Hp, Hn, Hr'; unfold Spec.r_pos; ring|].
    split; [rewrite Hp; unfold Spec.r_pos; lra|].
    split; [rewrite Hn; exact Hlo|].
    intros w0 p0 H0.
    destruct (Hgen w0) as (x0 & p0' & _ & Hs0 & _ & _ & _ & Hr0 & Ht0 & Hm0).
    rewrite Hs0 in H0. injection H0 as <-.
    assert (Hx0 : DigitalPot.wiper_position p0' w = Ok x).
    { rewrite <- Hx. unfold DigitalPot.wiper_position.
      now rewrite Hm0, Ht0. }
    split; [exact Hx0|].
    rewrite <- Hs. unfold DigitalPot.set_weight.
    rewrite Hx0, Hx. cbn [bind]. now rewrite Hr0, Ht0, Hm0.
  - destruct (Hgen 0) as (x & p' & Hx & Hs & Hrange & Hn & Hp & Hr' & Ht' & Hm').
    exists p'.
    destruct (spec_r_neg_bounds x (DigitalPot.tap_count p)
                (DigitalPot.r_total_ohms p) Hrange Hr) as [Hlo Hhi].
    split; [exact Hs|]. split; [exact Hs|].
    split; [rewrite Hp, Hn, Hr'; unfold Spec.r_pos; ring|].
    split; [rewrite Hp; unfold Spec.r_pos; lra|].
    rewrite Hn; exact Hlo.
Qed.

Lemma pot_invariant_witness :
  exists p0,
    DigitalPot.new 5000 128 1 = Ok p0 /\
    DigitalPot.r_pos p0 + DigitalPot.r_neg p0 == DigitalPot.r_total_ohms p0 /\
    0 <= DigitalPot.r_pos p0 /\
    0 <= DigitalPot.r_neg p0.
Proof.
  assert (H1 : ~ DigitalPot.max_weight pot_5k == 0) by (simpl; discriminate).
  assert (H2 : (2 <= DigitalPot.tap_count pot_5k)%Z) by (simpl; lia).
  assert (H3 : 0 <= DigitalPot.r_total_ohms pot_5k) by (simpl; discriminate).
  destruct (proj2 (pot_invariant pot_5k 0 H1 H2 H3))
    as (p0 & Hnew & _ & Hsum & Hpos & Hneg).
  exists p0. repeat split; assumption.
Defined.

(** C5 (as stated, for every pot) fails.  A pot with a single tap is
    constructed without complaint and its wiper is 0: the inner [max]
    gives 1 and the outer [min] with [tap_count - 1 = 0] undoes it, so
    the wiper is outside [1 .. tap_count - 1].  A pot with a negative
    total resistance is constructed too, and both of its branches are
    negative. *)
Lemma pot_invariant_counterexample :
  (exists p',
     DigitalPot.new 5000 1 1 = Ok p' /\
     DigitalPot.set_weight pot_one_tap 0 = Ok p' /\
     DigitalPot.wiper_position pot_one_tap 0 = Ok 0%Z /\
     ~ (1 <= 0 <= DigitalPot.tap_count pot_one_tap - 1)%Z)
  /\
  (exists p',
     DigitalPot.new (- (2500)) 128 1 = Ok p' /\
     DigitalPot.set_weight pot_negative_total 0 = Ok p' /\
     ~ 0 <= DigitalPot.r_neg p' /\
     ~ 0 <= DigitalPot.r_pos p').
Proof.
  split.
  - eexists. split; [vm_compute; reflexivity|].
    split; [vm_compute; reflexivity|].
    split; [vm_compute; reflexivity|].
    cbn. lia.
  - eexists. split; [vm_compute; reflexivity|].
    split; [vm_compute; reflexivity|].
    split; vm_compute; intros H; apply H; reflexivity.
Qed.

(** *** Saturation and monotonicity *)

Lemma tap_of_weight_at_max (m : Q) (taps : Z) :
  ~ m == 0 -> Spec.tap_of_weight m m taps == inject_Z taps.
Proof. intros Hm. unfold Spec.tap_of_weight. field. exact Hm. Qed.

Lemma tap_of_weight_at_min (m : Q) (taps : Z) :
  ~ m == 0 -> Spec.tap_of_weight (- m) m taps == 0.
Proof. intros Hm. unfold Spec.tap_of_weight. field. exact Hm. Qed.

Lemma tap_of_weight_above (w m : Q) (taps : Z) :
  0 < m -> m <= w -> (0 < taps)%Z ->
  inject_Z taps <= Spec.tap_of_weight w m taps.
Proof.
  intros Hm Hw Ht. unfold Spec.tap_of_weight.
  assert (Hq : 1 <= w / m).
  { apply Qle_shift_div_l; [exact Hm | lra]. }
  assert (Hz : 0 <= inject_Z taps).
  { change 0 with (inject_Z 0). rewrite <- Zle_Qle. lia. }
  revert Hq. generalize (w / m). intros a Ha.
  rewrite <- (Qmult_1_l (inject_Z taps)) at 1.
  apply Qmult_le_compat_r; [|exact Hz].
  apply Qle_shift_div_l; [reflexivity | lra].
Qed.

Lemma tap_of_weight_below (w m : Q) (taps : Z) :
  0 < m -> w <= - m -> (0 < taps)%Z ->
  Spec.tap_of_weight w m taps <= 0.
Proof.
  intros Hm Hw Ht. unfold Spec.tap_of_weight.
  assert (Hq : w / m <= - (1)).
  { apply Qle_shift_div_r; [exact Hm | lra]. }
  assert (Hz : 0 <= inject_Z taps).
  { change 0 with (inject_Z 0). rewrite <- Zle_Qle. lia. }
  revert Hq. generalize (w / m). intros a Ha.
  assert (Hh : (a + 1) / 2 <= 0).
  { apply Qle_shift_div_r; [reflexivity | lra]. }
  revert Hh. generalize ((a + 1) / 2). intros b Hb.
  rewrite <- (Qmult_0_l (inject_Z taps)).
  apply Qmult_le_compat_r; assumption.
Qed.

(** Above [max_weight] the wiper sits where it sits at [max_weight]. *)
Lemma wiper_saturates_high (p : DigitalPot.t) (w : Q) :
  0 < DigitalPot.max_weight p -> DigitalPot.max_weight p <= w ->
  DigitalPot.wiper_position p w = Ok (DigitalPot.tap_count p - 1)%Z.
Proof.
  intros Hm Hw. rewrite wiper_position_ok by lra. f_equal.
  destruct (Z_lt_le_dec 0 (DigitalPot.tap_count p)) as [Ht|Ht]; [|lia].
  pose proof (py_int_ge _ _ (tap_of_weight_above w _ _ Hm Hw Ht)). lia.
Qed.

(** Below [-max_weight] the wiper sits where it sits at [-max_weight]. *)
Lemma wiper_saturates_low (p : DigitalPot.t) (w : Q) :
  0 < DigitalPot.max_weight p -> w <= - DigitalPot.max_weight p ->
  DigitalPot.wiper_position p w = Ok (Z.min (DigitalPot.tap_count p - 1) 1).
Proof.
  intros Hm Hw. rewrite wiper_position_ok by lra. f_equal.
  destruct (Z_lt_le_dec 0 (DigitalPot.tap_count p)) as [Ht|Ht]; [|lia].
  pose proof (py_int_le _ 0 (tap_of_weight_below w _ _ Hm Hw Ht)). lia.
Qed.

Lemma set_weight_by_wiper (p : DigitalPot.t) (w1 w2 : Q) :
  DigitalPot.wiper_position p w1 = DigitalPot.wiper_position p w2 ->
  DigitalPot.set_weight p w1 = DigitalPot.set_weight p w2.
Proof. intros H. unfold DigitalPot.set_weight. now rewrite H. Qed.






(** C4 (amended). With a positive [max_weight], at least two taps and a
    non-negative total, [r_pos] is non-increasing and [r_neg]
    non-decreasing in the weight; [-max_weight] gives the least
    [r_neg], one tap's worth, so most of the resistance is on the
    positive branch, and [+max_weight] gives the reverse. *)
Theorem r_pos_nonincreasing (p : DigitalPot.t) (w1 w2 : Q) :
  0 < DigitalPot.max_weight p ->
  (2 <= DigitalPot.tap_count p)%Z ->
  0 <= DigitalPot.r_total_ohms p ->
  w1 <= w2 ->
  (exists p1 p2,
     DigitalPot.set_weight p w1 = Ok p1 /\
     DigitalPot.set_weight p w2 = Ok p2 /\
     DigitalPot.r_pos p2 <= DigitalPot.r_pos p1 /\
     DigitalPot.r_neg p1 <= DigitalPot.r_neg p2)
  /\
  (exists lo hi,
     DigitalPot.set_weight p (- DigitalPot.max_weight p) = Ok lo /\
     DigitalPot.set_weight p (DigitalPot.max_weight p) = Ok hi /\
     DigitalPot.r_neg lo ==
       DigitalPot.r_total_ohms p / inject_Z (DigitalPot.tap_count p) /\
     DigitalPot.r_pos lo ==
       DigitalPot.r_total_ohms p
       - DigitalPot.r_total_ohms p / inject_Z (DigitalPot.tap_count p) /\
     DigitalPot.r_neg hi ==
       DigitalPot.r_total_ohms p
       - DigitalPot.r_total_ohms p / inject_Z (DigitalPot.tap_count p) /\
     DigitalPot.r_pos hi ==
       DigitalPot.r_total_ohms p / inject_Z (DigitalPot.tap_count p) /\
     DigitalPot.r_neg lo <= DigitalPot.r_pos lo /\
     DigitalPot.r_pos hi <= DigitalPot.r_neg hi).
Proof.
  intros Hm Ht Hr Hw.
  assert (Hnz : ~ DigitalPot.max_weight p == 0) by lra.
  assert (Htz : DigitalPot.tap_count p <> 0%Z) by lia.
  assert (Hq : ~ inject_Z (DigitalPot.tap_count p) == 0)
    by now apply inject_Z_nonzero.
  split.
  - pose proof (wiper_position_ok p Hnz w1) as H1.
    pose proof (wiper_position_ok p Hnz w2) as H2.
    pose proof (wiper_position_mono p Hnz w1 w2 _ _ Hm ltac:(lia) Hw H1 H2) as Hx.
    eexists. eexists.
    split; [apply (set_weight_ok p w1 _ Htz H1)|].
    split; [apply (set_weight_ok p w2 _ Htz H2)|].
    cbn [DigitalPot.r_pos DigitalPot.r_neg].
    pose proof (spec_r_neg_mono _ _ (DigitalPot.tap_count p)
                  (DigitalPot.r_total_ohms p) ltac:(lia) Hr Hx) as Hn.
    split; [unfold Spec.r_pos; lra | exact Hn].
  - pose proof (wiper_saturates_low p (- DigitalPot.max_weight p) Hm
                  ltac:(lra)) as Hlo.
    pose proof (wiper_saturates_high p (DigitalPot.max_weight p) Hm
                  ltac:(lra)) as Hhi.
    replace (Z.min (DigitalPot.tap_count p - 1) 1) with 1%Z in Hlo by lia.
    eexists. eexists.
    split; [apply (set_weight_ok p _ _ Htz Hlo)|].
    split; [apply (set_weight_ok p _ _ Htz Hhi)|].
    cbn [DigitalPot.r_pos DigitalPot.r_neg].
    assert (Elo : Spec.r_neg 1 (DigitalPot.tap_count p) (DigitalPot.r_total_ohms p)
                  == DigitalPot.r_total_ohms p / inject_Z (DigitalPot.tap_count p)).
    { unfold Spec.r_neg. field. exact Hq. }
    assert (Ehi : Spec.r_neg (DigitalPot.tap_count p - 1) (DigitalPot.tap_count p)
                    (DigitalPot.r_total_ohms p)
                  == DigitalPot.r_total_ohms p
                     - DigitalPot.r_total_ohms p / inject_Z (DigitalPot.tap_count p)).
    { unfold Spec.r_neg, Z.sub. rewrite inject_Z_plus.
      change (inject_Z (- (1))) with (- (1)).
      revert Hq. generalize (inject_Z (DigitalPot.tap_count p)).
      intros t Hq. field. exact Hq. }
    assert (Hhalf : Spec.r_neg 1 (DigitalPot.tap_count p) (DigitalPot.r_total_ohms p)
                    <= Spec.r_neg (DigitalPot.tap_count p - 1) (DigitalPot.tap_count p)
                         (DigitalPot.r_total_ohms p)).
    { apply spec_r_neg_mono; [lia | exact Hr | lia]. }
    unfold Spec.r_pos.
    repeat split; try lra.
Qed.

Lemma r_pos_nonincreasing_witness :
  exists p1 p2,
    DigitalPot.set_weight pot_5k (- (1 # 2)) = Ok p1 /\
    DigitalPot.set_weight pot_5k (1 # 2) = Ok p2 /\
    DigitalPot.r_pos p2 <= DigitalPot.r_pos p1 /\
    DigitalPot.r_neg p1 <= DigitalPot.r_neg p2.
Proof.
  assert (Hm : 0 < DigitalPot.max_weight pot_5k) by reflexivity.
  assert (Ht : (2 <= DigitalPot.tap_count pot_5k)%Z) by (simpl; lia).
  assert (Hr : 0 <= DigitalPot.r_total_ohms pot_5k) by (simpl; discriminate).
  assert (Hw : - (1 # 2) <= 1 # 2) by discriminate.
  exact (proj1 (r_pos_nonincreasing pot_5k (- (1 # 2)) (1 # 2) Hm Ht Hr Hw)).
Defined.

(** C4 (as stated) fails: from weight [-1] to weight [+1] the positive
    branch of [pot_5k] falls from 4960.9375 to 39.0625 ohm, and at
    [-max_weight] the larger share is on the positive branch. *)
Lemma r_pos_nondecreasing_counterexample :
  exists p1 p2,
    DigitalPot.set_weight pot_5k (- DigitalPot.max_weight pot_5k) = Ok p1 /\
    DigitalPot.set_weight pot_5k (DigitalPot.max_weight pot_5k) = Ok p2 /\
    - DigitalPot.max_weight pot_5k <= DigitalPot.max_weight pot_5k /\
    ~ DigitalPot.r_pos p1 <= DigitalPot.r_pos p2 /\
    DigitalPot.r_neg p1 < DigitalPot.r_pos p1 /\
    DigitalPot.r_pos p2 < DigitalPot.r_neg p2.
Proof.
  eexists. eexists.
  split; [reflexivity|]. split; [reflexivity|].
  split; [discriminate|].
  split; [vm_compute; intros H; apply H; reflexivity|].
  split; reflexivity.
Qed.

(** ** DigitalPotFactory *)

Lemma new_pot_ok (r : Q) (taps : Z) (mw : Q) :
  ~ mw == 0 -> taps <> 0%Z ->
  exists p, DigitalPot.new r taps mw = Ok p /\
            DigitalPot.r_total_ohms p = r /\
            DigitalPot.tap_count p = taps /\
            DigitalPot.max_weight p = mw.
Proof.
  intros Hm Ht. unfold DigitalPot.new.
  eexists. split.
  - apply set_weight_ok; [exact Ht|]. apply wiper_position_ok. exact Hm.
  - simpl. repeat split.
Qed.

Section FactoryFacts.

Import DigitalPotFactory.

Variable mw : Q.
Hypothesis mw_nonzero : ~ mw == 0.

(** One call of [pot]: the draw happens exactly when the counter is 1. *)
Lemma pot_step (f : t) (rng : Random.t) :
  tap_count f <> 0%Z -> (draw_low f < draw_high f)%Z ->
  exists p f' rng',
    pot f mw rng = Ok (p, (f', rng')) /\
    same_config f f' /\
    DigitalPot.r_total_ohms p = chip_resistance f' /\
    pot_counter f' =
      (if (pot_counter f <? pots_per_chip f)%Z
       then pot_counter f + 1 else 1)%Z /\
    Random.raw rng' = Random.raw rng /\
    (pot_counter f = 1%Z ->
     chip_resistance f' = inject_Z (drawn f rng 0) /\
     Random.used rng' = S (Random.used rng)) /\
    (pot_counter f <> 1%Z ->
     chip_resistance f' = chip_resistance f /\ rng' = rng).
Proof.
  intros Ht Hrange. unfold pot.
  destruct (Z.eqb_spec (pot_counter f) 1) as [Hc|Hc].
  - unfold Random.randrange.
    destruct (Z.ltb_spec (draw_low f) (draw_high f)) as [_|]; [|lia].
    cbn [bind fst snd].
    destruct (new_pot_ok
                (chip_resistance
                   (set_pot_counter
                      (if (pot_counter f <? pots_per_chip f)%Z
                       then (pot_counter f + 1)%Z else 1%Z)
                      (set_chip_resistance
                         (inject_Z
                            (draw_low f
                             + Random.raw rng (Random.used rng)
                               mod (draw_high f - draw_low f))) f)))
                (tap_count f) mw mw_nonzero Ht)
      as (p & Hp & Hr & _).
    cbn [set_pot_counter set_chip_resistance pot_counter pots_per_chip
         tap_count chip_resistance] in *.
    rewrite Hp. cbn [bind].
    eexists _, _, _. split; [reflexivity|].
    cbn. unfold drawn. rewrite Nat.add_0_r.
    repeat split; try assumption; try reflexivity; contradiction.
  - cbn [bind fst snd].
    destruct (new_pot_ok
                (chip_resistance
                   (set_pot_counter
                      (if (pot_counter f <? pots_per_chip f)%Z
                       then (pot_counter f + 1)%Z else 1%Z) f))
                (tap_count f) mw mw_nonzero Ht)
      as (p & Hp & Hr & _).
    cbn [set_pot_counter set_chip_resistance pot_counter pots_per_chip
         tap_count chip_resistance] in *.
    rewrite Hp. cbn [bind].
    eexists _, _, _. split; [reflexivity|].
    cbn. repeat split; try assumption; try reflexivity; contradiction.
Qed.

Lemma draw_bounds_same (f f' : t) :
  same_config f f' -> draw_low f' = draw_low f /\ draw_high f' = draw_high f.
Proof.
  intros (Hr & _ & Htol & _). unfold draw_low, draw_high.
  now rewrite Hr, Htol.
Qed.

Lemma drawn_shift (f f' : t) (rng rng' : Random.t) (d j : nat) :
  same_config f f' -> Random.raw rng' = Random.raw rng ->
  Random.used rng' = (Random.used rng + d)%nat ->
  drawn f' rng' j = drawn f rng (d + j).
Proof.
  intros Hc Hraw Hused. unfold drawn.
  destruct (draw_bounds_same f f' Hc) as [-> ->].
  rewrite Hraw, Hused. now rewrite Nat.add_assoc.
Qed.

(** The resistances of [n] pots made in a row, from any counter
    position: pot [i] lies in chip [g] where
    [counter - 1 + i = g * pots_per_chip + r]. *)
Lemma pots_resistances (n : nat) :
  forall (f : t) (rng : Random.t),
    tap_count f <> 0%Z -> (draw_low f < draw_high f)%Z ->
    (1 <= pot_counter f <= pots_per_chip f)%Z ->
    exists ps f' rng',
      pots n f mw rng = Ok (ps, (f', rng')) /\
      length ps = n /\
      same_config f f' /\
      Random.raw rng' = Random.raw rng /\
      (forall (i : nat) (p : DigitalPot.t) (g r : Z),
         ps !! i = Some p ->
         (pot_counter f - 1 + Z.of_nat i = g * pots_per_chip f + r)%Z ->
         (0 <= r < pots_per_chip f)%Z ->
         DigitalPot.r_total_ohms p =
           if (pot_counter f =? 1)%Z then inject_Z (drawn f rng (Z.to_nat g))
           else if (g =? 0)%Z then chip_resistance f
                else inject_Z (drawn f rng (Z.to_nat g - 1))) /\
      (forall (g r : Z),
         (pot_counter f - 1 + Z.of_nat n = g * pots_per_chip f + r)%Z ->
         (0 <= r < pots_per_chip f)%Z ->
         pot_counter f' = (r + 1)%Z /\
         Z.of_nat (Random.used rng') =
           (Z.of_nat (Random.used rng) + g + (if (r =? 0)%Z then 0 else 1)
            - (if (pot_counter f =? 1)%Z then 0 else 1))%Z).
Proof.
  induction n as [|n IH]; intros f rng Ht Hrange Hc.
  - exists [], f, rng. cbn. split; [reflexivity|]. split; [reflexivity|].
    split; [repeat split|]. split; [reflexivity|].
    split; [intros i p g r Hi; discriminate|].
    intros g r Hg Hr.
    assert (g = 0%Z) by nia. subst g.
    destruct (Z.eqb_spec (pot_counter f) 1), (Z.eqb_spec r 0); lia.
  - destruct (pot_step f rng Ht Hrange)
      as (p0 & f1 & rng1 & Hpot & Hcfg & Hres & Hcnt & Hraw & Hdraw & Hkeep).
    destruct (draw_bounds_same f f1 Hcfg) as [Hlo Hhi].
    pose proof Hcfg as (_ & Htap & _ & Hk).
    destruct (IH f1 rng1) as (ps & f' & rng' & Hps & Hlen & Hcfg' & Hraw' & Hall & Hfin).
    { now rewrite Htap. }
    { now rewrite Hlo, Hhi. }
    { rewrite Hcnt, Hk. destruct (Z.ltb_spec (pot_counter f) (pots_per_chip f)); lia. }
    exists (p0 :: ps), f', rng'. cbn [pots]. rewrite Hpot. cbn [bind fst snd].
    rewrite Hps. cbn [bind fst snd].
    split; [reflexivity|]. split; [cbn; now rewrite Hlen|].
    split.
    { destruct Hcfg as (a1 & a2 & a3 & a4), Hcfg' as (b1 & b2 & b3 & b4).
      repeat split; congruence. }
    split; [congruence|].
    assert (Hsh : forall j d, Random.used rng1 = (Random.used rng + d)%nat ->
              drawn f1 rng1 j = drawn f rng (d + j)).
    { intros j d Hd. now apply drawn_shift. }
    split.
    + intros [|i] p g r Hi Hg Hr.
      * injection Hi as <-. rewrite Hres.
        assert (g = 0%Z) by nia. subst g.
        destruct (Z.eqb_spec (pot_counter f) 1) as [E|E].
        -- now destruct (Hdraw E) as [-> _].
        -- now destruct (Hkeep E) as [-> _].
      * cbn in Hi. rewrite Hk in Hall.
        destruct (Z.ltb_spec (pot_counter f) (pots_per_chip f)) as [Hlt|Hge].
        -- specialize (Hall i p g r Hi ltac:(lia) Hr).
           rewrite Hall.
           destruct (Z.eqb_spec (pot_counter f1) 1) as [E1|E1]; [lia|].
           destruct (Z.eqb_spec (pot_counter f) 1) as [E|E].
           ++ destruct (Hdraw E) as [Hchip Hused].
              destruct (Z.eqb_spec g 0) as [G|G].
              ** subst g. now rewrite Hchip.
              ** assert (0 < g)%Z by nia.
                 rewrite (Hsh _ 1%nat) by lia. do 2 f_equal. lia.
           ++ destruct (Hkeep E) as [Hchip ->].
              destruct (Z.eqb_spec g 0) as [G|G]; [exact Hchip|].
              f_equal. apply (drawn_shift f f1 rng rng 0); [assumption|reflexivity|lia].
        -- assert (1 <= g)%Z by nia.
           specialize (Hall i p (g - 1)%Z r Hi ltac:(lia) Hr).
           rewrite Hall.
           destruct (Z.eqb_spec (pot_counter f1) 1) as [E1|E1]; [|lia].
           destruct (Z.eqb_spec (pot_counter f) 1) as [E|E].
           ++ destruct (Hdraw E) as [Hchip Hused].
              rewrite (Hsh _ 1%nat) by lia. do 2 f_equal. lia.
           ++ destruct (Hkeep E) as [Hchip ->].
              destruct (Z.eqb_spec g 0) as [G|G]; [lia|].
              rewrite (drawn_shift f f1 rng rng 0 _ Hcfg eq_refl) by lia.
              do 2 f_equal. lia.
    + intros g r Hg Hr. rewrite Hk in Hfin.
      destruct (Z.ltb_spec (pot_counter f) (pots_per_chip f)) as [Hlt|Hge].
      * destruct (Hfin g r ltac:(lia) Hr) as [Hc' Hu'].
        split; [exact Hc'|]. rewrite Hu'.
        destruct (Z.eqb_spec (pot_counter f1) 1) as [E1|E1]; [lia|].
        destruct (Z.eqb_spec (pot_counter f) 1) as [E|E].
        -- destruct (Hdraw E) as [_ Hused]. lia.
        -- destruct (Hkeep E) as [_ ->]. lia.
      * assert (1 <= g)%Z by nia.
        destruct (Hfin (g - 1)%Z r ltac:(lia) Hr) as [Hc' Hu'].
        split; [exact Hc'|]. rewrite Hu'.
        destruct (Z.eqb_spec (pot_counter f1) 1) as [E1|E1]; [|lia].
        destruct (Z.eqb_spec (pot_counter f) 1) as [E|E].
        -- destruct (Hdraw E) as [_ Hused]. lia.
        -- destruct (Hkeep E) as [_ ->]. lia.
Qed.

End FactoryFacts.

(** C8 (amended). From a fresh factory with [pots_per_chip = k >= 1],
    the pots are made in chips of [k]: pot number [g * k + r] (with
    [r < k]) carries the [g]-th value drawn, an integer that
    [randrange] takes from [int(r_total * (1 - tolerance))] inclusive to
    [int(r_total * (1 + tolerance))] exclusive; a value is drawn exactly
    when the counter is at 1, so after [g] complete chips the counter is
    back at 1 with [g] values drawn, and the next pot draws a new one. *)
Theorem chip_grouping (f : DigitalPotFactory.t) (mw : Q) (rng : Random.t)
    (n : nat) :
  ~ mw == 0 ->
  DigitalPotFactory.tap_count f <> 0%Z ->
  DigitalPotFactory.pot_counter f = 1%Z ->
  (1 <= DigitalPotFactory.pots_per_chip f)%Z ->
  (DigitalPotFactory.draw_low f < DigitalPotFactory.draw_high f)%Z ->
  exists ps f' rng',
    DigitalPotFactory.pots n f mw rng = Ok (ps, (f', rng')) /\
    length ps = n /\
    (forall (g r : nat) (p : DigitalPot.t),
       (Z.of_nat r < DigitalPotFactory.pots_per_chip f)%Z ->
       ps !! (g * Z.to_nat (DigitalPotFactory.pots_per_chip f) + r)%nat = Some p ->
       DigitalPot.r_total_ohms p = inject_Z (drawn f rng g) /\
       (DigitalPotFactory.draw_low f <= drawn f rng g
        < DigitalPotFactory.draw_high f)%Z) /\
    (forall (g r : nat),
       (Z.of_nat r < DigitalPotFactory.pots_per_chip f)%Z ->
       n = (g * Z.to_nat (DigitalPotFactory.pots_per_chip f) + r)%nat ->
       DigitalPotFactory.pot_counter f' = (Z.of_nat r + 1)%Z /\
       Random.used rng' =
         (Random.used rng + g + (if (r =? 0)%nat then 0 else 1))%nat).
Proof.
  intros Hm Ht Hc Hk Hrange.
  destruct (pots_resistances mw Hm n f rng Ht Hrange ltac:(lia))
    as (ps & f' & rng' & Hps & Hlen & _ & _ & Hall & Hfin).
  exists ps, f', rng'. split; [exact Hps|]. split; [exact Hlen|].
  split.
  - intros g r p Hr Hi. split.
    + rewrite (Hall _ p (Z.of_nat g) (Z.of_nat r) Hi) by lia.
      rewrite Hc. cbn. now rewrite Nat2Z.id.
    + unfold drawn.
      pose proof (Z.mod_pos_bound
                    (Random.raw rng (Random.used rng + g))
                    (DigitalPotFactory.draw_high f - DigitalPotFactory.draw_low f)
                    ltac:(lia)).
      lia.
  - intros g r Hr Hn.
    destruct (Hfin (Z.of_nat g) (Z.of_nat r) ltac:(lia) ltac:(lia)) as [Hc' Hu'].
    split; [exact Hc'|].
    rewrite Hc in Hu'. change (1 =? 1)%Z with true in Hu'. cbv iota in Hu'.
    destruct (Z.eqb_spec (Z.of_nat r) 0), (Nat.eqb_spec r 0); lia.
Qed.

Lemma chip_grouping_witness :
  exists ps f' rng',
    DigitalPotFactory.pots 5 factory_5k 1 rng_mid = Ok (ps, (f', rng')) /\
    length ps = 5%nat.
Proof.
  assert (H1 : ~ 1 == 0) by discriminate.
  assert (H2 : DigitalPotFactory.tap_count factory_5k <> 0%Z) by discriminate.
  assert (H3 : DigitalPotFactory.pot_counter factory_5k = 1%Z) by reflexivity.
  assert (H4 : (1 <= DigitalPotFactory.pots_per_chip factory_5k)%Z)
    by (vm_compute; discriminate).
  assert (H5 : (DigitalPotFactory.draw_low factory_5k
                < DigitalPotFactory.draw_high factory_5k)%Z) by reflexivity.
  destruct (chip_grouping factory_5k 1 rng_mid 5 H1 H2 H3 H4 H5)
    as (ps & f' & rng' & Hps & Hlen & _).
  exists ps, f', rng'. split; assumption.
Defined.

(** C8 (as stated) fails on the range of the draw: for a nominal 5001
    ohm at 20 % the band starts at 4000.8 ohm, yet a pot can get 4000. *)
Lemma draw_below_band_counterexample :
  exists p st,
    DigitalPotFactory.pot factory_5001 1 rng_zero = Ok (p, st) /\
    DigitalPot.r_total_ohms p == 4000 /\
    ~ DigitalPotFactory.r_total_ohms factory_5001
        * (1 - DigitalPotFactory.tolerance factory_5001)
      <= DigitalPot.r_total_ohms p.
Proof.
  eexists. eexists.
  split; [reflexivity|]. split; [reflexivity|].
  vm_compute. intros H. apply H. reflexivity.
Qed.

(** ** Loops *)

Section Loops.

Context {A S : Type}.
Variable Inv : S -> Prop.
Variable body : A -> S -> Res S.

Lemma for_each_ok (xs : list A) :
  (forall x st, x ∈ xs -> Inv st -> exists st', body x st = Ok st' /\ Inv st') ->
  forall st, Inv st -> exists st', for_each xs body st = Ok st' /\ Inv st'.
Proof.
  induction xs as [|x xs IH]; intros Hbody st Hst.
  - exists st. split; [reflexivity | exact Hst].
  - destruct (Hbody x st) as (st1 & H1 & Hinv1); [left | exact Hst |].
    cbn [for_each]. rewrite H1. cbn [bind].
    apply IH; [|exact Hinv1].
    intros y st2 Hy. apply Hbody. now right.
Qed.

(** If each step either keeps the invariant or raises [e], and some
    step always raises [e], the loop raises [e]. *)
Lemma for_each_raises (e : PyExc) (xs : list A) (x0 : A) :
  (forall x st, x ∈ xs -> Inv st ->
     body x st = Raise e \/ exists st', body x st = Ok st' /\ Inv st') ->
  x0 ∈ xs ->
  (forall st, Inv st -> body x0 st = Raise e) ->
  forall st, Inv st -> for_each xs body st = Raise e.
Proof.
  induction xs as [|x xs IH]; intros Hstep Hin Hbad st Hst.
  - inversion Hin.
  - cbn [for_each].
    destruct (Hstep x st) as [Hr | (st1 & H1 & Hinv1)];
      [left | exact Hst | now rewrite Hr |].
    rewrite H1. cbn [bind].
    apply elem_of_cons in Hin as [->|Hin].
    + rewrite Hbad in H1 by exact Hst. discriminate.
    + apply IH; try assumption.
      intros y st2 Hy. apply Hstep. now right.
Qed.

End Loops.

(** ** MLP_Circuit_Layer *)

Lemma index_ok {A : Type} (xs : list A) (i : nat) :
  (i < length xs)%nat -> exists x, xs !! i = Some x /\ index xs i = Ok x.
Proof.
  intros H. destruct (lookup_lt_is_Some_2 xs i H) as [x Hx].
  exists x. unfold index. now rewrite Hx.
Qed.

Lemma index_out_of_range {A : Type} (xs : list A) (i : nat) :
  (length xs <= i)%nat -> index xs i = Raise IndexError.
Proof.
  intros H. unfold index. now rewrite (lookup_ge_None_2 xs i H).
Qed.

Lemma shaped_row {A : Type} (rows cols : nat) (m : list (list A)) (j : nat)
    (row : list A) :
  shaped rows cols m -> m !! j = Some row -> length row = cols.
Proof.
  intros [_ Hall] Hj.
  exact (proj1 (Forall_lookup _ m) Hall j row Hj).
Qed.

Lemma shaped_insert {A : Type} (rows cols : nat) (m : list (list A)) (j : nat)
    (row : list A) :
  shaped rows cols m -> length row = cols -> shaped rows cols (<[j := row]> m).
Proof.
  intros [Hlen Hall] Hrow. split.
  - now rewrite length_insert.
  - now apply Forall_insert.
Qed.

Lemma set_weight_well_formed (p p' : DigitalPot.t) (w : Q) :
  DigitalPot.set_weight p w = Ok p' -> well_formed p -> well_formed p'.
Proof.
  intros H [Hm Ht].
  rewrite (set_weight_ok p w _ Ht (wiper_position_ok p Hm w)) in H.
  injection H as <-. split; assumption.
Qed.

Lemma set_weight_defined (p : DigitalPot.t) (w : Q) :
  well_formed p -> exists p', DigitalPot.set_weight p w = Ok p'.
Proof.
  intros [Hm Ht]. eexists.
  exact (set_weight_ok p w _ Ht (wiper_position_ok p Hm w)).
Qed.

Section UpdateBounds.

Import MLP_Circuit_Layer.

Variable self : MLP_Circuit_Layer.t.
Hypothesis weights_shaped :
  shaped (neuron_count self) (inputs_per_neuron self)
    (NeuronLayer.synaptic_weights (neuron_layer self)).

(** What the loops preserve: the shape of the pot array, and that its
    pots are well formed. *)
Local Abbreviation Inv := (pots_ok (inputs_per_neuron self) (neuron_count self)).

Lemma push_weight_in_bounds (i j : nat) (pots : list (list DigitalPot.t)) :
  Inv pots ->
  (j < inputs_per_neuron self)%nat -> (i < neuron_count self)%nat ->
  (j < neuron_count self)%nat -> (i < inputs_per_neuron self)%nat ->
  exists pots', push_weight self i j pots = Ok pots' /\ Inv pots'.
Proof.
  intros [Hshape Hwf] Hj Hi Hj' Hi'. unfold push_weight.
  destruct (index_ok pots j) as (row & Hrow & ->);
    [destruct Hshape as [-> _]; exact Hj|].
  cbn [bind].
  pose proof (shaped_row _ _ _ _ _ Hshape Hrow) as Hlen.
  destruct (index_ok row i) as (pot & Hpot & ->); [now rewrite Hlen|].
  cbn [bind].
  destruct (index_ok (NeuronLayer.synaptic_weights (neuron_layer self)) j)
    as (wrow & Hwrow & ->);
    [destruct weights_shaped as [-> _]; exact Hj'|].
  cbn [bind].
  pose proof (shaped_row _ _ _ _ _ weights_shaped Hwrow) as Hwlen.
  destruct (index_ok wrow i) as (w & Hw & ->); [now rewrite Hwlen|].
  cbn [bind].
  assert (Hrowwf : Forall well_formed row)
    by exact (proj1 (Forall_lookup _ pots) Hwf j row Hrow).
  assert (Hpotwf : well_formed pot)
    by exact (proj1 (Forall_lookup _ row) Hrowwf i pot Hpot).
  destruct (set_weight_defined pot w Hpotwf) as [pot' Hset].
  rewrite Hset. cbn [bind]. eexists. split; [reflexivity|].
  split.
  - apply shaped_insert; [exact Hshape|]. now rewrite length_insert.
  - apply Forall_insert; [exact Hwf|].
    apply Forall_insert; [exact Hrowwf|].
    exact (set_weight_well_formed _ _ _ Hset Hpotwf).
Qed.

Lemma push_weight_out_of_bounds (i j : nat) (pots : list (list DigitalPot.t)) :
  Inv pots ->
  (inputs_per_neuron self <= j)%nat \/
  ((j < inputs_per_neuron self)%nat /\ (neuron_count self <= i)%nat) ->
  push_weight self i j pots = Raise IndexError.
Proof.
  intros [Hshape Hwf] [Hj|[Hj Hi]]; unfold push_weight.
  - rewrite index_out_of_range; [reflexivity|].
    destruct Hshape as [-> _]. exact Hj.
  - destruct (index_ok pots j) as (row & Hrow & ->);
      [destruct Hshape as [-> _]; exact Hj|].
    pose proof (shaped_row _ _ _ _ _ Hshape Hrow) as Hlen.
    cbn [bind]. rewrite index_out_of_range; [reflexivity|].
    now rewrite Hlen.
Qed.

(** A step inside the visited range either succeeds or raises
    [IndexError]. *)
Lemma push_weight_cases (i j : nat) (pots : list (list DigitalPot.t)) :
  Inv pots ->
  (j < neuron_count self - 1)%nat -> (i < inputs_per_neuron self - 1)%nat ->
  push_weight self i j pots = Raise IndexError \/
  exists pots', push_weight self i j pots = Ok pots' /\ Inv pots'.
Proof.
  intros HInv Hj Hi.
  destruct (le_lt_dec (inputs_per_neuron self) j) as [Hoj|Hoj].
  - left. apply push_weight_out_of_bounds; [exact HInv | now left].
  - destruct (le_lt_dec (neuron_count self) i) as [Hoi|Hoi].
    + left. apply push_weight_out_of_bounds; [exact HInv | right; lia].
    + right. apply push_weight_in_bounds; try assumption; lia.
Qed.

Lemma inner_loop_cases (i : nat) (pots : list (list DigitalPot.t)) :
  Inv pots -> (i < inputs_per_neuron self - 1)%nat ->
  for_each (range0 (neuron_count self - 1))
    (fun j => push_weight self i j) pots = Raise IndexError \/
  exists pots',
    for_each (range0 (neuron_count self - 1))
      (fun j => push_weight self i j) pots = Ok pots' /\ Inv pots'.
Proof.
  intros HInv Hi. unfold range0.
  assert (Hgen : forall xs st,
            (forall x, x ∈ xs -> (x < neuron_count self - 1)%nat) -> Inv st ->
            for_each xs (fun j => push_weight self i j) st = Raise IndexError \/
            exists st', for_each xs (fun j => push_weight self i j) st = Ok st'
                        /\ Inv st').
  { induction xs as [|x xs IH]; intros st Hxs Hst.
    - right. exists st. split; [reflexivity | exact Hst].
    - cbn [for_each].
      destruct (push_weight_cases i x st Hst) as [Hr|(st1 & H1 & Hinv1)];
        [apply Hxs; left | exact Hi | left; now rewrite Hr |].
      rewrite H1. cbn [bind]. apply IH; [|exact Hinv1].
      intros y Hy. apply Hxs. now right. }
  apply Hgen; [|exact HInv].
  intros x Hx. apply elem_of_seq in Hx. lia.
Qed.

Lemma push_weights_in_bounds :
  Inv (digital_pots self) ->
  stays_in_bounds (inputs_per_neuron self) (neuron_count self) ->
  exists pots', push_weights self = Ok pots' /\ Inv pots'.
Proof.
  intros HInv Hb. unfold push_weights.
  apply (for_each_ok Inv); [|exact HInv].
  intros i st Hi Hst. apply (for_each_ok Inv); [|exact Hst].
  intros j st' Hj Hst'.
  apply elem_of_seq in Hi, Hj.
  apply push_weight_in_bounds; try assumption;
    unfold stays_in_bounds in Hb; lia.
Qed.

Lemma push_weights_out_of_bounds :
  Inv (digital_pots self) ->
  ~ stays_in_bounds (inputs_per_neuron self) (neuron_count self) ->
  push_weights self = Raise IndexError.
Proof.
  intros HInv Hb. unfold push_weights, stays_in_bounds in *.
  assert (H2i : (2 <= inputs_per_neuron self)%nat) by lia.
  assert (H2n : (2 <= neuron_count self)%nat) by lia.
  destruct (le_lt_dec (neuron_count self - 1) (inputs_per_neuron self))
    as [Hrow|Hrow].
  - (* the second index runs past the columns: first at i = neuron_count *)
    apply (for_each_raises Inv _ IndexError _ (neuron_count self)).
    + intros i st Hi Hst. apply elem_of_seq in Hi.
      apply inner_loop_cases; [exact Hst | lia].
    + apply elem_of_seq. lia.
    + intros st Hst.
      apply (for_each_raises Inv _ IndexError _ 0%nat).
      * intros j st' Hj Hst'. apply elem_of_seq in Hj.
        apply push_weight_cases; [exact Hst' | lia | lia].
      * apply elem_of_seq. lia.
      * intros st' Hst'. apply push_weight_out_of_bounds; [exact Hst'|].
        right. lia.
      * exact Hst.
    + exact HInv.
  - (* the first index runs past the rows: already at i = 0 *)
    apply (for_each_raises Inv _ IndexError _ 0%nat).
    + intros i st Hi Hst. apply elem_of_seq in Hi.
      apply inner_loop_cases; [exact Hst | lia].
    + apply elem_of_seq. lia.
    + intros st Hst.
      apply (for_each_raises Inv _ IndexError _ (inputs_per_neuron self)).
      * intros j st' Hj Hst'. apply elem_of_seq in Hj.
        apply push_weight_cases; [exact Hst' | lia | lia].
      * apply elem_of_seq. lia.
      * intros st' Hst'. apply push_weight_out_of_bounds; [exact Hst'|].
        left. lia.
      * exact Hst.
    + exact HInv.
Qed.

End UpdateBounds.

Lemma update_after_push (l : MLP_Circuit_Layer.t) :
  MLP_Circuit_Layer.update_synapse_weights l =
  let* pots := MLP_Circuit_Layer.push_weights l in
  Ok (MLP_Circuit_Layer.set_synapses_r_neg
        (Some (map (map DigitalPot.r_pos) pots))
        (MLP_Circuit_Layer.set_synapses_r_pos
           (Some (map (map DigitalPot.r_pos) pots))
           (MLP_Circuit_Layer.set_synapses_r_neg
              (Some (map (map DigitalPot.r_neg) pots))
              (MLP_Circuit_Layer.set_digital_pots pots l)))).
Proof. reflexivity. Qed.

(** What [update_synapse_weights] leaves in the two matrices. *)
Lemma update_matrices (l l' : MLP_Circuit_Layer.t) :
  MLP_Circuit_Layer.update_synapse_weights l = Ok l' ->
  MLP_Circuit_Layer.synapses_r_pos l' =
    Some (map (map DigitalPot.r_pos) (MLP_Circuit_Layer.digital_pots l')) /\
  MLP_Circuit_Layer.synapses_r_neg l' =
    Some (map (map DigitalPot.r_pos) (MLP_Circuit_Layer.digital_pots l')).
Proof.
  rewrite update_after_push.
  destruct (MLP_Circuit_Layer.push_weights l) as [pots|e]; [|discriminate].
  cbn [bind]. intros [= <-]. split; reflexivity.
Qed.

(** C10 (amended). On a layer whose pot array has [inputs_per_neuron]
    rows of [neuron_count] pots, [update_synapse_weights] uses the
    neuron index as row and the input index as column.  It raises
    [IndexError] exactly when both loops run and an index leaves the
    array, that is when [inputs_per_neuron >= 2], [neuron_count >= 2]
    and [neuron_count - 1 > inputs_per_neuron] or
    [inputs_per_neuron - 1 > neuron_count]; otherwise it completes.  In
    particular it raises whenever [inputs_per_neuron >= 2] and
    [neuron_count - 1 > inputs_per_neuron]. *)
Theorem update_bounds (l : MLP_Circuit_Layer.t) :
  layer_ok l ->
  (stays_in_bounds (MLP_Circuit_Layer.inputs_per_neuron l)
     (MLP_Circuit_Layer.neuron_count l) ->
   exists l', MLP_Circuit_Layer.update_synapse_weights l = Ok l') /\
  (~ stays_in_bounds (MLP_Circuit_Layer.inputs_per_neuron l)
       (MLP_Circuit_Layer.neuron_count l) ->
   MLP_Circuit_Layer.update_synapse_weights l = Raise IndexError) /\
  ((2 <= MLP_Circuit_Layer.inputs_per_neuron l)%nat ->
   (MLP_Circuit_Layer.inputs_per_neuron l
    < MLP_Circuit_Layer.neuron_count l - 1)%nat ->
   MLP_Circuit_Layer.update_synapse_weights l = Raise IndexError).
Proof.
  intros [Hpots Hw].
  assert (Hout : ~ stays_in_bounds (MLP_Circuit_Layer.inputs_per_neuron l)
                     (MLP_Circuit_Layer.neuron_count l) ->
                 MLP_Circuit_Layer.update_synapse_weights l = Raise IndexError).
  { intros Hb. rewrite update_after_push.
    now rewrite (push_weights_out_of_bounds l Hw Hpots Hb). }
  split; [|split].
  - intros Hb. rewrite update_after_push.
    destruct (push_weights_in_bounds l Hw Hpots Hb) as (pots & -> & _).
    cbn [bind]. eexists. reflexivity.
  - exact Hout.
  - intros H2 Hlt. apply Hout. unfold stays_in_bounds. lia.
Qed.

Lemma layer_2x4_unsynced_ok : layer_ok layer_2x4_unsynced.
Proof.
  assert (Hp : well_formed pot_5k) by (split; discriminate).
  split; [split|]; [split| |split]; try reflexivity.
  - repeat constructor.
  - repeat (constructor; [repeat (constructor; [exact Hp|]); constructor|]).
    constructor.
  - repeat constructor.
Defined.

Lemma update_bounds_witness :
  MLP_Circuit_Layer.update_synapse_weights layer_2x4_unsynced = Raise IndexError.
Proof.
  apply (proj2 (proj2 (update_bounds layer_2x4_unsynced layer_2x4_unsynced_ok))).
  - cbn. lia.
  - cbn. lia.
Defined.

(** C10 (as stated) fails: with one input per neuron and three neurons,
    [neuron_count - 1 > inputs_per_neuron], yet the outer loop is empty
    and no pot is touched: construction and a further update complete. *)
Lemma one_input_layer_counterexample :
  exists l st l',
    MLP_Circuit_Layer.new net_1x3 None 0 5000 (factory_5k, rng_mid) = Ok (l, st) /\
    (MLP_Circuit_Layer.neuron_count l - 1
     > MLP_Circuit_Layer.inputs_per_neuron l)%nat /\
    length (MLP_Circuit_Layer.digital_pots l) = MLP_Circuit_Layer.inputs_per_neuron l /\
    MLP_Circuit_Layer.update_synapse_weights l = Ok l'.
Proof.
  let r := eval vm_compute in
             (MLP_Circuit_Layer.new net_1x3 None 0 5000 (factory_5k, rng_mid)) in
  match r with
  | Ok (?l, ?st) =>
      let r' := eval vm_compute in (MLP_Circuit_Layer.update_synapse_weights l) in
      match r' with
      | Ok ?l' => exists l, st, l'
      end
  end.
  split; [vm_compute; reflexivity|].
  split; [vm_compute; lia|].
  split; vm_compute; reflexivity.
Qed.

(** The constructor on [net_2x4] stops with the same exception. *)
Example new_2x4_raises :
  MLP_Circuit_Layer.new net_2x4 None 0 5000 (factory_5k, rng_mid)
  = Raise IndexError.
Proof. vm_compute. reflexivity. Qed.

(** C2 at a failing input: on the 3 x 3 layer the pot at row 0, column 1
    of the array (input 0, neuron 1) has been given the weight
    [synaptic_weights[0][1] = 1/2], not [synaptic_weights[1][0] = -1/2]:
    its negative branch holds 3750 ohm where the weight of that synapse
    would give 1250 ohm. *)
Theorem update_writes_transposed :
  exists l st row0 p01 fresh claimed,
    MLP_Circuit_Layer.new net_3x3 None 0 5000 (factory_5k, rng_mid) = Ok (l, st) /\
    MLP_Circuit_Layer.digital_pots l !! 0%nat = Some row0 /\
    row0 !! 1%nat = Some p01 /\
    DigitalPot.new 5000 128 1 = Ok fresh /\
    DigitalPot.set_weight fresh (1 # 2) = Ok p01 /\
    DigitalPot.r_neg p01 == 3750 /\
    DigitalPot.set_weight fresh (- (1 # 2)) = Ok claimed /\
    DigitalPot.r_neg claimed == 1250 /\
    ~ DigitalPot.r_neg p01 == DigitalPot.r_neg claimed.
Proof.
  let r := eval vm_compute in
             (MLP_Circuit_Layer.new net_3x3 None 0 5000 (factory_5k, rng_mid)) in
  match r with
  | Ok (?l, ?st) =>
      let row := eval vm_compute in (MLP_Circuit_Layer.digital_pots l !! 0%nat) in
      match row with
      | Some ?row0 =>
          let p := eval vm_compute in (row0 !! 1%nat) in
          match p with
          | Some ?p01 =>
              let f := eval vm_compute in (DigitalPot.new 5000 128 1) in
              match f with
              | Ok ?fresh =>
                  let q := eval vm_compute in
                             (DigitalPot.set_weight fresh (- (1 # 2))) in
                  match q with
                  | Ok ?claimed => exists l, st, row0, p01, fresh, claimed
                  end
              end
          end
      end
  end.
  repeat (split; [vm_compute; reflexivity|]).
  vm_compute. discriminate.
Qed.

(** C3 at a failing input: on the 2 x 2 layer the pot at [0][0] has
    3750 ohm on its negative branch and 1250 ohm on its positive one,
    and both matrices hold 1250 at [0][0]: [synapses_r_neg] is the
    [r_pos] matrix.  A further update leaves the same. *)
Theorem r_neg_matrix_overwritten :
  exists l st row0 p00 m mrow l',
    MLP_Circuit_Layer.new net_2x2 None 0 5000 (factory_5k, rng_mid) = Ok (l, st) /\
    MLP_Circuit_Layer.digital_pots l !! 0%nat = Some row0 /\
    row0 !! 0%nat = Some p00 /\
    DigitalPot.r_neg p00 == 3750 /\
    DigitalPot.r_pos p00 == 1250 /\
    MLP_Circuit_Layer.synapses_r_pos l = Some m /\
    MLP_Circuit_Layer.synapses_r_neg l = Some m /\
    m !! 0%nat = Some mrow /\
    mrow !! 0%nat = Some (DigitalPot.r_pos p00) /\
    ~ DigitalPot.r_pos p00 == DigitalPot.r_neg p00 /\
    MLP_Circuit_Layer.update_synapse_weights l = Ok l' /\
    MLP_Circuit_Layer.synapses_r_neg l' = Some m.
Proof.
  let r := eval vm_compute in
             (MLP_Circuit_Layer.new net_2x2 None 0 5000 (factory_5k, rng_mid)) in
  match r with
  | Ok (?l, ?st) =>
      let row := eval vm_compute in (MLP_Circuit_Layer.digital_pots l !! 0%nat) in
      match row with
      | Some ?row0 =>
          let p := eval vm_compute in (row0 !! 0%nat) in
          match p with
          | Some ?p00 =>
              let mm := eval vm_compute in (MLP_Circuit_Layer.synapses_r_pos l) in
              match mm with
              | Some ?m =>
                  let mr := eval vm_compute in (m !! 0%nat) in
                  match mr with
                  | Some ?mrow =>
                      let u := eval vm_compute in
                                 (MLP_Circuit_Layer.update_synapse_weights l) in
                      match u with
                      | Ok ?l' => exists l, st, row0, p00, m, mrow, l'
                      end
                  end
              end
          end
      end
  end.
  repeat (split; [vm_compute; first [reflexivity | discriminate]|]).
  vm_compute. reflexivity.
Qed.

(** ** MLP_Circuit: parsing *)

Lemma float_raises (s : string) (e : PyExc) : float s = Raise e -> e = ValueError.
Proof.
  unfold float.
  destruct (sign s) as [neg s1].
  destruct (digits 0 0 s1) as [[ip n1] s2].
  destruct (match s2 with
            | String "." r => digits 0 0 r
            | _ => (0%Z, 0%nat, s2)
            end) as [[fp n2] s3].
  destruct (n1 + n2 =? 0)%nat; [congruence|].
  destruct s3 as [|c r]; [discriminate|].
  destruct (Ascii.eqb c "e" || Ascii.eqb c "E"); [|congruence].
  destruct (sign r) as [eneg r1].
  destruct (digits 0 0 r1) as [[ev n3] r2].
  destruct n3; [congruence|].
  destruct r2; [discriminate | congruence].
Qed.

Lemma layer_voltages_cons (node : string) (nodes : list string) (log : string) :
  MLP_Circuit.layer_voltages (node :: nodes) log =
  match Re.search (output_pattern node) log with
  | None => Ok None
  | Some caps =>
      let* v := float (Re.group caps 2) in
      let* vs := MLP_Circuit.layer_voltages nodes log in
      Ok (option_map (cons v) vs)
  end.
Proof. reflexivity. Qed.

Lemma layer_voltages_measured (node : string) (nodes : list string)
    (log : string) (v : Q) :
  measured log node = Some v ->
  MLP_Circuit.layer_voltages (node :: nodes) log =
  let* vs := MLP_Circuit.layer_voltages nodes log in
  Ok (option_map (cons v) vs).
Proof.
  unfold measured. rewrite layer_voltages_cons.
  destruct (Re.search (output_pattern node) log) as [caps|]; [|discriminate].
  destruct (float (Re.group caps 2)) as [v'|e]; [|discriminate].
  now intros [= ->].
Qed.

(** Parsing a concatenation of node lists. *)
Lemma layer_voltages_app (xs ys : list string) (log : string) :
  status (MLP_Circuit.layer_voltages (xs ++ ys) log) =
  match status (MLP_Circuit.layer_voltages xs log) with
  | Parsed => status (MLP_Circuit.layer_voltages ys log)
  | other => other
  end.
Proof.
  induction xs as [|x xs IH]; [reflexivity|].
  cbn [app]. rewrite !layer_voltages_cons.
  destruct (Re.search (output_pattern x) log) as [caps|]; [|reflexivity].
  destruct (float (Re.group caps 2)) as [v|e]; [|reflexivity].
  cbn [bind].
  destruct (MLP_Circuit.layer_voltages (xs ++ ys) log) as [[vs|]|e];
    destruct (MLP_Circuit.layer_voltages xs log) as [[vs'|]|e'];
    cbn in *; try congruence;
    destruct (MLP_Circuit.layer_voltages ys log) as [[vs''|]|e''];
    cbn in *; congruence.
Qed.

(** The loop over the layers ends as one pass over all their nodes. *)
Lemma layers_outputs_status (c : MLP_Circuit.t)
    (layers : list MLP_Circuit_Layer.t) (log : string) :
  status (MLP_Circuit.layers_outputs c layers log) =
  status (MLP_Circuit.layer_voltages
            (concat (map MLP_Circuit_Layer.output_nodes layers)) log).
Proof.
  induction layers as [|l layers IH]; [reflexivity|].
  cbn [map concat MLP_Circuit.layers_outputs].
  rewrite layer_voltages_app.
  destruct (MLP_Circuit.layer_voltages (MLP_Circuit_Layer.output_nodes l) log)
    as [[vs|]|e]; cbn [bind status]; try reflexivity.
  rewrite <- IH.
  destruct (MLP_Circuit.layers_outputs c layers log) as [[r|]|e]; reflexivity.
Qed.

Lemma get_outputs_status (c : MLP_Circuit.t) (log : string) :
  MLP_Circuit.get_outputs c (Some log) =
  match MLP_Circuit.layers_outputs c (MLP_Circuit.hardware_layers c) log with
  | Ok (Some outputs) =>
      if MLP_Circuit.homogeneous outputs then Ok (true, Some outputs)
      else Raise ValueError
  | Ok None => Ok (false, None)
  | Raise e => Raise e
  end.
Proof.
  unfold MLP_Circuit.get_outputs, MLP_Circuit.asarray.
  destruct (MLP_Circuit.layers_outputs c (MLP_Circuit.hardware_layers c) log)
    as [[r|]|e]; cbn [bind]; try reflexivity.
  destruct (MLP_Circuit.homogeneous r); reflexivity.
Qed.

Lemma cleanly_missing_status (nodes : list string) (log : string) :
  cleanly_missing nodes log ->
  status (MLP_Circuit.layer_voltages nodes log) = Missed.
Proof.
  intros (pre & node & post & -> & Hpre & Hmiss).
  induction Hpre as [|n pre [v Hv] _ IH].
  - cbn [app]. rewrite layer_voltages_cons. unfold missing in Hmiss.
    now rewrite Hmiss.
  - cbn [app]. rewrite (layer_voltages_measured _ _ _ _ Hv).
    destruct (MLP_Circuit.layer_voltages (pre ++ node :: post) log)
      as [[vs|]|e]; cbn in *; congruence.
Qed.

Lemma missing_status (nodes : list string) (log node : string) :
  node ∈ nodes -> missing log node ->
  status (MLP_Circuit.layer_voltages nodes log) = Missed \/
  status (MLP_Circuit.layer_voltages nodes log) = Failed ValueError.
Proof.
  intros Hin Hmiss. induction nodes as [|n nodes IH]; [inversion Hin|].
  rewrite layer_voltages_cons.
  destruct (Re.search (output_pattern n) log) as [caps|] eqn:Hs;
    [|left; reflexivity].
  destruct (float (Re.group caps 2)) as [v|e] eqn:Hf.
  - apply elem_of_cons in Hin as [->|Hin];
      [unfold missing in Hmiss; congruence|].
    cbn [bind].
    destruct (IH Hin) as [H|H];
      destruct (MLP_Circuit.layer_voltages nodes log) as [[vs|]|e'];
      cbn in *; try discriminate; [left|right]; congruence.
  - right. apply float_raises in Hf. subst e. reflexivity.
Qed.

Lemma get_outputs_cleanly_missing (c : MLP_Circuit.t) (log : string) :
  cleanly_missing (expected_nodes c) log ->
  MLP_Circuit.get_outputs c (Some log) = Ok (false, None).
Proof.
  intros H. apply cleanly_missing_status in H.
  unfold expected_nodes in H. rewrite <- (layers_outputs_status c) in H.
  rewrite get_outputs_status.
  destruct (MLP_Circuit.layers_outputs c (MLP_Circuit.hardware_layers c) log)
    as [[r|]|e]; cbn in H; congruence.
Qed.

Lemma get_outputs_missing (c : MLP_Circuit.t) (log node : string) :
  node ∈ expected_nodes c -> missing log node ->
  MLP_Circuit.get_outputs c (Some log) = Ok (false, None) \/
  MLP_Circuit.get_outputs c (Some log) = Raise ValueError.
Proof.
  intros Hin Hmiss.
  pose proof (missing_status _ _ _ Hin Hmiss) as H.
  unfold expected_nodes in H. rewrite <- (layers_outputs_status c) in H.
  rewrite get_outputs_status.
  destruct (MLP_Circuit.layers_outputs c (MLP_Circuit.hardware_layers c) log)
    as [[r|]|e]; cbn in H; destruct H as [H|H]; try discriminate;
    [left | right]; congruence.
Qed.

(** ** MLP_Circuit: the retry loop *)

Section Retry.

Variable Netlist : Type.
Variable create_netlist : MLP_Circuit.t -> Res Netlist.
Variable ltspice : nat -> Netlist -> Res (option string).

(** While every run leaves a log that does not parse, the loop uses up
    its attempts, one run each. *)
Lemma attempt_loop_all_fail (c : MLP_Circuit.t) (net : Netlist) (n : nat) :
  forall (w : MLP_Circuit.World) (outs : option (list (list Q))),
    (forall k, (k < n)%nat ->
       exists log,
         ltspice (MLP_Circuit.invocations w + k)%nat net = Ok (Some log) /\
         MLP_Circuit.get_outputs c (Some log) = Ok (false, None)) ->
    exists w',
      MLP_Circuit.attempt_loop Netlist ltspice c net n false outs w =
        Ok (match n with O => outs | S _ => None end, w') /\
      MLP_Circuit.invocations w' = (MLP_Circuit.invocations w + n)%nat.
Proof.
  induction n as [|n IH]; intros w outs Hall.
  - exists w. split; [reflexivity | lia].
  - destruct (Hall 0%nat ltac:(lia)) as (log & Hrun & Hparse).
    rewrite Nat.add_0_r in Hrun.
    cbn [MLP_Circuit.attempt_loop]. unfold MLP_Circuit.run_simulation.
    rewrite Hrun. cbn [bind MLP_Circuit.result_file].
    rewrite Hparse. cbn [bind fst snd].
    destruct (IH {| MLP_Circuit.invocations := S (MLP_Circuit.invocations w);
                    MLP_Circuit.result_file := Some log |} None)
      as (w' & Hloop & Hinv).
    { intros k Hk. cbn [MLP_Circuit.invocations].
      destruct (Hall (S k) ltac:(lia)) as (log' & Hrun' & Hparse').
      exists log'. split; [|exact Hparse'].
      now replace (S (MLP_Circuit.invocations w) + k)%nat
        with (MLP_Circuit.invocations w + S k)%nat by lia. }
    exists w'. split.
    + rewrite Hloop. now destruct n.
    + rewrite Hinv. cbn [MLP_Circuit.invocations]. lia.
Qed.

End Retry.

(** C7 (amended). Once inputs and weights are synchronised and the
    netlist is written, if each of the five runs leaves a log in which
    some expected node is absent and the values read before it are
    accepted by [float], the call makes exactly five runs and returns
    [None], raising nothing.  A log that lacks any expected node never
    gives a result: the parse returns [(False, None)], or raises
    [ValueError] when a value read earlier is malformed. *)
Theorem think_gives_up (Netlist : Type)
    (create_netlist : MLP_Circuit.t -> Res Netlist)
    (ltspice : nat -> Netlist -> Res (option string))
    (c : MLP_Circuit.t) (inputs : list Q) (w : MLP_Circuit.World)
    (layers : list MLP_Circuit_Layer.t) (net : Netlist) :
  MLP_Circuit.update_layers
    (MLP_Circuit.hardware_layers (MLP_Circuit.update_input_sources c inputs))
    = Ok layers ->
  create_netlist (synced c inputs layers) = Ok net ->
  (forall k, (k < 5)%nat ->
     exists log,
       ltspice (MLP_Circuit.invocations w + k)%nat net = Ok (Some log) /\
       cleanly_missing (expected_nodes (synced c inputs layers)) log) ->
  (exists w',
     MLP_Circuit.think Netlist create_netlist ltspice c inputs w =
       Ok (None, (synced c inputs layers, w')) /\
     MLP_Circuit.invocations w' = (MLP_Circuit.invocations w + 5)%nat)
  /\
  (forall log node,
     node ∈ expected_nodes (synced c inputs layers) ->
     missing log node ->
     MLP_Circuit.get_outputs (synced c inputs layers) (Some log) = Ok (false, None) \/
     MLP_Circuit.get_outputs (synced c inputs layers) (Some log) = Raise ValueError).
Proof.
  intros Hupd Hnet Hruns. split.
  - destruct (attempt_loop_all_fail Netlist ltspice (synced c inputs layers)
                net 5 w None) as (w' & Hloop & Hinv).
    { intros k Hk. destruct (Hruns k Hk) as (log & Hrun & Hmiss).
      exists log. split; [exact Hrun|].
      now apply get_outputs_cleanly_missing. }
    exists w'. split; [|exact Hinv].
    unfold MLP_Circuit.think. rewrite Hupd. cbn [bind].
    fold (synced c inputs layers). rewrite Hnet. cbn [bind].
    rewrite Hloop. reflexivity.
  - intros log node. apply get_outputs_missing.
Qed.

Lemma think_gives_up_witness :
  exists c st c' w',
    MLP_Circuit.new [net_2x2] rng_mid = Ok (c, st) /\
    MLP_Circuit.think unit (fun _ => Ok tt) (fun _ _ => Ok (Some log_empty))
      c [1; - (1)] {| MLP_Circuit.invocations := 0;
                      MLP_Circuit.result_file := None |}
    = Ok (None, (c', w')) /\
    MLP_Circuit.invocations w' = 5%nat.
Proof.
  let r := eval vm_compute in (MLP_Circuit.new [net_2x2] rng_mid) in
  match r with
  | Ok (?c, ?st) =>
      let u := eval vm_compute in
                 (MLP_Circuit.update_layers
                    (MLP_Circuit.hardware_layers
                       (MLP_Circuit.update_input_sources c [1; - (1)]))) in
      match u with
      | Ok ?layers =>
          assert (Hnew : MLP_Circuit.new [net_2x2] rng_mid = Ok (c, st))
            by (vm_compute; reflexivity);
          assert (Hupd : MLP_Circuit.update_layers
                           (MLP_Circuit.hardware_layers
                              (MLP_Circuit.update_input_sources c [1; - (1)]))
                         = Ok layers)
            by (vm_compute; reflexivity);
          assert (Hmiss : cleanly_missing
                            (expected_nodes (synced c [1; - (1)] layers))
                            log_empty)
            by (exists [], "Neuron_0_0_out"%string, ["Neuron_0_1_out"%string];
                split; [vm_compute; reflexivity|];
                split; [constructor | vm_compute; reflexivity]);
          assert (Hruns : forall k, (k < 5)%nat ->
                    exists log,
                      (fun (_ : nat) (_ : unit) => Ok (Some log_empty))
                        (MLP_Circuit.invocations
                           {| MLP_Circuit.invocations := 0;
                              MLP_Circuit.result_file := None |} + k)%nat tt
                      = Ok (Some log) /\
                      cleanly_missing
                        (expected_nodes (synced c [1; - (1)] layers)) log)
            by (intros k _; exists log_empty; split; [reflexivity | exact Hmiss]);
          destruct (proj1 (think_gives_up unit (fun _ => Ok tt)
                             (fun _ _ => Ok (Some log_empty)) c [1; - (1)]
                             {| MLP_Circuit.invocations := 0;
                                MLP_Circuit.result_file := None |}
                             layers tt Hupd eq_refl Hruns))
            as (w' & Hthink & Hinv);
          exists c, st, (synced c [1; - (1)] layers), w'
      end
  end.
  split; [exact Hnew|]. split; [exact Hthink | exact Hinv].
Defined.

(** C7 (as stated) fails: the second node is absent from [log_malformed]
    on every run, yet the call ends in [ValueError]: the first node is
    read as [1e], which [float] rejects. *)
Lemma think_value_error_counterexample :
  exists c st,
    MLP_Circuit.new [net_2x2] rng_mid = Ok (c, st) /\
    "Neuron_0_1_out"%string ∈ expected_nodes c /\
    missing log_malformed "Neuron_0_1_out" /\
    measured log_malformed "Neuron_0_0_out" = None /\
    Re.search (output_pattern "Neuron_0_0_out") log_malformed
      = Some ["neuron_0_0_out))="%string; "1e"%string; " "%string] /\
    float "1e" = Raise ValueError /\
    MLP_Circuit.think unit (fun _ => Ok tt) (fun _ _ => Ok (Some log_malformed))
      c [1; - (1)] {| MLP_Circuit.invocations := 0;
                      MLP_Circuit.result_file := None |}
    = Raise ValueError.
Proof.
  let r := eval vm_compute in (MLP_Circuit.new [net_2x2] rng_mid) in
  match r with
  | Ok (?c, ?st) => exists c, st
  end.
  split; [vm_compute; reflexivity|].
  split; [vm_compute; right; left|].
  repeat (split; [vm_compute; reflexivity|]).
  vm_compute. reflexivity.
Qed.

(** ** MLP_Circuit: normalisation *)

Lemma normalize_values (m v : Q) :
  ~ m == 0 ->
  (v == m -> (v + m) / (2 * m) == 1) /\
  (v == - m -> (v + m) / (2 * m) == 0) /\
  (v == 0 -> (v + m) / (2 * m) == 1 # 2).
Proof.
  intros Hm. repeat split; intros ->; field; exact Hm.
Qed.

Lemma layer_voltages_parsed (nodes : list string) (log : string) :
  forall vs,
    MLP_Circuit.layer_voltages nodes log = Ok (Some vs) ->
    Forall2 (fun node v => measured log node = Some v) nodes vs.
Proof.
  induction nodes as [|n nodes IH]; intros vs.
  - intros [= <-]. constructor.
  - rewrite layer_voltages_cons.
    destruct (Re.search (output_pattern n) log) as [caps|] eqn:Hs;
      [|discriminate].
    destruct (float (Re.group caps 2)) as [v|e] eqn:Hf; [|discriminate].
    cbn [bind].
    destruct (MLP_Circuit.layer_voltages nodes log) as [[vs'|]|e];
      cbn; try discriminate.
    intros [= <-]. constructor; [|now apply IH].
    unfold measured. now rewrite Hs, Hf.
Qed.

Lemma layers_outputs_parsed (c : MLP_Circuit.t)
    (layers : list MLP_Circuit_Layer.t) (log : string) :
  forall outs,
    MLP_Circuit.layers_outputs c layers log = Ok (Some outs) ->
    Forall2
      (fun layer row =>
         Forall2
           (fun node y =>
              exists v, measured log node = Some v /\
                        y = MLP_Circuit.normalize c v)
           (MLP_Circuit_Layer.output_nodes layer) row)
      layers outs.
Proof.
  induction layers as [|l layers IH]; intros outs.
  - intros [= <-]. constructor.
  - cbn [MLP_Circuit.layers_outputs].
    destruct (MLP_Circuit.layer_voltages (MLP_Circuit_Layer.output_nodes l) log)
      as [[vs|]|e] eqn:Hl; cbn [bind]; try discriminate.
    destruct (MLP_Circuit.layers_outputs c layers log) as [[rest|]|e];
      cbn; try discriminate.
    intros [= <-]. constructor; [|now apply IH].
    apply layer_voltages_parsed in Hl.
    induction Hl as [|n v ns vs Hn _ IHl]; constructor; [|exact IHl].
    exists v. split; [exact Hn | reflexivity].
Qed.

(** C9. When the parse succeeds, the result has one row per layer and
    one entry per output node, each the measured voltage [v] of its node
    mapped to [(v + v_in_max) / (2 * v_in_max)]; so a voltage of
    [v_in_max] gives 1, [-v_in_max] gives 0 and 0 gives 1/2. *)
Theorem outputs_normalized (c : MLP_Circuit.t) (log : string)
    (outs : list (list Q)) :
  ~ MLP_Circuit.v_in_max c == 0 ->
  MLP_Circuit.get_outputs c (Some log) = Ok (true, Some outs) ->
  Forall2
    (fun layer row =>
       Forall2
         (fun node y =>
            exists v,
              measured log node = Some v /\
              y = (v + MLP_Circuit.v_in_max c) / (2 * MLP_Circuit.v_in_max c) /\
              (v == MLP_Circuit.v_in_max c -> y == 1) /\
              (v == - MLP_Circuit.v_in_max c -> y == 0) /\
              (v == 0 -> y == 1 # 2))
         (MLP_Circuit_Layer.output_nodes layer) row)
    (MLP_Circuit.hardware_layers c) outs.
Proof.
  intros Hm. rewrite get_outputs_status.
  destruct (MLP_Circuit.layers_outputs c (MLP_Circuit.hardware_layers c) log)
    as [[r|]|e] eqn:Hl; try discriminate.
  destruct (MLP_Circuit.homogeneous r); [|discriminate].
  intros [= <-]. apply layers_outputs_parsed in Hl.
  eapply Forall2_impl; [exact Hl|].
  intros layer row Hrow. eapply Forall2_impl; [exact Hrow|].
  intros node y (v & Hv & ->). exists v.
  split; [exact Hv|]. split; [reflexivity|].
  unfold MLP_Circuit.normalize. apply normalize_values, Hm.
Qed.

Lemma outputs_normalized_witness :
  exists c st y0 y1,
    MLP_Circuit.new [net_2x2] rng_mid = Ok (c, st) /\
    MLP_Circuit.get_outputs c (Some log_rails) = Ok (true, Some [[y0; y1]]) /\
    (exists v0, measured log_rails "Neuron_0_0_out" = Some v0 /\
                v0 == MLP_Circuit.v_in_max c) /\
    (exists v1, measured log_rails "Neuron_0_1_out" = Some v1 /\
                v1 == - MLP_Circuit.v_in_max c) /\
    y0 == 1 /\ y1 == 0 /\
    Forall2
      (fun layer row =>
         Forall2
           (fun node y =>
              exists v,
                measured log_rails node = Some v /\
                y = (v + MLP_Circuit.v_in_max c) / (2 * MLP_Circuit.v_in_max c) /\
                (v == MLP_Circuit.v_in_max c -> y == 1) /\
                (v == - MLP_Circuit.v_in_max c -> y == 0) /\
                (v == 0 -> y == 1 # 2))
           (MLP_Circuit_Layer.output_nodes layer) row)
      (MLP_Circuit.hardware_layers c) [[y0; y1]].
Proof.
  let r := eval vm_compute in (MLP_Circuit.new [net_2x2] rng_mid) in
  match r with
  | Ok (?c, ?st) =>
      let o := eval vm_compute in (MLP_Circuit.get_outputs c (Some log_rails)) in
      match o with
      | Ok (true, Some [[?y0; ?y1]]) =>
          assert (Hget : MLP_Circuit.get_outputs c (Some log_rails)
                         = Ok (true, Some [[y0; y1]]))
            by (vm_compute; reflexivity);
          assert (Hm : ~ MLP_Circuit.v_in_max c == 0)
            by (vm_compute; discriminate);
          pose proof (outputs_normalized c log_rails [[y0; y1]] Hm Hget) as Hall;
          exists c, st, y0, y1
      end
  end.
  split; [vm_compute; reflexivity|].
  split; [exact Hget|].
  split; [exists (15 # 10); split; vm_compute; reflexivity|].
  split; [exists (- (15 # 10)); split; vm_compute; reflexivity|].
  split; [vm_compute; reflexivity|].
  split; [vm_compute; reflexivity|].
  exact Hall.
Defined.

(** * Further properties *)

(** ** Input mapping *)

Lemma map_input_bounds (x lo hi : Q) :
  lo <= hi -> - (1) <= x <= 1 ->
  lo <= x * (hi - lo) / 2 + ((hi - lo) / 2 + lo) <= hi.
Proof.
  intros Hr [Hx1 Hx2].
  assert (E : x * (hi - lo) / 2 + ((hi - lo) / 2 + lo)
              == lo + (x + 1) * ((hi - lo) * (1 # 2))) by field.
  rewrite E.
  assert (H0 : 0 <= (hi - lo) * (1 # 2)) by lra.
  assert (H1 : 0 <= (x + 1) * ((hi - lo) * (1 # 2)))
    by (apply Qmult_le_0_compat; lra).
  assert (H2 : (x + 1) * ((hi - lo) * (1 # 2)) <= 2 * ((hi - lo) * (1 # 2)))
    by (apply Qmult_le_compat_r; lra).
  split; lra.
Qed.

(** X1. [update_input_sources] stores one voltage per input, the affine
    image [x * (v_in_max - v_in_min) / 2 + centre] of the input, where
    [centre] is [(v_in_max - v_in_min) / 2 + v_in_min], and leaves the
    layers of the circuit alone; when [v_in_min <= v_in_max], an input
    of [-1 .. 1] lands in [v_in_min .. v_in_max], with [-1] on
    [v_in_min], [1] on [v_in_max] and [0] half-way. *)
Theorem input_sources_in_range (c : MLP_Circuit.t) (inputs : list Q) :
  MLP_Circuit.v_in_min c <= MLP_Circuit.v_in_max c ->
  length (MLP_Circuit.input_sources (MLP_Circuit.update_input_sources c inputs))
    = length inputs /\
  MLP_Circuit.hardware_layers (MLP_Circuit.update_input_sources c inputs)
    = MLP_Circuit.hardware_layers c /\
  forall (i : nat) (x : Q),
    inputs !! i = Some x ->
    exists v,
      MLP_Circuit.input_sources (MLP_Circuit.update_input_sources c inputs) !! i
        = Some v /\
      v = x * (MLP_Circuit.v_in_max c - MLP_Circuit.v_in_min c) / 2
          + ((MLP_Circuit.v_in_max c - MLP_Circuit.v_in_min c) / 2
             + MLP_Circuit.v_in_min c) /\
      (- (1) <= x <= 1 -> MLP_Circuit.v_in_min c <= v <= MLP_Circuit.v_in_max c) /\
      (x == - (1) -> v == MLP_Circuit.v_in_min c) /\
      (x == 1 -> v == MLP_Circuit.v_in_max c) /\
      (x == 0 -> v == (MLP_Circuit.v_in_min c + MLP_Circuit.v_in_max c) / 2).
Proof.
  intros Hr. unfold MLP_Circuit.update_input_sources.
  cbn [MLP_Circuit.set_input_sources MLP_Circuit.input_sources
       MLP_Circuit.hardware_layers].
  split; [apply length_map|]. split; [reflexivity|].
  intros i x Hi. eexists. split.
  - rewrite list_lookup_fmap, Hi. reflexivity.
  - split; [reflexivity|].
    split; [now apply map_input_bounds|].
    repeat split; intros ->; field.
Qed.

Lemma input_sources_in_range_witness :
  exists v,
    MLP_Circuit.input_sources
      (MLP_Circuit.update_input_sources circuit_empty [1; - (1); 1 # 2])
      !! 2%nat = Some v /\
    v = (1 # 2) * (_v_in_max - _v_in_min) / 2
        + ((_v_in_max - _v_in_min) / 2 + _v_in_min) /\
    v == 3 # 4 /\
    _v_in_min <= v <= _v_in_max.
Proof.
  assert (Hr : MLP_Circuit.v_in_min circuit_empty
               <= MLP_Circuit.v_in_max circuit_empty) by discriminate.
  destruct (input_sources_in_range circuit_empty [1; - (1); 1 # 2] Hr)
    as (_ & _ & Hall).
  destruct (Hall 2%nat (1 # 2) eq_refl) as (v & Hv & Hf & Hin & _).
  exists v. split; [exact Hv|]. split; [exact Hf|].
  split; [rewrite Hf; reflexivity|].
  apply Hin. split; discriminate.
Defined.

(** ** DigitalPot: quantisation *)

Lemma tap_of_weight_range (w m : Q) (taps : Z) :
  0 < m -> - m <= w <= m -> (0 < taps)%Z ->
  0 <= Spec.tap_of_weight w m taps <= inject_Z taps.
Proof.
  intros Hm [Hlo Hhi] Ht. unfold Spec.tap_of_weight.
  assert (Hq1 : - (1) <= w / m)
    by (apply Qle_shift_div_l; [exact Hm | lra]).
  assert (Hq2 : w / m <= 1)
    by (apply Qle_shift_div_r; [exact Hm | lra]).
  assert (Hz : 0 <= inject_Z taps).
  { change 0 with (inject_Z 0). rewrite <- Zle_Qle. lia. }
  revert Hq1 Hq2. generalize (w / m). intros a Ha1 Ha2.
  assert (Hh1 : 0 <= (a + 1) / 2)
    by (apply Qle_shift_div_l; [reflexivity | lra]).
  assert (Hh2 : (a + 1) / 2 <= 1)
    by (apply Qle_shift_div_r; [reflexivity | lra]).
  revert Hh1 Hh2. generalize ((a + 1) / 2). intros h Hh1 Hh2.
  split.
  - now apply Qmult_le_0_compat.
  - rewrite <- (Qmult_1_l (inject_Z taps)) at 2.
    now apply Qmult_le_compat_r.
Qed.

(** The clamped, truncated tap is within one tap of the exact position. *)
Lemma wiper_near_position (x : Q) (taps : Z) :
  (2 <= taps)%Z -> 0 <= x <= inject_Z taps ->
  - (1) <= inject_Z (Z.min (taps - 1) (Z.max 1 (py_int x))) - x <= 1.
Proof.
  intros Ht [Hx0 Hx1].
  rewrite (py_int_nonneg x Hx0).
  pose proof (Qfloor_le x) as Hf1.
  pose proof (Qlt_floor x) as Hf2.
  assert (Hfl : (0 <= Qfloor x)%Z) by (apply (Qfloor_resp_le 0 x Hx0)).
  assert (Hfu : (Qfloor x <= taps)%Z).
  { rewrite <- (Qfloor_Z taps). now apply Qfloor_resp_le. }
  rewrite inject_Z_plus in Hf2. change (inject_Z 1) with 1 in Hf2.
  destruct (Z_lt_le_dec (Qfloor x) 1) as [Hlow|Hlow].
  - assert (E : Qfloor x = 0%Z) by lia.
    rewrite E in *. replace (Z.min (taps - 1) (Z.max 1 0)) with 1%Z by lia.
    change (inject_Z 0) with 0 in *. change (inject_Z 1) with 1. lra.
  - destruct (Z_lt_le_dec (Qfloor x) taps) as [Hup|Hup].
    + replace (Z.min (taps - 1) (Z.max 1 (Qfloor x))) with (Qfloor x) by lia.
      lra.
    + assert (E : Qfloor x = taps) by lia.
      replace (Z.min (taps - 1) (Z.max 1 (Qfloor x))) with (taps - 1)%Z by lia.
      rewrite E in *. unfold Z.sub. rewrite inject_Z_plus.
      change (inject_Z (- (1))) with (- (1)). lra.
Qed.

(** X2. For a weight inside [-max_weight .. max_weight], the negative
    branch that [set_weight] sets is within one tap's resistance,
    [total / tap_count], of the exact affine value
    [(w / max_weight + 1) / 2 * total]. *)
Theorem quantization_error (p : DigitalPot.t) (w : Q) :
  0 < DigitalPot.max_weight p ->
  (2 <= DigitalPot.tap_count p)%Z ->
  0 <= DigitalPot.r_total_ohms p ->
  - DigitalPot.max_weight p <= w <= DigitalPot.max_weight p ->
  exists p',
    DigitalPot.set_weight p w = Ok p' /\
    Qabs (DigitalPot.r_neg p'
          - (w / DigitalPot.max_weight p + 1) / 2 * DigitalPot.r_total_ohms p)
    <= DigitalPot.r_total_ohms p / inject_Z (DigitalPot.tap_count p).
Proof.
  intros Hm Ht Hr Hw.
  assert (Hnz : ~ DigitalPot.max_weight p == 0) by lra.
  pose proof (wiper_position_ok p Hnz w) as Hwp.
  assert (Htz : DigitalPot.tap_count p <> 0%Z) by lia.
  assert (Htp : (0 < DigitalPot.tap_count p)%Z) by lia.
  eexists. split; [apply (set_weight_ok p w _ Htz Hwp)|].
  cbn [DigitalPot.r_neg]. unfold Spec.r_neg.
  pose proof (tap_of_weight_range w _ _ Hm Hw Htp) as Hx.
  pose proof (wiper_near_position _ _ Ht Hx) as Hd.
  assert (Htq : 0 < inject_Z (DigitalPot.tap_count p)).
  { change 0 with (inject_Z 0). rewrite <- Zlt_Qlt. lia. }
  unfold Spec.tap_of_weight in *.
  revert Hd.
  generalize (Z.min (DigitalPot.tap_count p - 1)
                (Z.max 1
                   (py_int
                      ((w / DigitalPot.max_weight p + 1) / 2
                       * inject_Z (DigitalPot.tap_count p))))).
  generalize ((w / DigitalPot.max_weight p + 1) / 2).
  revert Htq. generalize (inject_Z (DigitalPot.tap_count p)).
  generalize (DigitalPot.r_total_ohms p) Hr.
  clear. intros R HR t Ht h z [Hd1 Hd2].
  assert (E : inject_Z z / t * R - h * R == (inject_Z z - h * t) * (R / t))
    by (field; lra).
  rewrite E.
  assert (Hrt : 0 <= R / t)
    by (apply Qle_shift_div_l; [exact Ht | lra]).
  revert Hd1 Hd2 Hrt. generalize (inject_Z z - h * t) (R / t).
  intros d s Hd1 Hd2 Hs.
  apply Qabs_Qle_condition. split.
  - assert (H : (- (1)) * s <= d * s) by (apply Qmult_le_compat_r; assumption).
    lra.
  - assert (H : d * s <= 1 * s) by (apply Qmult_le_compat_r; assumption).
    lra.
Qed.

Lemma quantization_error_witness :
  exists p',
    DigitalPot.set_weight pot_5k (1 # 3) = Ok p' /\
    Qabs (DigitalPot.r_neg p' - ((1 # 3) / 1 + 1) / 2 * 5000) <= 5000 / inject_Z 128.
Proof.
  assert (Hm : 0 < DigitalPot.max_weight pot_5k) by reflexivity.
  assert (Ht : (2 <= DigitalPot.tap_count pot_5k)%Z) by (simpl; lia).
  assert (Hr : 0 <= DigitalPot.r_total_ohms pot_5k) by (simpl; discriminate).
  assert (Hw : - DigitalPot.max_weight pot_5k <= 1 # 3
               <= DigitalPot.max_weight pot_5k) by (split; discriminate).
  exact (quantization_error pot_5k (1 # 3) Hm Ht Hr Hw).
Defined.

(** X3. A pot is created at mid-scale: the wiper of weight 0 is
    [tap_count / 2] (integer division), and with an even tap count both
    branches of a new pot hold half of the total resistance. *)
Theorem new_pot_mid_scale (r_total : Q) (taps : Z) (max_w : Q) :
  ~ max_w == 0 ->
  (2 <= taps)%Z ->
  exists p,
    DigitalPot.new r_total taps max_w = Ok p /\
    DigitalPot.wiper_position p 0 = Ok (taps / 2)%Z /\
    (Z.even taps = true ->
     DigitalPot.r_neg p == r_total / 2 /\ DigitalPot.r_pos p == r_total / 2).
Proof.
  intros Hm Ht.
  assert (Hx : Spec.tap_of_weight 0 max_w taps == inject_Z taps / inject_Z 2).
  { unfold Spec.tap_of_weight. change (inject_Z 2) with 2. field. exact Hm. }
  assert (Hint : py_int (Spec.tap_of_weight 0 max_w taps) = (taps / 2)%Z).
  { rewrite (py_int_comp _ _ Hx). rewrite py_int_nonneg.
    - symmetry. apply Zdiv_Qdiv.
    - apply Qle_shift_div_l; [reflexivity|]. rewrite Qmult_0_l.
      change 0 with (inject_Z 0). rewrite <- Zle_Qle. lia. }
  assert (Hdiv : (1 <= taps / 2 <= taps - 1)%Z).
  { pose proof (Z.div_mod taps 2 ltac:(lia)).
    pose proof (Z.mod_pos_bound taps 2 ltac:(lia)). lia. }
  set (p0 := {| DigitalPot.r_total_ohms := r_total; DigitalPot.tap_count := taps;
                DigitalPot.max_weight := max_w;
                DigitalPot.r_neg := 0; DigitalPot.r_pos := 0 |}).
  assert (Hw : DigitalPot.wiper_position p0 0 = Ok (taps / 2)%Z).
  { rewrite (wiper_position_ok p0 Hm). cbn [DigitalPot.tap_count
      DigitalPot.max_weight p0]. rewrite Hint. f_equal. lia. }
  assert (Htz : DigitalPot.tap_count p0 <> 0%Z) by (cbn; lia).
  eexists. split; [apply (set_weight_ok p0 0 _ Htz Hw)|].
  split; [exact Hw|].
  intros Heven. cbn [DigitalPot.r_neg DigitalPot.r_pos DigitalPot.tap_count
                     DigitalPot.r_total_ohms p0].
  apply Z.even_spec in Heven as [k Hk].
  assert (Hk2 : (taps / 2 = k)%Z).
  { subst taps. rewrite Z.mul_comm. apply Z.div_mul. lia. }
  rewrite Hk2. unfold Spec.r_pos, Spec.r_neg.
  assert (Hkq : ~ inject_Z k == 0) by (apply inject_Z_nonzero; lia).
  subst taps. rewrite inject_Z_mult. change (inject_Z 2) with 2.
  split; field; exact Hkq.
Qed.

Lemma new_pot_mid_scale_witness :
  exists p,
    DigitalPot.new 5000 128 1 = Ok p /\
    DigitalPot.wiper_position p 0 = Ok 64%Z /\
    DigitalPot.r_neg p == 2500 /\ DigitalPot.r_pos p == 2500.
Proof.
  assert (Hm : ~ 1 == 0) by discriminate.
  assert (Ht : (2 <= 128)%Z) by lia.
  destruct (new_pot_mid_scale 5000 128 1 Hm Ht) as (p & Hnew & Hw & Hhalf).
  destruct (Hhalf eq_refl) as [Hn Hp].
  exists p. split; [exact Hnew|]. split; [exact Hw|].
  split; [rewrite Hn | rewrite Hp]; reflexivity.
Defined.

(** ** DigitalPotFactory: edge configurations *)

(** X4. A factory whose tolerance is zero (or negative) cannot make a
    pot: at a counter of 1 the band handed to [randrange] is empty and
    [pot] raises [ValueError]. *)
Theorem empty_band_raises (f : DigitalPotFactory.t) (max_w : Q)
    (rng : Random.t) :
  DigitalPotFactory.pot_counter f = 1%Z ->
  0 <= DigitalPotFactory.r_total_ohms f ->
  DigitalPotFactory.tolerance f <= 0 ->
  DigitalPotFactory.pot f max_w rng = Raise ValueError.
Proof.
  intros Hc Hr Htol. unfold DigitalPotFactory.pot. rewrite Hc.
  change (1 =? 1)%Z with true. cbv iota.
  unfold Random.randrange.
  assert (Hle : (DigitalPotFactory.draw_high f <= DigitalPotFactory.draw_low f)%Z).
  { unfold DigitalPotFactory.draw_high, DigitalPotFactory.draw_low.
    apply py_int_mono.
    apply Qmult_le_compat_r; [lra | exact Hr]. }
  destruct (Z.ltb_spec (DigitalPotFactory.draw_low f)
              (DigitalPotFactory.draw_high f)) as [Hlt|_]; [lia|].
  reflexivity.
Qed.

Lemma empty_band_raises_witness :
  DigitalPotFactory.pot factory_exact 1 rng_mid = Raise ValueError.
Proof.
  apply empty_band_raises.
  - reflexivity.
  - discriminate.
  - discriminate.
Defined.

(** X5. With [pots_per_chip <= 1] (zero and negative values included)
    the counter never leaves 1: every pot draws its own resistance, the
    [i]-th pot the [i]-th value. *)
Theorem single_pot_chips (f : DigitalPotFactory.t) (max_w : Q)
    (rng : Random.t) (n : nat) :
  ~ max_w == 0 ->
  DigitalPotFactory.tap_count f <> 0%Z ->
  DigitalPotFactory.pot_counter f = 1%Z ->
  (DigitalPotFactory.pots_per_chip f <= 1)%Z ->
  (DigitalPotFactory.draw_low f < DigitalPotFactory.draw_high f)%Z ->
  exists ps f' rng',
    DigitalPotFactory.pots n f max_w rng = Ok (ps, (f', rng')) /\
    length ps = n /\
    DigitalPotFactory.pot_counter f' = 1%Z /\
    Random.used rng' = (Random.used rng + n)%nat /\
    forall (i : nat) (p : DigitalPot.t),
      ps !! i = Some p ->
      DigitalPot.r_total_ohms p = inject_Z (drawn f rng i).
Proof.
  intros Hm. revert f rng.
  induction n as [|n IH]; intros f rng Ht Hc Hk Hrange.
  - exists [], f, rng. cbn. repeat split; try lia; try assumption.
    intros i p Hi. discriminate.
  - destruct (pot_step max_w Hm f rng Ht Hrange)
      as (p0 & f1 & rng1 & Hpot & Hcfg & Hres & Hcnt & Hraw & Hdraw & _).
    destruct (Hdraw Hc) as [Hchip Hused].
    destruct (draw_bounds_same f f1 Hcfg) as [Hlo Hhi].
    pose proof Hcfg as (_ & Htap & _ & Hk1).
    assert (Hc1 : DigitalPotFactory.pot_counter f1 = 1%Z).
    { rewrite Hcnt.
      destruct (Z.ltb_spec (DigitalPotFactory.pot_counter f)
                  (DigitalPotFactory.pots_per_chip f)); [lia | reflexivity]. }
    destruct (IH f1 rng1) as (ps & f' & rng' & Hps & Hlen & Hc' & Hu' & Hall).
    { now rewrite Htap. }
    { exact Hc1. }
    { now rewrite Hk1. }
    { now rewrite Hlo, Hhi. }
    exists (p0 :: ps), f', rng'.
    cbn [DigitalPotFactory.pots]. rewrite Hpot. cbn [bind fst snd].
    rewrite Hps. cbn [bind fst snd].
    split; [reflexivity|]. split; [cbn; now rewrite Hlen|].
    split; [exact Hc'|]. split; [lia|].
    intros [|i] p Hi.
    + injection Hi as <-. now rewrite Hres, Hchip.
    + cbn in Hi. rewrite (Hall i p Hi).
      f_equal. apply (drawn_shift f f1 rng rng1 1 i Hcfg Hraw). lia.
Qed.

Lemma single_pot_chips_witness :
  exists ps f' rng',
    DigitalPotFactory.pots 3 factory_single 1 rng_mid = Ok (ps, (f', rng')) /\
    length ps = 3%nat /\
    Random.used rng' = 3%nat.
Proof.
  assert (H1 : ~ 1 == 0) by discriminate.
  assert (H2 : DigitalPotFactory.tap_count factory_single <> 0%Z) by discriminate.
  assert (H3 : DigitalPotFactory.pot_counter factory_single = 1%Z) by reflexivity.
  assert (H4 : (DigitalPotFactory.pots_per_chip factory_single <= 1)%Z)
    by (vm_compute; discriminate).
  assert (H5 : (DigitalPotFactory.draw_low factory_single
                < DigitalPotFactory.draw_high factory_single)%Z) by reflexivity.
  destruct (single_pot_chips factory_single 1 rng_mid 3 H1 H2 H3 H4 H5)
    as (ps & f' & rng' & Hps & Hlen & _ & Hused & _).
  exists ps, f', rng'. repeat split; assumption.
Defined.

(** ** MLP_Circuit_Layer: what an update changes *)

Lemma tuned_ok (p p' : DigitalPot.t) (w : Q) :
  DigitalPot.set_weight p w = Ok p' -> tuned p w = p'.
Proof. intros H. unfold tuned. now rewrite H. Qed.

Lemma cell_insert {A : Type} (m : list (list A)) (j i : nat) (row : list A)
    (x : A) (a b : nat) :
  m !! j = Some row -> (i < length row)%nat ->
  cell (<[j := <[i := x]> row]> m) a b =
  if decide (a = j /\ b = i) then Some x else cell m a b.
Proof.
  intros Hrow Hi. unfold cell.
  pose proof (lookup_lt_Some _ _ _ Hrow) as Hj.
  destruct (decide (a = j)) as [->|Ha].
  - rewrite list_lookup_insert_eq by exact Hj. rewrite Hrow.
    destruct (decide (b = i)) as [->|Hb].
    + rewrite list_lookup_insert_eq by exact Hi.
      now rewrite decide_True.
    + rewrite list_lookup_insert_ne by congruence.
      rewrite decide_False; [reflexivity | intros [_ ?]; congruence].
  - rewrite list_lookup_insert_ne by congruence.
    rewrite decide_False; [reflexivity | intros [? _]; congruence].
Qed.

Section UpdateEffect.

Import MLP_Circuit_Layer.

Variable self : MLP_Circuit_Layer.t.
Hypothesis weights_shaped :
  shaped (neuron_count self) (inputs_per_neuron self)
    (NeuronLayer.synaptic_weights (neuron_layer self)).

Local Abbreviation Inv := (pots_ok (inputs_per_neuron self) (neuron_count self)).
Local Abbreviation W := (NeuronLayer.synaptic_weights (neuron_layer self)).

(** One step sets one cell. *)
Lemma push_weight_effect (i j : nat) (pots : list (list DigitalPot.t)) :
  Inv pots ->
  (j < inputs_per_neuron self)%nat -> (i < neuron_count self)%nat ->
  (j < neuron_count self)%nat -> (i < inputs_per_neuron self)%nat ->
  exists pots',
    push_weight self i j pots = Ok pots' /\ Inv pots' /\
    forall a b,
      cell pots' a b =
      if decide (a = j /\ b = i) then tune_cell W pots a b else cell pots a b.
Proof.
  intros [Hshape Hwf] Hj Hi Hj' Hi'. unfold push_weight.
  destruct (index_ok pots j) as (row & Hrow & ->);
    [destruct Hshape as [-> _]; exact Hj|].
  cbn [bind].
  pose proof (shaped_row _ _ _ _ _ Hshape Hrow) as Hlen.
  destruct (index_ok row i) as (pot & Hpot & ->); [now rewrite Hlen|].
  cbn [bind].
  destruct (index_ok W j) as (wrow & Hwrow & ->);
    [destruct weights_shaped as [-> _]; exact Hj'|].
  cbn [bind].
  pose proof (shaped_row _ _ _ _ _ weights_shaped Hwrow) as Hwlen.
  destruct (index_ok wrow i) as (w & Hw & ->); [now rewrite Hwlen|].
  cbn [bind].
  assert (Hrowwf : Forall well_formed row)
    by exact (proj1 (Forall_lookup _ pots) Hwf j row Hrow).
  assert (Hpotwf : well_formed pot)
    by exact (proj1 (Forall_lookup _ row) Hrowwf i pot Hpot).
  destruct (set_weight_defined pot w Hpotwf) as [pot' Hset].
  rewrite Hset. cbn [bind]. eexists. split; [reflexivity|].
  split; [split|].
  - apply shaped_insert; [exact Hshape|]. now rewrite length_insert.
  - apply Forall_insert; [exact Hwf|].
    apply Forall_insert; [exact Hrowwf|].
    exact (set_weight_well_formed _ _ _ Hset Hpotwf).
  - intros a b. rewrite (cell_insert pots j i row pot' a b Hrow)
      by now rewrite Hlen.
    destruct (decide (a = j /\ b = i)) as [[-> ->]|]; [|reflexivity].
    unfold tune_cell, cell. rewrite Hrow, Hpot, Hwrow, Hw.
    now rewrite (tuned_ok _ _ _ Hset).
Qed.

(** The inner loop, for one second index [i], sets the cells
    [(s .. s+len-1, i)]. *)
Lemma inner_loop_effect (i : nat) (len : nat) :
  forall (s : nat) (pots : list (list DigitalPot.t)),
    Inv pots ->
    (i < neuron_count self)%nat -> (i < inputs_per_neuron self)%nat ->
    (s + len <= inputs_per_neuron self)%nat ->
    (s + len <= neuron_count self)%nat ->
    exists pots',
      for_each (seq s len) (fun j => push_weight self i j) pots = Ok pots' /\
      Inv pots' /\
      forall a b,
        cell pots' a b =
        if decide ((s <= a < s + len)%nat /\ b = i)
        then tune_cell W pots a b else cell pots a b.
Proof.
  induction len as [|len IH]; intros s pots HInv Hi Hi' Hs Hs'.
  - exists pots. split; [reflexivity|]. split; [exact HInv|].
    intros a b. rewrite decide_False; [reflexivity | lia].
  - cbn [seq for_each].
    destruct (push_weight_effect i s pots HInv) as (st1 & -> & Hinv1 & Hc1);
      try lia.
    cbn [bind].
    destruct (IH (S s) st1 Hinv1 Hi Hi') as (st2 & -> & Hinv2 & Hc2);
      try lia.
    exists st2. split; [reflexivity|]. split; [exact Hinv2|].
    intros a b. rewrite Hc2.
    destruct (decide ((S s <= a < S s + len)%nat /\ b = i)) as [[Ha Hb]|Hn].
    + rewrite decide_True by lia.
      unfold tune_cell. rewrite Hc1.
      rewrite decide_False by lia. reflexivity.
    + rewrite Hc1.
      destruct (decide (a = s /\ b = i)) as [[-> ->]|Hn'].
      * rewrite decide_True by lia. reflexivity.
      * rewrite decide_False by lia. reflexivity.
Qed.

(** The outer loop sets the cells [(0 .. m-1, s .. s+len-1)]. *)
Lemma outer_loop_effect (m : nat) (len : nat) :
  forall (s : nat) (pots : list (list DigitalPot.t)),
    Inv pots ->
    (m <= inputs_per_neuron self)%nat -> (m <= neuron_count self)%nat ->
    (s + len <= inputs_per_neuron self)%nat ->
    (s + len <= neuron_count self)%nat ->
    exists pots',
      for_each (seq s len)
        (fun i => for_each (seq 0 m) (fun j => push_weight self i j)) pots
        = Ok pots' /\
      Inv pots' /\
      forall a b,
        cell pots' a b =
        if decide ((a < m)%nat /\ (s <= b < s + len)%nat)
        then tune_cell W pots a b else cell pots a b.
Proof.
  induction len as [|len IH]; intros s pots HInv Hm Hm' Hs Hs'.
  - exists pots. split; [reflexivity|]. split; [exact HInv|].
    intros a b. rewrite decide_False; [reflexivity | lia].
  - cbn [seq for_each].
    destruct (inner_loop_effect s m 0 pots HInv) as (st1 & -> & Hinv1 & Hc1);
      try lia.
    cbn [bind].
    destruct (IH (S s) st1 Hinv1) as (st2 & -> & Hinv2 & Hc2); try lia.
    exists st2. split; [reflexivity|]. split; [exact Hinv2|].
    intros a b. rewrite Hc2.
    destruct (decide ((a < m)%nat /\ (S s <= b < S s + len)%nat)) as [[Ha Hb]|Hn].
    + rewrite decide_True by lia.
      unfold tune_cell. rewrite Hc1.
      rewrite decide_False by lia. reflexivity.
    + rewrite Hc1.
      destruct (decide ((0 <= a < 0 + m)%nat /\ b = s)) as [[Ha ->]|Hn'].
      * rewrite decide_True by lia. reflexivity.
      * rewrite decide_False by lia. reflexivity.
Qed.

Lemma push_weights_effect :
  Inv (digital_pots self) ->
  stays_in_bounds (inputs_per_neuron self) (neuron_count self) ->
  exists pots',
    push_weights self = Ok pots' /\ Inv pots' /\
    forall a b,
      cell pots' a b =
      if decide ((a < neuron_count self - 1)%nat /\
                 (b < inputs_per_neuron self - 1)%nat)
      then tune_cell W (digital_pots self) a b
      else cell (digital_pots self) a b.
Proof.
  intros HInv Hb. unfold push_weights, range0, stays_in_bounds in *.
  destruct (le_lt_dec (inputs_per_neuron self) 1) as [Hi|Hi].
  - replace (inputs_per_neuron self - 1)%nat with 0%nat by lia.
    exists (digital_pots self). split; [reflexivity|]. split; [exact HInv|].
    intros a b. rewrite decide_False; [reflexivity | lia].
  - destruct (le_lt_dec (neuron_count self) 1) as [Hn|Hn].
    + replace (neuron_count self - 1)%nat with 0%nat by lia.
      exists (digital_pots self). split; [|split; [exact HInv|]].
      * generalize (digital_pots self).
        induction (seq 0 (inputs_per_neuron self - 1)) as [|x xs IHxs];
          intros st; [reflexivity | exact (IHxs st)].
      * intros a b. rewrite decide_False; [reflexivity | lia].
    + destruct (outer_loop_effect (neuron_count self - 1)
                  (inputs_per_neuron self - 1) 0
                  (digital_pots self) HInv) as (st & Hst & Hinv & Hc);
        try lia.
      exists st. split; [exact Hst|]. split; [exact Hinv|].
      intros a b. rewrite Hc.
      destruct (decide ((a < neuron_count self - 1)%nat /\
                        (b < inputs_per_neuron self - 1)%nat)).
      * rewrite decide_True by lia. reflexivity.
      * rewrite decide_False by lia. reflexivity.
Qed.

End UpdateEffect.

Lemma tuned_twice (p : DigitalPot.t) (w : Q) :
  well_formed p -> tuned (tuned p w) w = tuned p w.
Proof.
  intros [Hm Ht].
  pose proof (set_weight_ok p w _ Ht (wiper_position_ok p Hm w)) as H1.
  rewrite (tuned_ok _ _ _ H1).
  apply tuned_ok.
  match goal with |- DigitalPot.set_weight ?q _ = _ => set (p' := q) end.
  assert (Hm' : ~ DigitalPot.max_weight p' == 0) by exact Hm.
  assert (Ht' : DigitalPot.tap_count p' <> 0%Z) by exact Ht.
  exact (set_weight_ok p' w _ Ht' (wiper_position_ok p' Hm' w)).
Qed.

Lemma cell_well_formed (pots : list (list DigitalPot.t)) (a b : nat)
    (p : DigitalPot.t) :
  Forall (Forall well_formed) pots -> cell pots a b = Some p -> well_formed p.
Proof.
  intros Hwf Hc. unfold cell in Hc.
  destruct (pots !! a) as [row|] eqn:Hrow; [|discriminate].
  pose proof (proj1 (Forall_lookup _ pots) Hwf a row Hrow) as Hr.
  exact (proj1 (Forall_lookup _ row) Hr b p Hc).
Qed.

(** Two matrices of one shape with the same cells are equal. *)
Lemma cell_ext {A : Type} (rows cols : nat) (m1 m2 : list (list A)) :
  shaped rows cols m1 -> shaped rows cols m2 ->
  (forall a b, cell m1 a b = cell m2 a b) -> m1 = m2.
Proof.
  intros [Hl1 Hr1] [Hl2 Hr2] Hc. apply list_eq. intros a.
  destruct (m1 !! a) as [r1|] eqn:E1, (m2 !! a) as [r2|] eqn:E2.
  - f_equal. apply list_eq. intros b.
    specialize (Hc a b). unfold cell in Hc. now rewrite E1, E2 in Hc.
  - apply lookup_lt_Some in E1. apply lookup_ge_None in E2. lia.
  - apply lookup_ge_None in E1. apply lookup_lt_Some in E2. lia.
  - reflexivity.
Qed.

Lemma stays_in_bounds_dec (i n : nat) :
  stays_in_bounds i n \/ ~ stays_in_bounds i n.
Proof. unfold stays_in_bounds. lia. Qed.

(** X6. On a layer whose update stays in bounds, the update gives the
    pot in row [a], column [b] of the array the weight in row [a],
    column [b] of the weight matrix when [a < neuron_count - 1] and
    [b < inputs_per_neuron - 1], and leaves every other pot as it was;
    the array keeps its shape. *)
Theorem update_effect (l : MLP_Circuit_Layer.t) :
  layer_ok l ->
  stays_in_bounds (MLP_Circuit_Layer.inputs_per_neuron l)
    (MLP_Circuit_Layer.neuron_count l) ->
  exists l',
    MLP_Circuit_Layer.update_synapse_weights l = Ok l' /\
    layer_ok l' /\
    forall a b,
      cell (MLP_Circuit_Layer.digital_pots l') a b =
      if decide ((a < MLP_Circuit_Layer.neuron_count l - 1)%nat /\
                 (b < MLP_Circuit_Layer.inputs_per_neuron l - 1)%nat)
      then tune_cell
             (NeuronLayer.synaptic_weights (MLP_Circuit_Layer.neuron_layer l))
             (MLP_Circuit_Layer.digital_pots l) a b
      else cell (MLP_Circuit_Layer.digital_pots l) a b.
Proof.
  intros [Hpots Hw] Hb.
  destruct (push_weights_effect l Hw Hpots Hb) as (pots' & Hpush & Hinv & Hc).
  rewrite update_after_push, Hpush. cbn [bind].
  eexists. split; [reflexivity|]. split; [|exact Hc].
  split; [exact Hinv | exact Hw].
Qed.

Lemma layer_3x3_unsynced_ok : layer_ok layer_3x3_unsynced.
Proof.
  assert (Hp : well_formed pot_5k) by (split; discriminate).
  split; [split|]; [split| |split]; try reflexivity.
  - repeat constructor.
  - repeat (constructor; [repeat (constructor; [exact Hp|]); constructor|]).
    constructor.
  - repeat constructor.
Defined.

Lemma update_effect_witness :
  exists l',
    MLP_Circuit_Layer.update_synapse_weights layer_3x3_unsynced = Ok l' /\
    cell (MLP_Circuit_Layer.digital_pots l') 0 1
      = tune_cell (NeuronLayer.synaptic_weights net_3x3)
          (MLP_Circuit_Layer.digital_pots layer_3x3_unsynced) 0 1 /\
    cell (MLP_Circuit_Layer.digital_pots l') 2 0 = Some pot_5k.
Proof.
  assert (Hb : stays_in_bounds
                 (MLP_Circuit_Layer.inputs_per_neuron layer_3x3_unsynced)
                 (MLP_Circuit_Layer.neuron_count layer_3x3_unsynced))
    by (right; right; cbn; lia).
  destruct (update_effect layer_3x3_unsynced layer_3x3_unsynced_ok Hb)
    as (l' & Hupd & _ & Hc).
  exists l'. split; [exact Hupd|]. split.
  - exact (Hc 0%nat 1%nat).
  - exact (Hc 2%nat 0%nat).
Defined.

(** The loops of a second update change nothing. *)
Lemma push_weights_twice (l : MLP_Circuit_Layer.t)
    (pots' : list (list DigitalPot.t)) :
  layer_ok l ->
  MLP_Circuit_Layer.push_weights l = Ok pots' ->
  MLP_Circuit_Layer.push_weights (MLP_Circuit_Layer.set_digital_pots pots' l)
    = Ok pots'.
Proof.
  intros [Hpots Hw] Hpush0.
  destruct (stays_in_bounds_dec (MLP_Circuit_Layer.inputs_per_neuron l)
              (MLP_Circuit_Layer.neuron_count l)) as [Hb|Hb].
  2:{ rewrite (push_weights_out_of_bounds l Hw Hpots Hb) in Hpush0.
      discriminate. }
  destruct (push_weights_effect l Hw Hpots Hb) as (pots1 & Hpush & Hinv & Hc).
  rewrite Hpush in Hpush0. injection Hpush0 as ->.
  set (l1 := MLP_Circuit_Layer.set_digital_pots pots' l).
  assert (Hw1 : shaped (MLP_Circuit_Layer.neuron_count l1)
                  (MLP_Circuit_Layer.inputs_per_neuron l1)
                  (NeuronLayer.synaptic_weights
                     (MLP_Circuit_Layer.neuron_layer l1))) by exact Hw.
  assert (Hinv1 : pots_ok (MLP_Circuit_Layer.inputs_per_neuron l1)
                    (MLP_Circuit_Layer.neuron_count l1)
                    (MLP_Circuit_Layer.digital_pots l1)) by exact Hinv.
  assert (Hb1 : stays_in_bounds (MLP_Circuit_Layer.inputs_per_neuron l1)
                  (MLP_Circuit_Layer.neuron_count l1)) by exact Hb.
  destruct (push_weights_effect l1 Hw1 Hinv1 Hb1)
    as (pots'' & Hpush' & Hinv' & Hc').
  rewrite Hpush'. f_equal.
  apply (cell_ext (MLP_Circuit_Layer.inputs_per_neuron l)
           (MLP_Circuit_Layer.neuron_count l));
    [exact (proj1 Hinv') | exact (proj1 Hinv) |].
  intros a b. rewrite Hc'.
  change (MLP_Circuit_Layer.digital_pots l1) with pots'.
  change (MLP_Circuit_Layer.neuron_count l1)
    with (MLP_Circuit_Layer.neuron_count l).
  change (MLP_Circuit_Layer.inputs_per_neuron l1)
    with (MLP_Circuit_Layer.inputs_per_neuron l).
  change (MLP_Circuit_Layer.neuron_layer l1)
    with (MLP_Circuit_Layer.neuron_layer l).
  destruct (decide ((a < MLP_Circuit_Layer.neuron_count l - 1)%nat /\
                    (b < MLP_Circuit_Layer.inputs_per_neuron l - 1)%nat))
    as [Hv|Hv]; [|reflexivity].
  pose proof (Hc a b) as Hab. rewrite decide_True in Hab by exact Hv.
  rewrite Hab. unfold tune_cell at 1. rewrite Hab.
  unfold tune_cell.
  destruct (cell (MLP_Circuit_Layer.digital_pots l) a b) as [p|] eqn:Hp;
    [|reflexivity].
  destruct (cell (NeuronLayer.synaptic_weights
                    (MLP_Circuit_Layer.neuron_layer l)) a b) as [w|];
    [|reflexivity].
  f_equal. apply tuned_twice.
  exact (cell_well_formed _ _ _ _ (proj2 Hpots) Hp).
Qed.

(** X7. Updating twice is updating once: on a layer whose update
    returned, a further update (the weights being the same) returns the
    very same layer. *)
Theorem update_idempotent (l l' : MLP_Circuit_Layer.t) :
  layer_ok l ->
  MLP_Circuit_Layer.update_synapse_weights l = Ok l' ->
  MLP_Circuit_Layer.update_synapse_weights l' = Ok l'.
Proof.
  intros Hok. rewrite update_after_push.
  destruct (MLP_Circuit_Layer.push_weights l) as [pots'|e] eqn:Hpush;
    [|discriminate].
  cbn [bind]. intros [= <-].
  pose proof (push_weights_twice l pots' Hok Hpush) as Htwice.
  rewrite update_after_push.
  match goal with
  | |- bind (MLP_Circuit_Layer.push_weights ?x) _ = _ =>
      change (MLP_Circuit_Layer.push_weights x)
        with (MLP_Circuit_Layer.push_weights
                (MLP_Circuit_Layer.set_digital_pots pots' l))
  end.
  rewrite Htwice. reflexivity.
Qed.

Lemma update_idempotent_witness :
  exists l',
    MLP_Circuit_Layer.update_synapse_weights layer_3x3_unsynced = Ok l' /\
    MLP_Circuit_Layer.update_synapse_weights l' = Ok l'.
Proof.
  let r := eval vm_compute in
             (MLP_Circuit_Layer.update_synapse_weights layer_3x3_unsynced) in
  match r with
  | Ok ?l' =>
      assert (H : MLP_Circuit_Layer.update_synapse_weights layer_3x3_unsynced
                  = Ok l') by (vm_compute; reflexivity);
      exists l'; split;
        [exact H
        | exact (update_idempotent layer_3x3_unsynced l'
                   layer_3x3_unsynced_ok H)]
  end.
Defined.

(** ** MLP_Circuit_Layer: construction *)

Lemma comprehension_inv {A B S : Type} (I : S -> Prop) (P : B -> Prop)
    (f : A -> S -> Res (B * S)) (xs : list A) :
  (forall x st, I st -> exists b st', f x st = Ok (b, st') /\ I st' /\ P b) ->
  forall st, I st ->
    exists bs st',
      comprehension xs f st = Ok (bs, st') /\ I st' /\
      length bs = length xs /\ Forall P bs.
Proof.
  intros Hf. induction xs as [|x xs IH]; intros st Hst.
  - exists [], st. repeat split; [exact Hst | constructor].
  - destruct (Hf x st Hst) as (b & st1 & H1 & Hst1 & Hb).
    destruct (IH st1 Hst1) as (bs & st2 & H2 & Hst2 & Hlen & Hall).
    exists (b :: bs), st2. cbn [comprehension]. rewrite H1. cbn [bind fst snd].
    rewrite H2. cbn [bind fst snd].
    repeat split; [exact Hst2 | cbn; now rewrite Hlen | now constructor].
Qed.

Lemma new_pot_attrs (r : Q) (taps : Z) (mw : Q) (p : DigitalPot.t) :
  DigitalPot.new r taps mw = Ok p ->
  DigitalPot.r_total_ohms p = r /\ DigitalPot.tap_count p = taps /\
  DigitalPot.max_weight p = mw.
Proof.
  unfold DigitalPot.new, DigitalPot.set_weight.
  destruct (DigitalPot.wiper_position _ 0) as [x|e]; [|discriminate].
  cbn [bind]. destruct (py_div _ _) as [q|e]; [|discriminate].
  cbn [bind]. intros [= <-]. repeat split.
Qed.

Lemma pot_attrs (f : DigitalPotFactory.t) (mw : Q) (rng : Random.t)
    (p : DigitalPot.t) (st : DigitalPotFactory.t * Random.t) :
  DigitalPotFactory.pot f mw rng = Ok (p, st) ->
  DigitalPot.tap_count p = DigitalPotFactory.tap_count f /\
  DigitalPot.max_weight p = mw.
Proof.
  unfold DigitalPotFactory.pot.
  destruct (DigitalPotFactory.pot_counter f =? 1)%Z.
  - destruct (Random.randrange _ _ rng) as [[v rng1]|e]; [|discriminate].
    cbn [bind fst snd].
    destruct (DigitalPot.new _ _ mw) as [q|e] eqn:Hq; [|discriminate].
    cbn [bind]. intros [= <- _].
    apply new_pot_attrs in Hq as (_ & Ht & Hm). split; assumption.
  - cbn [bind fst snd].
    destruct (DigitalPot.new _ _ mw) as [q|e] eqn:Hq; [|discriminate].
    cbn [bind]. intros [= <- _].
    apply new_pot_attrs in Hq as (_ & Ht & Hm). split; assumption.
Qed.

Lemma same_config_trans (f1 f2 f3 : DigitalPotFactory.t) :
  same_config f1 f2 -> same_config f2 f3 -> same_config f1 f3.
Proof.
  intros (a1 & a2 & a3 & a4) (b1 & b2 & b3 & b4).
  repeat split; congruence.
Qed.

Section LayerConstruction.

Variable f0 : DigitalPotFactory.t.
Variable mw : Q.
Hypothesis mw_nonzero : ~ mw == 0.
Hypothesis taps_nonzero : DigitalPotFactory.tap_count f0 <> 0%Z.
Hypothesis band :
  (DigitalPotFactory.draw_low f0 < DigitalPotFactory.draw_high f0)%Z.

(** One row of the pot array. *)
Lemma pot_row (nc : nat) (st : DigitalPotFactory.t * Random.t) :
  same_config f0 (fst st) ->
  exists row st',
    comprehension (range0 nc)
      (fun (_ : nat) s => DigitalPotFactory.pot (fst s) mw (snd s)) st
      = Ok (row, st') /\
    same_config f0 (fst st') /\
    length row = nc /\
    Forall (fun p => well_formed p /\
                     DigitalPot.tap_count p = DigitalPotFactory.tap_count f0 /\
                     DigitalPot.max_weight p = mw) row.
Proof.
  intros Hst.
  destruct (comprehension_inv
              (fun s : DigitalPotFactory.t * Random.t => same_config f0 (fst s))
              (fun p => well_formed p /\
                        DigitalPot.tap_count p = DigitalPotFactory.tap_count f0 /\
                        DigitalPot.max_weight p = mw)
              (fun (_ : nat) s => DigitalPotFactory.pot (fst s) mw (snd s))
              (range0 nc)) with (st := st)
    as (row & st' & Hrow & Hst' & Hlen & Hall); [|exact Hst|].
  - intros _ [f rng] Hcfg. cbn [fst snd] in *.
    pose proof Hcfg as (_ & Htap & _ & _).
    destruct (draw_bounds_same f0 f Hcfg) as [Hlo Hhi].
    destruct (pot_step mw mw_nonzero f rng) as (p & f' & rng' & Hpot & Hcfg' & _).
    { now rewrite Htap. }
    { now rewrite Hlo, Hhi. }
    exists p, (f', rng'). split; [exact Hpot|].
    split; [exact (same_config_trans _ _ _ Hcfg Hcfg')|].
    destruct (pot_attrs _ _ _ _ _ Hpot) as [Hpt Hpm].
    rewrite Htap in Hpt.
    split; [|split; assumption].
    split; [now rewrite Hpm | now rewrite Hpt].
  - exists row, st'. unfold range0 in Hlen. rewrite length_seq in Hlen.
    split; [exact Hrow|]. split; [exact Hst'|]. split; assumption.
Qed.

(** The whole pot array. *)
Lemma pot_array (ipn nc : nat) (st : DigitalPotFactory.t * Random.t) :
  same_config f0 (fst st) ->
  exists pots st',
    comprehension (range0 ipn)
      (fun (_ : nat) =>
         comprehension (range0 nc)
           (fun (_ : nat) s => DigitalPotFactory.pot (fst s) mw (snd s))) st
      = Ok (pots, st') /\
    same_config f0 (fst st') /\
    pots_ok ipn nc pots /\
    Forall (Forall (fun p =>
              DigitalPot.tap_count p = DigitalPotFactory.tap_count f0 /\
              DigitalPot.max_weight p = mw)) pots.
Proof.
  intros Hst.
  destruct (comprehension_inv
              (fun s : DigitalPotFactory.t * Random.t => same_config f0 (fst s))
              (fun row : list DigitalPot.t =>
                 length row = nc /\
                 Forall (fun p => well_formed p /\
                           DigitalPot.tap_count p = DigitalPotFactory.tap_count f0 /\
                           DigitalPot.max_weight p = mw) row)
              (fun (_ : nat) =>
                 comprehension (range0 nc)
                   (fun (_ : nat) s => DigitalPotFactory.pot (fst s) mw (snd s)))
              (range0 ipn)) with (st := st)
    as (pots & st' & Hpots & Hst' & Hlen & Hall); [|exact Hst|].
  - intros _ s Hs. destruct (pot_row nc s Hs) as (row & s' & H1 & H2 & H3 & H4).
    exists row, s'. split; [exact H1|]. split; [exact H2|]. split; assumption.
  - exists pots, st'. split; [exact Hpots|]. split; [exact Hst'|].
    unfold range0 in Hlen. rewrite length_seq in Hlen.
    split; [split; [split|]|].
    + exact Hlen.
    + eapply Forall_impl; [exact Hall|]. now intros row [? _].
    + eapply Forall_impl; [exact Hall|]. intros row [_ Hr].
      eapply Forall_impl; [exact Hr|]. now intros p [? _].
    + eapply Forall_impl; [exact Hall|]. intros row [_ Hr].
      eapply Forall_impl; [exact Hr|]. now intros p [_ ?].
Qed.

End LayerConstruction.

(** X8. Given a factory that can make pots and a network layer whose
    weight matrix has [neuron_count] rows of [inputs_per_neuron]
    weights, the constructor returns a layer exactly when the update it
    ends with stays in bounds, and raises [IndexError] otherwise.  The
    layer returned has [inputs_per_neuron] rows of [neuron_count] pots,
    each with the factory's tap count and the layer's [max_weight], one
    output node per neuron, and both matrices read back from the pots'
    positive branch. *)
Theorem layer_new (nl : NeuronLayer.t) (inputs : option (list string))
    (number : nat) (r_total : Q) (f : DigitalPotFactory.t) (rng : Random.t) :
  ~ NeuronLayer.max_weight nl == 0 ->
  DigitalPotFactory.tap_count f <> 0%Z ->
  (DigitalPotFactory.draw_low f < DigitalPotFactory.draw_high f)%Z ->
  shaped (NeuronLayer.neuron_count nl) (NeuronLayer.inputs_per_neuron nl)
    (NeuronLayer.synaptic_weights nl) ->
  (stays_in_bounds (NeuronLayer.inputs_per_neuron nl)
     (NeuronLayer.neuron_count nl) ->
   exists l st,
     MLP_Circuit_Layer.new nl inputs number r_total (f, rng) = Ok (l, st) /\
     same_config f (fst st) /\
     layer_ok l /\
     MLP_Circuit_Layer.neuron_count l = NeuronLayer.neuron_count nl /\
     MLP_Circuit_Layer.inputs_per_neuron l = NeuronLayer.inputs_per_neuron nl /\
     MLP_Circuit_Layer.layer_number l = number /\
     MLP_Circuit_Layer.output_nodes l =
       map (MLP_Circuit_Layer.neuron_out_name number)
         (range0 (NeuronLayer.neuron_count nl)) /\
     Forall (Forall (fun p =>
               DigitalPot.tap_count p = DigitalPotFactory.tap_count f /\
               DigitalPot.max_weight p = NeuronLayer.max_weight nl))
       (MLP_Circuit_Layer.digital_pots l) /\
     MLP_Circuit_Layer.synapses_r_pos l =
       Some (map (map DigitalPot.r_pos) (MLP_Circuit_Layer.digital_pots l)) /\
     MLP_Circuit_Layer.synapses_r_neg l =
       Some (map (map DigitalPot.r_pos) (MLP_Circuit_Layer.digital_pots l)))
  /\
  (~ stays_in_bounds (NeuronLayer.inputs_per_neuron nl)
       (NeuronLayer.neuron_count nl) ->
   MLP_Circuit_Layer.new nl inputs number r_total (f, rng) = Raise IndexError).
Proof.
  intros Hm Ht Hband Hw.
  assert (Hcfg : same_config f (fst (f, rng))) by (repeat split).
  destruct (pot_array f (NeuronLayer.max_weight nl) Hm Ht Hband
              (NeuronLayer.inputs_per_neuron nl) (NeuronLayer.neuron_count nl)
              (f, rng) Hcfg) as (pots & st & Hmade & Hst & Hok & Hattrs).
  unfold MLP_Circuit_Layer.new. rewrite Hmade. cbn [bind fst snd].
  match goal with
  | |- context [MLP_Circuit_Layer.update_synapse_weights ?x] => set (l0 := x)
  end.
  assert (Hw0 : shaped (MLP_Circuit_Layer.neuron_count l0)
                  (MLP_Circuit_Layer.inputs_per_neuron l0)
                  (NeuronLayer.synaptic_weights
                     (MLP_Circuit_Layer.neuron_layer l0))) by exact Hw.
  assert (Hinv0 : pots_ok (MLP_Circuit_Layer.inputs_per_neuron l0)
                    (MLP_Circuit_Layer.neuron_count l0)
                    (MLP_Circuit_Layer.digital_pots l0)) by exact Hok.
  split.
  - intros Hb.
    destruct (push_weights_effect l0 Hw0 Hinv0 Hb) as (pots' & Hpush & Hinv & Hc).
    rewrite update_after_push, Hpush. cbn [bind].
    eexists _, _. split; [reflexivity|].
    cbn [MLP_Circuit_Layer.set_synapses_r_neg MLP_Circuit_Layer.set_synapses_r_pos
         MLP_Circuit_Layer.set_digital_pots MLP_Circuit_Layer.neuron_count
         MLP_Circuit_Layer.inputs_per_neuron MLP_Circuit_Layer.layer_number
         MLP_Circuit_Layer.output_nodes MLP_Circuit_Layer.digital_pots
         MLP_Circuit_Layer.synapses_r_pos MLP_Circuit_Layer.synapses_r_neg
         MLP_Circuit_Layer.neuron_layer l0 fst].
    split; [exact Hst|]. split; [split; [exact Hinv | exact Hw]|].
    repeat (split; [reflexivity|]).
    split; [|split; reflexivity].
    (* attributes survive the update, cell by cell *)
    apply Forall_lookup. intros a row Hrow.
    apply Forall_lookup. intros b p Hp.
    assert (Hcell : cell pots' a b = Some p) by (unfold cell; now rewrite Hrow).
    rewrite Hc in Hcell.
    assert (Hold : forall q, cell pots a b = Some q ->
              DigitalPot.tap_count q = DigitalPotFactory.tap_count f /\
              DigitalPot.max_weight q = NeuronLayer.max_weight nl).
    { intros q Hq. unfold cell in Hq.
      destruct (pots !! a) as [r|] eqn:Hr; [|discriminate].
      pose proof (proj1 (Forall_lookup _ pots) Hattrs a r Hr) as Hra.
      exact (proj1 (Forall_lookup _ r) Hra b q Hq). }
    change (MLP_Circuit_Layer.digital_pots l0) with pots in Hcell.
    destruct (decide _) in Hcell; [|exact (Hold p Hcell)].
    unfold tune_cell in Hcell.
    destruct (cell pots a b) as [q|] eqn:Hq; [|discriminate].
    destruct (cell _ a b) as [w|] in Hcell; [|discriminate].
    injection Hcell as <-.
    destruct (Hold q eq_refl) as [Hqt Hqm].
    pose proof (cell_well_formed _ _ _ _ (proj2 Hok) Hq) as Hqwf.
    destruct (set_weight_defined q w Hqwf) as [q' Hset].
    rewrite (tuned_ok _ _ _ Hset).
    destruct Hqwf as [Hqm' Hqt'].
    rewrite (set_weight_ok q w _ Hqt' (wiper_position_ok q Hqm' w)) in Hset.
    injection Hset as <-. split; assumption.
  - intros Hb. rewrite update_after_push.
    rewrite (push_weights_out_of_bounds l0 Hw0 Hinv0 Hb). reflexivity.
Qed.

Lemma layer_new_witness :
  exists l st,
    MLP_Circuit_Layer.new net_3x3 None 0 5000 (factory_5k, rng_mid) = Ok (l, st) /\
    layer_ok l /\
    MLP_Circuit_Layer.new net_2x4 None 0 5000 (factory_5k, rng_mid)
      = Raise IndexError.
Proof.
  assert (Hm : ~ 1 == 0) by discriminate.
  assert (Ht : DigitalPotFactory.tap_count factory_5k <> 0%Z) by discriminate.
  assert (Hband : (DigitalPotFactory.draw_low factory_5k
                   < DigitalPotFactory.draw_high factory_5k)%Z) by reflexivity.
  assert (Hw3 : shaped (NeuronLayer.neuron_count net_3x3)
                  (NeuronLayer.inputs_per_neuron net_3x3)
                  (NeuronLayer.synaptic_weights net_3x3))
    by (split; [reflexivity | repeat constructor]).
  assert (Hw4 : shaped (NeuronLayer.neuron_count net_2x4)
                  (NeuronLayer.inputs_per_neuron net_2x4)
                  (NeuronLayer.synaptic_weights net_2x4))
    by (split; [reflexivity | repeat constructor]).
  assert (Hb3 : stays_in_bounds (NeuronLayer.inputs_per_neuron net_3x3)
                  (NeuronLayer.neuron_count net_3x3))
    by (right; right; cbn; lia).
  assert (Hb4 : ~ stays_in_bounds (NeuronLayer.inputs_per_neuron net_2x4)
                    (NeuronLayer.neuron_count net_2x4))
    by (unfold stays_in_bounds; cbn; lia).
  destruct (proj1 (layer_new net_3x3 None 0 5000 factory_5k rng_mid
                     Hm Ht Hband Hw3) Hb3) as (l & st & Hnew & _ & Hok & _).
  exists l, st. split; [exact Hnew|]. split; [exact Hok|].
  exact (proj2 (layer_new net_2x4 None 0 5000 factory_5k rng_mid
                  Hm Ht Hband Hw4) Hb4).
Defined.

(** ** MLP_Circuit: what construction guarantees *)

Lemma for_each_preserves {A S : Type} (I : S -> Prop) (body : A -> S -> Res S)
    (xs : list A) :
  (forall x st st', I st -> body x st = Ok st' -> I st') ->
  forall st st', I st -> for_each xs body st = Ok st' -> I st'.
Proof.
  intros Hbody. induction xs as [|x xs IH]; intros st st' Hst.
  - now intros [= <-].
  - cbn [for_each]. destruct (body x st) as [st1|e] eqn:H1; [|discriminate].
    cbn [bind]. apply IH. exact (Hbody x st st1 Hst H1).
Qed.

Lemma comprehension_preserves {A B S : Type} (I : S -> Prop) (P : B -> Prop)
    (f : A -> S -> Res (B * S)) (xs : list A) :
  (forall x st b st', I st -> f x st = Ok (b, st') -> I st' /\ P b) ->
  forall st bs st',
    I st -> comprehension xs f st = Ok (bs, st') ->
    I st' /\ Forall P bs /\ length bs = length xs.
Proof.
  intros Hf. induction xs as [|x xs IH]; intros st bs st' Hst.
  - intros [= <- <-]. repeat split; [exact Hst | constructor].
  - cbn [comprehension].
    destruct (f x st) as [[b st1]|e] eqn:H1; [|discriminate].
    cbn [bind fst snd].
    destruct (comprehension xs f st1) as [[bs1 st2]|e] eqn:H2; [|discriminate].
    cbn [bind fst snd]. intros [= <- <-].
    destruct (Hf x st b st1 Hst H1) as [Hst1 Hb].
    destruct (IH st1 bs1 st2 Hst1 H2) as (Hst2 & Hall & Hlen).
    repeat split; [exact Hst2 | now constructor | cbn; now rewrite Hlen].
Qed.

Lemma wiper_position_defined (p : DigitalPot.t) (w : Q) (x : Z) :
  DigitalPot.wiper_position p w = Ok x -> ~ DigitalPot.max_weight p == 0.
Proof.
  unfold DigitalPot.wiper_position, py_div.
  destruct (Qeq_bool (DigitalPot.max_weight p) 0) eqn:E; [discriminate|].
  intros _ H. apply Qeq_bool_iff in H. congruence.
Qed.

Lemma spec_r_neg_strict (wiper taps : Z) (r_total : Q) :
  (1 <= wiper <= taps - 1)%Z -> 0 < r_total ->
  0 < Spec.r_neg wiper taps r_total /\ Spec.r_neg wiper taps r_total < r_total.
Proof.
  intros Hw Hr. unfold Spec.r_neg.
  assert (Ht : 0 < inject_Z taps).
  { change 0 with (inject_Z 0). rewrite <- Zlt_Qlt. lia. }
  assert (H0 : 0 < inject_Z wiper / inject_Z taps).
  { apply Qlt_shift_div_l; [exact Ht|]. rewrite Qmult_0_l.
    change 0 with (inject_Z 0). rewrite <- Zlt_Qlt. lia. }
  assert (H1 : inject_Z wiper / inject_Z taps < 1).
  { apply Qlt_shift_div_r; [exact Ht|]. rewrite Qmult_1_l.
    rewrite <- Zlt_Qlt. lia. }
  split.
  - apply Qmult_lt_0_compat; assumption.
  - rewrite <- (Qmult_1_l r_total) at 2.
    apply Qmult_lt_compat_r; assumption.
Qed.

Section Soundness.

Variables lo hi taps : Z.
Hypothesis lo_positive : (0 < lo)%Z.
Hypothesis taps_two : (2 <= taps)%Z.

(** [set_weight] on a pot with sound attributes gives a sound pot. *)
Lemma set_weight_sound (p p' : DigitalPot.t) (w : Q) :
  DigitalPot.tap_count p = taps ->
  (exists v : Z, DigitalPot.r_total_ohms p = inject_Z v /\ (lo <= v < hi)%Z) ->
  DigitalPot.set_weight p w = Ok p' ->
  pot_sound lo hi taps p'.
Proof.
  intros Ht (v & Hv & Hband) Hset.
  assert (Hm : ~ DigitalPot.max_weight p == 0).
  { unfold DigitalPot.set_weight in Hset.
    destruct (DigitalPot.wiper_position p w) as [x|e] eqn:Hx; [|discriminate].
    exact (wiper_position_defined p w x Hx). }
  pose proof (wiper_position_ok p Hm w) as Hx.
  assert (Htz : DigitalPot.tap_count p <> 0%Z) by lia.
  rewrite (set_weight_ok p w _ Htz Hx) in Hset. injection Hset as <-.
  assert (Hr : 0 < DigitalPot.r_total_ohms p).
  { rewrite Hv. change 0 with (inject_Z 0). rewrite <- Zlt_Qlt. lia. }
  assert (Hrange : (1 <= Z.min (DigitalPot.tap_count p - 1)
                            (Z.max 1 (py_int (Spec.tap_of_weight w
                               (DigitalPot.max_weight p) (DigitalPot.tap_count p))))
                    <= DigitalPot.tap_count p - 1)%Z) by lia.
  destruct (spec_r_neg_strict _ _ _ Hrange Hr) as [H0 H1].
  unfold pot_sound.
  cbn [DigitalPot.tap_count DigitalPot.max_weight DigitalPot.r_total_ohms
       DigitalPot.r_neg DigitalPot.r_pos].
  split; [exact Ht|]. split; [exact Hm|].
  split; [exists v; split; assumption|].
  split; [exact H0|].
  unfold Spec.r_pos. split; [lra | ring].
Qed.

Lemma pot_sound_attrs (p : DigitalPot.t) :
  pot_sound lo hi taps p ->
  DigitalPot.tap_count p = taps /\
  (exists v : Z, DigitalPot.r_total_ohms p = inject_Z v /\ (lo <= v < hi)%Z).
Proof. intros (Ht & _ & Hv & _). split; assumption. Qed.

(** A successful call of [pot] on a sound factory gives a sound pot
    and a sound factory. *)
Lemma pot_sound_step (f f' : DigitalPotFactory.t) (mw : Q)
    (rng rng' : Random.t) (p : DigitalPot.t) :
  factory_sound lo hi taps f ->
  DigitalPotFactory.pot f mw rng = Ok (p, (f', rng')) ->
  factory_sound lo hi taps f' /\ pot_sound lo hi taps p.
Proof.
  intros (Ht & Hlo & Hhi & Hchip). unfold DigitalPotFactory.pot.
  destruct (Z.eqb_spec (DigitalPotFactory.pot_counter f) 1) as [Hc|Hc].
  - unfold Random.randrange. rewrite Hlo, Hhi.
    destruct (Z.ltb_spec lo hi) as [Hlt|]; [|discriminate].
    cbn [bind fst snd].
    pose proof (Z.mod_pos_bound (Random.raw rng (Random.used rng)) (hi - lo)
                  ltac:(lia)) as Hmod.
    destruct (DigitalPot.new _ _ mw) as [q|e] eqn:Hq; [|discriminate].
    cbn [bind]. intros [= <- <- _].
    split.
    + split; [exact Ht|]. split; [exact Hlo|]. split; [exact Hhi|].
      right. eexists. split; [reflexivity | lia].
    + unfold DigitalPot.new in Hq.
      eapply set_weight_sound; [| |exact Hq].
      * exact Ht.
      * eexists. split; [reflexivity | lia].
  - destruct Hchip as [Hc1|(v & Hv & Hband)]; [contradiction|].
    cbn [bind fst snd].
    destruct (DigitalPot.new _ _ mw) as [q|e] eqn:Hq; [|discriminate].
    cbn [bind]. intros [= <- <- _].
    split.
    + split; [exact Ht|]. split; [exact Hlo|]. split; [exact Hhi|].
      right. exists v. split; assumption.
    + unfold DigitalPot.new in Hq.
      eapply set_weight_sound; [| |exact Hq].
      * exact Ht.
      * exists v. split; assumption.
Qed.

(** A successful step of the update keeps every pot sound. *)
Lemma push_weight_sound (l : MLP_Circuit_Layer.t) (i j : nat)
    (pots pots' : list (list DigitalPot.t)) :
  Forall (Forall (pot_sound lo hi taps)) pots ->
  MLP_Circuit_Layer.push_weight l i j pots = Ok pots' ->
  Forall (Forall (pot_sound lo hi taps)) pots'.
Proof.
  intros Hall. unfold MLP_Circuit_Layer.push_weight, index.
  destruct (pots !! j) as [row|] eqn:Hrow; [|discriminate]. cbn [bind].
  destruct (row !! i) as [pot|] eqn:Hpot; [|discriminate]. cbn [bind].
  destruct (NeuronLayer.synaptic_weights (MLP_Circuit_Layer.neuron_layer l)
              !! j) as [wrow|]; [|discriminate].
  cbn [bind].
  destruct (wrow !! i) as [w|]; [|discriminate]. cbn [bind].
  destruct (DigitalPot.set_weight pot w) as [pot'|e] eqn:Hset; [|discriminate].
  cbn [bind]. intros [= <-].
  pose proof (proj1 (Forall_lookup _ pots) Hall j row Hrow) as Hr.
  pose proof (proj1 (Forall_lookup _ row) Hr i pot Hpot) as Hp.
  destruct (pot_sound_attrs pot Hp) as [Ht Hv].
  apply Forall_insert; [exact Hall|].
  apply Forall_insert; [exact Hr|].
  exact (set_weight_sound pot pot' w Ht Hv Hset).
Qed.

Lemma update_sound (l l' : MLP_Circuit_Layer.t) :
  Forall (Forall (pot_sound lo hi taps)) (MLP_Circuit_Layer.digital_pots l) ->
  MLP_Circuit_Layer.update_synapse_weights l = Ok l' ->
  Forall (Forall (pot_sound lo hi taps)) (MLP_Circuit_Layer.digital_pots l').
Proof.
  intros Hall. rewrite update_after_push.
  destruct (MLP_Circuit_Layer.push_weights l) as [pots|e] eqn:Hpush;
    [|discriminate].
  cbn [bind]. intros [= <-]. cbn.
  unfold MLP_Circuit_Layer.push_weights in Hpush.
  revert Hpush. apply for_each_preserves; [|exact Hall].
  intros i st st' Hst. apply for_each_preserves; [|exact Hst].
  intros j st1 st2 Hst1. now apply push_weight_sound.
Qed.

Lemma layer_new_sound (nl : NeuronLayer.t) (inputs : option (list string))
    (number : nat) (r_total : Q) (f f' : DigitalPotFactory.t)
    (rng rng' : Random.t) (l : MLP_Circuit_Layer.t) :
  factory_sound lo hi taps f ->
  MLP_Circuit_Layer.new nl inputs number r_total (f, rng) = Ok (l, (f', rng')) ->
  factory_sound lo hi taps f' /\
  Forall (Forall (pot_sound lo hi taps)) (MLP_Circuit_Layer.digital_pots l).
Proof.
  intros Hf. unfold MLP_Circuit_Layer.new.
  destruct (comprehension _ _ (f, rng)) as [[pots st]|e] eqn:Hmade;
    [|discriminate].
  cbn [bind fst snd].
  destruct (MLP_Circuit_Layer.update_synapse_weights _) as [l1|e] eqn:Hupd;
    [|discriminate].
  cbn [bind fst snd]. intros [= <- ->].
  assert (Hpot : forall (x : nat) (s : DigitalPotFactory.t * Random.t)
                   (p : DigitalPot.t) (s' : DigitalPotFactory.t * Random.t),
             factory_sound lo hi taps (fst s) ->
             DigitalPotFactory.pot (fst s) (NeuronLayer.max_weight nl) (snd s)
               = Ok (p, s') ->
             factory_sound lo hi taps (fst s') /\ pot_sound lo hi taps p).
  { intros _ [g r] p [g' r'] Hg Hp. cbn [fst snd] in *.
    exact (pot_sound_step g g' _ r r' p Hg Hp). }
  assert (Hrow : forall (x : nat) (s : DigitalPotFactory.t * Random.t)
                   (row : list DigitalPot.t)
                   (s' : DigitalPotFactory.t * Random.t),
             factory_sound lo hi taps (fst s) ->
             comprehension (range0 (NeuronLayer.neuron_count nl))
               (fun (_ : nat) s0 =>
                  DigitalPotFactory.pot (fst s0) (NeuronLayer.max_weight nl)
                    (snd s0)) s = Ok (row, s') ->
             factory_sound lo hi taps (fst s') /\
             Forall (pot_sound lo hi taps) row).
  { intros _ s row s' Hs Hr.
    destruct (comprehension_preserves
                (fun s0 : DigitalPotFactory.t * Random.t =>
                   factory_sound lo hi taps (fst s0))
                (pot_sound lo hi taps) _ _ Hpot s row s' Hs Hr)
      as (Hs' & Hall & _).
    split; assumption. }
  destruct (comprehension_preserves
              (fun s0 : DigitalPotFactory.t * Random.t =>
                 factory_sound lo hi taps (fst s0))
              (Forall (pot_sound lo hi taps)) _ _ Hrow (f, rng) pots
              (f', rng') Hf Hmade) as (Hst & Hall & _).
  split; [exact Hst|].
  eapply update_sound; [|exact Hupd]. exact Hall.
Qed.

Lemma build_layers_sound (models : list NeuronLayer.t) :
  forall (idx : nat) (inputs : option (list string)) (r_total : Q)
         (f f' : DigitalPotFactory.t) (rng rng' : Random.t)
         (layers : list MLP_Circuit_Layer.t),
    factory_sound lo hi taps f ->
    MLP_Circuit.build_layers models idx inputs r_total (f, rng)
      = Ok (layers, (f', rng')) ->
    Forall (fun l => Forall (Forall (pot_sound lo hi taps))
                       (MLP_Circuit_Layer.digital_pots l)) layers.
Proof.
  induction models as [|m models IH];
    intros idx inputs r_total f f' rng rng' layers Hf.
  - intros [= <- _ _]. constructor.
  - cbn [MLP_Circuit.build_layers].
    destruct (MLP_Circuit_Layer.new m inputs idx r_total (f, rng))
      as [[l [f1 rng1]]|e] eqn:Hnew; [|discriminate].
    cbn [bind fst snd].
    destruct (MLP_Circuit.build_layers models (S idx) _ r_total (f1, rng1))
      as [[ls [f2 rng2]]|e] eqn:Hrest; [|discriminate].
    cbn [bind fst snd]. intros [= <- _ _].
    destruct (layer_new_sound _ _ _ _ _ _ _ _ _ Hf Hnew) as [Hf1 Hl].
    constructor; [exact Hl|].
    exact (IH _ _ _ _ _ _ _ _ Hf1 Hrest).
Qed.

End Soundness.

Lemma relink_pots (prev : MLP_Circuit_Layer.t)
    (layers : list MLP_Circuit_Layer.t) :
  map MLP_Circuit_Layer.digital_pots (MLP_Circuit.relink prev layers)
  = map MLP_Circuit_Layer.digital_pots layers.
Proof.
  revert prev. induction layers as [|l ls IH]; intros prev; [reflexivity|].
  cbn [MLP_Circuit.relink map]. now rewrite IH.
Qed.

(** X9. Whatever the network and the random draws, every pot of a
    circuit that [MLP_Circuit.new] returns has 128 taps, an integer
    total resistance of 4000 to 5999 ohm, and two strictly positive
    branches that sum to the total. *)
Theorem circuit_pots_sound (network : list NeuronLayer.t) (rng rng' : Random.t)
    (c : MLP_Circuit.t) :
  MLP_Circuit.new network rng = Ok (c, rng') ->
  forall (layer : MLP_Circuit_Layer.t) (row : list DigitalPot.t)
         (p : DigitalPot.t),
    layer ∈ MLP_Circuit.hardware_layers c ->
    row ∈ MLP_Circuit_Layer.digital_pots layer ->
    p ∈ row ->
    DigitalPot.tap_count p = 128%Z /\
    (exists v : Z, DigitalPot.r_total_ohms p = inject_Z v /\ (4000 <= v < 6000)%Z) /\
    0 < DigitalPot.r_neg p /\
    0 < DigitalPot.r_pos p /\
    DigitalPot.r_pos p + DigitalPot.r_neg p == DigitalPot.r_total_ohms p.
Proof.
  unfold MLP_Circuit.new, MLP_Circuit.initialize_hardware_layers.
  destruct (MLP_Circuit.build_layers network 0 None _r_total_ohms _)
    as [[layers [f1 rng1]]|e] eqn:Hbuild; [|discriminate].
  cbn [bind fst snd]. intros [= <- _].
  cbn [MLP_Circuit.hardware_layers].
  assert (Hf : factory_sound 4000 6000 128
                 (DigitalPotFactory.new _r_total_ohms _pot_tap_count
                    (Z.of_nat _pots_per_chip) _pot_tolerance)).
  { split; [reflexivity|]. split; [reflexivity|]. split; [reflexivity|].
    left. reflexivity. }
  pose proof (build_layers_sound 4000 6000 128 ltac:(lia) ltac:(lia)
                network 0 None _ _ _ _ _ _ Hf Hbuild) as Hall.
  assert (Hpots : Forall (Forall (Forall (pot_sound 4000 6000 128)))
                    (map MLP_Circuit_Layer.digital_pots
                       match layers with
                       | [] => []
                       | l0 :: ls => l0 :: MLP_Circuit.relink l0 ls
                       end)).
  { destruct layers as [|l0 ls]; [constructor|].
    cbn [map]. rewrite relink_pots.
    apply Forall_fmap in Hall. exact Hall. }
  intros layer row p Hlayer Hrow Hp.
  rewrite Forall_forall in Hpots.
  assert (Hin : MLP_Circuit_Layer.digital_pots layer
                ∈ map MLP_Circuit_Layer.digital_pots
                    match layers with
                    | [] => []
                    | l0 :: ls => l0 :: MLP_Circuit.relink l0 ls
                    end) by (apply list_elem_of_fmap; eauto).
  pose proof (Hpots _ Hin) as H1. rewrite Forall_forall in H1.
  pose proof (H1 _ Hrow) as H2. rewrite Forall_forall in H2.
  destruct (H2 _ Hp) as (Ht & _ & Hv & Hn & Hpp & Hsum).
  repeat split; assumption.
Qed.

Lemma circuit_pots_sound_witness :
  exists c rng',
    MLP_Circuit.new [net_2x2] rng_mid = Ok (c, rng') /\
    forall (layer : MLP_Circuit_Layer.t) (row : list DigitalPot.t)
           (p : DigitalPot.t),
      layer ∈ MLP_Circuit.hardware_layers c ->
      row ∈ MLP_Circuit_Layer.digital_pots layer ->
      p ∈ row ->
      0 < DigitalPot.r_neg p /\ 0 < DigitalPot.r_pos p.
Proof.
  let r := eval vm_compute in (MLP_Circuit.new [net_2x2] rng_mid) in
  match r with
  | Ok (?c, ?st) =>
      assert (Hnew : MLP_Circuit.new [net_2x2] rng_mid = Ok (c, st))
        by (vm_compute; reflexivity);
      exists c, st; split; [exact Hnew|];
      intros layer row p Hl Hr Hp;
      destruct (circuit_pots_sound [net_2x2] rng_mid st c Hnew layer row p
                  Hl Hr Hp) as (_ & _ & Hn & Hpp & _);
      split; assumption
  end.
Defined.

(** ** MLP_Circuit: wiring of the layers *)

Lemma layer_new_fields (nl : NeuronLayer.t) (inputs : option (list string))
    (number : nat) (r_total : Q) (st st' : DigitalPotFactory.t * Random.t)
    (l : MLP_Circuit_Layer.t) :
  MLP_Circuit_Layer.new nl inputs number r_total st = Ok (l, st') ->
  layer_of nl number l /\
  MLP_Circuit_Layer.input_nodes l =
    if (number =? 0)%nat
    then Some (map (MLP_Circuit_Layer.synapse_in_name number)
                 (range0 (NeuronLayer.inputs_per_neuron nl)))
    else inputs.
Proof.
  unfold MLP_Circuit_Layer.new.
  destruct (comprehension _ _ st) as [[pots s1]|e]; [|discriminate].
  cbn [bind fst snd]. rewrite update_after_push.
  destruct (MLP_Circuit_Layer.push_weights _) as [pots'|e]; [|discriminate].
  cbn [bind]. intros [= <- _]. split; [|reflexivity].
  repeat split.
Qed.

Lemma set_input_nodes_layer_of (nl : NeuronLayer.t) (n : nat)
    (v : option (list string)) (l : MLP_Circuit_Layer.t) :
  layer_of nl n l -> layer_of nl n (MLP_Circuit_Layer.set_input_nodes v l).
Proof. intros H. exact H. Qed.

Lemma build_layers_fields (models : list NeuronLayer.t) :
  forall (idx : nat) (inputs : option (list string)) (r_total : Q)
         (st st' : DigitalPotFactory.t * Random.t)
         (layers : list MLP_Circuit_Layer.t),
    MLP_Circuit.build_layers models idx inputs r_total st = Ok (layers, st') ->
    Forall2 (fun nl l => exists k, layer_of nl k l) models layers /\
    forall (k : nat) (l : MLP_Circuit_Layer.t),
      layers !! k = Some l ->
      exists nl, models !! k = Some nl /\ layer_of nl (idx + k) l.
Proof.
  induction models as [|m models IH]; intros idx inputs r_total st st' layers.
  - intros [= <- _]. split; [constructor|]. intros k l Hk. discriminate.
  - cbn [MLP_Circuit.build_layers].
    destruct (MLP_Circuit_Layer.new m inputs idx r_total st)
      as [[l0 s1]|e] eqn:Hnew; [|discriminate].
    cbn [bind fst snd].
    destruct (MLP_Circuit.build_layers models (S idx) _ r_total s1)
      as [[ls s2]|e] eqn:Hrest; [|discriminate].
    cbn [bind fst snd]. intros [= <- _].
    destruct (layer_new_fields _ _ _ _ _ _ _ Hnew) as [Hl0 _].
    destruct (IH _ _ _ _ _ _ Hrest) as [Hall Hlk].
    split; [constructor; [now exists idx | exact Hall]|].
    intros [|k] l Hk.
    + injection Hk as <-. exists m. split; [reflexivity|].
      now rewrite Nat.add_0_r.
    + cbn in Hk. destruct (Hlk k l Hk) as (nl & Hnl & Hof).
      exists nl. split; [exact Hnl|].
      now replace (idx + S k)%nat with (S idx + k)%nat by lia.
Qed.

Lemma build_layers_first (models : list NeuronLayer.t)
    (inputs : option (list string)) (r_total : Q)
    (st st' : DigitalPotFactory.t * Random.t)
    (l0 : MLP_Circuit_Layer.t) (ls : list MLP_Circuit_Layer.t) :
  MLP_Circuit.build_layers models 0 inputs r_total st = Ok (l0 :: ls, st') ->
  MLP_Circuit_Layer.input_nodes l0 =
    Some (map (MLP_Circuit_Layer.synapse_in_name 0)
            (range0 (MLP_Circuit_Layer.inputs_per_neuron l0))).
Proof.
  destruct models as [|m models]; [discriminate|].
  cbn [MLP_Circuit.build_layers].
  destruct (MLP_Circuit_Layer.new m inputs 0 r_total st)
    as [[l s1]|e] eqn:Hnew; [|discriminate].
  cbn [bind fst snd].
  destruct (MLP_Circuit.build_layers models 1 _ r_total s1)
    as [[ls' s2]|e]; [|discriminate].
  cbn [bind fst snd]. intros [= <- _ _].
  destruct (layer_new_fields _ _ _ _ _ _ _ Hnew) as [(_ & _ & Hipn & _) Hin].
  rewrite Hin, Hipn. reflexivity.
Qed.

(** After the second loop every layer but the first reads the output
    nodes of the layer before it; nothing else changes. *)
Lemma relink_lookup (layers : list MLP_Circuit_Layer.t) :
  forall (prev : MLP_Circuit_Layer.t) (k : nat) (l : MLP_Circuit_Layer.t),
    MLP_Circuit.relink prev layers !! k = Some l ->
    exists l0,
      layers !! k = Some l0 /\
      l = MLP_Circuit_Layer.set_input_nodes
            (option_map MLP_Circuit_Layer.output_nodes
               ((prev :: MLP_Circuit.relink prev layers) !! k)) l0.
Proof.
  induction layers as [|l0 ls IH]; intros prev k l; [discriminate|].
  cbn [MLP_Circuit.relink]. destruct k as [|k].
  - intros [= <-]. exists l0. split; reflexivity.
  - intros Hk. cbn in Hk.
    destruct (IH _ k l Hk) as (l1 & Hl1 & ->).
    exists l1. split; [exact Hl1|]. reflexivity.
Qed.

Lemma new_layers (network : list NeuronLayer.t) (rng rng' : Random.t)
    (c : MLP_Circuit.t) :
  MLP_Circuit.new network rng = Ok (c, rng') ->
  exists layers st,
    MLP_Circuit.build_layers network 0 None _r_total_ohms
      (DigitalPotFactory.new _r_total_ohms _pot_tap_count
         (Z.of_nat _pots_per_chip) _pot_tolerance, rng) = Ok (layers, st) /\
    MLP_Circuit.hardware_layers c =
      match layers with
      | [] => []
      | l0 :: ls => l0 :: MLP_Circuit.relink l0 ls
      end.
Proof.
  unfold MLP_Circuit.new, MLP_Circuit.initialize_hardware_layers.
  destruct (MLP_Circuit.build_layers network 0 None _r_total_ohms _)
    as [[layers st]|e] eqn:Hbuild; [|discriminate].
  cbn [bind fst snd]. intros [= <- _]. exists layers, st.
  split; reflexivity.
Qed.

Lemma hardware_layer_of (network : list NeuronLayer.t) (rng rng' : Random.t)
    (c : MLP_Circuit.t) (k : nat) (l : MLP_Circuit_Layer.t) :
  MLP_Circuit.new network rng = Ok (c, rng') ->
  MLP_Circuit.hardware_layers c !! k = Some l ->
  exists nl, network !! k = Some nl /\ layer_of nl k l.
Proof.
  intros Hnew Hk.
  destruct (new_layers _ _ _ _ Hnew) as (layers & st & Hbuild & Hhw).
  rewrite Hhw in Hk.
  destruct (build_layers_fields _ _ _ _ _ _ _ Hbuild) as [_ Hlk].
  destruct layers as [|l0 ls]; [discriminate|].
  destruct k as [|k].
  - injection Hk as <-. exact (Hlk 0%nat l0 eq_refl).
  - cbn in Hk. destruct (relink_lookup ls l0 k l Hk) as (l1 & Hl1 & ->).
    destruct (Hlk (S k) l1 Hl1) as (nl & Hnl & Hof).
    exists nl. split; [exact Hnl|]. now apply set_input_nodes_layer_of.
Qed.

(** X10. A circuit that [MLP_Circuit.new] returns has one hardware layer
    per network layer, in order: layer [k] carries the number [k], the
    sizes and [max_weight] of network layer [k], and the output nodes
    [Neuron_k_0_out], [Neuron_k_1_out], ...; layer 0 reads the nodes
    [Synapse_0_0_in], ... and every later layer reads the output nodes
    of the layer before it. *)
Theorem circuit_wiring (network : list NeuronLayer.t) (rng rng' : Random.t)
    (c : MLP_Circuit.t) :
  MLP_Circuit.new network rng = Ok (c, rng') ->
  length (MLP_Circuit.hardware_layers c) = length network /\
  forall (k : nat) (l : MLP_Circuit_Layer.t),
    MLP_Circuit.hardware_layers c !! k = Some l ->
    (exists nl, network !! k = Some nl /\ layer_of nl k l) /\
    MLP_Circuit_Layer.input_nodes l =
      match k with
      | O => Some (map (MLP_Circuit_Layer.synapse_in_name 0)
                     (range0 (MLP_Circuit_Layer.inputs_per_neuron l)))
      | S k' => option_map MLP_Circuit_Layer.output_nodes
                  (MLP_Circuit.hardware_layers c !! k')
      end.
Proof.
  unfold MLP_Circuit.new, MLP_Circuit.initialize_hardware_layers.
  destruct (MLP_Circuit.build_layers network 0 None _r_total_ohms _)
    as [[layers st]|e] eqn:Hbuild; [|discriminate].
  cbn [bind fst snd]. intros [= <- _]. cbn [MLP_Circuit.hardware_layers].
  destruct (build_layers_fields _ _ _ _ _ _ _ Hbuild) as [Hall Hlk].
  pose proof (Forall2_length _ _ _ Hall) as Hlen.
  destruct layers as [|l0 ls].
  - split; [now rewrite <- Hlen|]. intros k l Hk. discriminate.
  - assert (Hrl : length (MLP_Circuit.relink l0 ls) = length ls).
    { pose proof (relink_pots l0 ls) as E.
      apply (f_equal length) in E. now rewrite !length_map in E. }
    split; [cbn [length] in *; rewrite Hrl; lia|].
    intros [|k] l Hk.
    + injection Hk as <-. split; [exact (Hlk 0%nat l0 eq_refl)|].
      exact (build_layers_first _ _ _ _ _ _ _ Hbuild).
    + cbn in Hk. destruct (relink_lookup ls l0 k l Hk) as (l1 & Hl1 & ->).
      split; [|reflexivity].
      destruct (Hlk (S k) l1 Hl1) as (nl & Hnl & Hof).
      exists nl. split; [exact Hnl|].
      now apply set_input_nodes_layer_of.
Qed.

Lemma circuit_wiring_witness :
  exists c rng',
    MLP_Circuit.new network_2_2 rng_mid = Ok (c, rng') /\
    length (MLP_Circuit.hardware_layers c) = 2%nat.
Proof.
  let r := eval vm_compute in (MLP_Circuit.new network_2_2 rng_mid) in
  match r with
  | Ok (?c, ?st) =>
      assert (Hnew : MLP_Circuit.new network_2_2 rng_mid = Ok (c, st))
        by (vm_compute; reflexivity);
      exists c, st; split; [exact Hnew|];
      exact (proj1 (circuit_wiring network_2_2 rng_mid st c Hnew))
  end.
Defined.

(** ** Node names *)

Lemma pretty_N_char_digit (x : N) : is_digit (pretty_N_char x) = true.
Proof. unfold pretty_N_char. repeat case_match; reflexivity. Qed.

Lemma pretty_N_go_digits (x : N) :
  forall s, every is_digit s = true -> every is_digit (pretty_N_go x s) = true.
Proof.
  induction (N.lt_wf_0 x) as [x _ IH]; intros s Hs.
  destruct (N.eq_dec x 0%N) as [->|Hx].
  - now rewrite pretty_N_go_0.
  - rewrite pretty_N_go_step by lia.
    apply IH; [apply N.div_lt; lia|].
    cbn [every]. now rewrite pretty_N_char_digit, Hs.
Qed.

(** The decimal rendering of a number consists of digits. *)
Lemma pretty_nat_digits (n : nat) : every is_digit (pretty n) = true.
Proof.
  unfold pretty, pretty_nat, pretty, pretty_N.
  destruct (decide (N.of_nat n = 0%N)); [reflexivity|].
  now apply pretty_N_go_digits.
Qed.

Lemma append_inj_l (s a b : string) : s +:+ a = s +:+ b -> a = b.
Proof.
  induction s as [|c s IH]; [easy|]. cbn. intros [= H]. now apply IH.
Qed.

(** Two strings of digits followed by an underscore: the underscore
    splits them in one way only. *)
Lemma split_at_underscore (s1 : string) :
  forall (s2 r1 r2 : string),
    every is_digit s1 = true -> every is_digit s2 = true ->
    s1 +:+ String "_" r1 = s2 +:+ String "_" r2 ->
    s1 = s2 /\ r1 = r2.
Proof.
  induction s1 as [|c1 s1 IH]; intros [|c2 s2] r1 r2 H1 H2; cbn.
  - intros [= ->]. split; reflexivity.
  - intros [= <- _]. cbn in H2. discriminate.
  - intros [= -> _]. cbn in H1. discriminate.
  - intros [= -> H]. cbn in H1, H2.
    apply andb_prop in H1 as [_ H1]. apply andb_prop in H2 as [_ H2].
    destruct (IH s2 r1 r2 H1 H2 H) as [-> ->]. split; reflexivity.
Qed.

Lemma neuron_out_name_inj (k1 x1 k2 x2 : nat) :
  MLP_Circuit_Layer.neuron_out_name k1 x1 = MLP_Circuit_Layer.neuron_out_name k2 x2 ->
  k1 = k2 /\ x1 = x2.
Proof.
  unfold MLP_Circuit_Layer.neuron_out_name. intros H.
  apply (append_inj_l "Neuron_") in H.
  change ("_" +:+ ?r) with (String "_" r) in H.
  assert (H' : pretty k1 +:+ String "_" (pretty x1 +:+ "_out")
               = pretty k2 +:+ String "_" (pretty x2 +:+ "_out")) by exact H.
  destruct (split_at_underscore _ _ _ _ (pretty_nat_digits k1)
              (pretty_nat_digits k2) H') as [Hk Hx].
  assert (Hx' : pretty x1 +:+ String "_" "out" = pretty x2 +:+ String "_" "out")
    by exact Hx.
  destruct (split_at_underscore _ _ _ _ (pretty_nat_digits x1)
              (pretty_nat_digits x2) Hx') as [Hx1 _].
  split; [exact (pretty_nat_inj _ _ Hk) | exact (pretty_nat_inj _ _ Hx1)].
Qed.

Lemma output_node_name (nl : NeuronLayer.t) (k : nat)
    (l : MLP_Circuit_Layer.t) (x : nat) (name : string) :
  layer_of nl k l ->
  MLP_Circuit_Layer.output_nodes l !! x = Some name ->
  name = MLP_Circuit_Layer.neuron_out_name k x /\
  (x < MLP_Circuit_Layer.neuron_count l)%nat.
Proof.
  intros (_ & Hnc & _ & _ & _ & Hout) Hx. rewrite Hout in Hx.
  rewrite list_lookup_fmap in Hx. unfold range0 in Hx.
  destruct (seq 0 (NeuronLayer.neuron_count nl) !! x) as [y|] eqn:Hy;
    [|discriminate].
  apply lookup_seq in Hy as [-> Hlt]. injection Hx as <-.
  split; [reflexivity | now rewrite Hnc].
Qed.

(** X11. In a circuit that [MLP_Circuit.new] returns, no output node
    name occurs twice: the node of neuron [x] of layer [k] is
    [Neuron_k_x_out], and a name determines its layer and its neuron. *)
Theorem output_nodes_distinct (network : list NeuronLayer.t)
    (rng rng' : Random.t) (c : MLP_Circuit.t)
    (k1 k2 x1 x2 : nat) (l1 l2 : MLP_Circuit_Layer.t) (name : string) :
  MLP_Circuit.new network rng = Ok (c, rng') ->
  MLP_Circuit.hardware_layers c !! k1 = Some l1 ->
  MLP_Circuit.hardware_layers c !! k2 = Some l2 ->
  MLP_Circuit_Layer.output_nodes l1 !! x1 = Some name ->
  MLP_Circuit_Layer.output_nodes l2 !! x2 = Some name ->
  name = MLP_Circuit_Layer.neuron_out_name k1 x1 /\ k1 = k2 /\ x1 = x2.
Proof.
  intros Hnew Hl1 Hl2 Hx1 Hx2.
  destruct (hardware_layer_of _ _ _ _ _ _ Hnew Hl1) as (nl1 & _ & Hof1).
  destruct (hardware_layer_of _ _ _ _ _ _ Hnew Hl2) as (nl2 & _ & Hof2).
  destruct (output_node_name _ _ _ _ _ Hof1 Hx1) as [E1 _].
  destruct (output_node_name _ _ _ _ _ Hof2 Hx2) as [E2 _].
  split; [exact E1|].
  apply neuron_out_name_inj. congruence.
Qed.

Lemma output_nodes_distinct_witness :
  exists c rng' l0 l1,
    MLP_Circuit.new network_2_2 rng_mid = Ok (c, rng') /\
    MLP_Circuit.hardware_layers c !! 0%nat = Some l0 /\
    MLP_Circuit.hardware_layers c !! 1%nat = Some l1 /\
    MLP_Circuit_Layer.output_nodes l1 !! 1%nat = Some "Neuron_1_1_out"%string /\
    "Neuron_1_1_out"%string = MLP_Circuit_Layer.neuron_out_name 1 1.
Proof.
  let r := eval vm_compute in (MLP_Circuit.new network_2_2 rng_mid) in
  match r with
  | Ok (?c, ?st) =>
      let a := eval vm_compute in (MLP_Circuit.hardware_layers c !! 0%nat) in
      let b := eval vm_compute in (MLP_Circuit.hardware_layers c !! 1%nat) in
      match a with
      | Some ?l0 =>
          match b with
          | Some ?l1 =>
              assert (Hnew : MLP_Circuit.new network_2_2 rng_mid = Ok (c, st))
                by (vm_compute; reflexivity);
              assert (H1 : MLP_Circuit.hardware_layers c !! 1%nat = Some l1)
                by (vm_compute; reflexivity);
              assert (Hx : MLP_Circuit_Layer.output_nodes l1 !! 1%nat
                           = Some "Neuron_1_1_out"%string)
                by (vm_compute; reflexivity);
              exists c, st, l0, l1;
              split; [exact Hnew|];
              split; [vm_compute; reflexivity|];
              split; [exact H1|];
              split; [exact Hx|];
              exact (proj1 (output_nodes_distinct network_2_2 rng_mid st c
                              1 1 1 1 l1 l1 "Neuron_1_1_out" Hnew H1 H1 Hx Hx))
          end
      end
  end.
Defined.

(** ** get_outputs: when it succeeds *)

Lemma parsed_iff (nodes : list string) (log : string) :
  status (MLP_Circuit.layer_voltages nodes log) = Parsed <->
  Forall (fun n => exists v, measured log n = Some v) nodes.
Proof.
  induction nodes as [|n nodes IH].
  - split; [constructor | reflexivity].
  - rewrite layer_voltages_cons. unfold measured at 1.
    destruct (Re.search (output_pattern n) log) as [caps|] eqn:Hs.
    + destruct (float (Re.group caps 2)) as [v|e] eqn:Hf; cbn [bind].
      * destruct (MLP_Circuit.layer_voltages nodes log) as [[vs|]|e];
          cbn [bind option_map status] in *; split.
        -- intros _. constructor; [|now apply IH].
           exists v. unfold measured. now rewrite Hs, Hf.
        -- reflexivity.
        -- discriminate.
        -- intros H. apply Forall_cons in H as [_ H]. now apply IH in H.
        -- discriminate.
        -- intros H. apply Forall_cons in H as [_ H]. now apply IH in H.
      * split; [discriminate|].
        intros H. apply Forall_cons in H as [[v Hv] _].
        unfold measured in Hv. rewrite Hs, Hf in Hv. discriminate.
    + split; [discriminate|].
      intros H. apply Forall_cons in H as [[v Hv] _].
      unfold measured in Hv. rewrite Hs in Hv. discriminate.
Qed.

Lemma homogeneous_iff (rows : list (list Q)) :
  MLP_Circuit.homogeneous rows = true <->
  forall a b, In a (map length rows) -> In b (map length rows) -> a = b.
Proof.
  destruct rows as [|row rows]; cbn [MLP_Circuit.homogeneous map].
  - split; [intros _ a b [] | reflexivity].
  - rewrite forallb_forall. split.
    + intros H.
      assert (Hall : forall a, In a (length row :: map length rows) ->
                               a = length row).
      { intros a [<-|Ha]; [reflexivity|].
        apply in_map_iff in Ha as (r & <- & Hr).
        now apply Nat.eqb_eq, H. }
      intros a b Ha Hb. now rewrite (Hall a Ha), (Hall b Hb).
    + intros H r Hr. apply Nat.eqb_eq.
      apply H; [right; now apply in_map | now left].
Qed.

(** A parse that succeeds yields one row per layer, each as long as
    the list of output nodes of its layer. *)
Lemma layers_outputs_widths (c : MLP_Circuit.t)
    (layers : list MLP_Circuit_Layer.t) (log : string)
    (outs : list (list Q)) :
  MLP_Circuit.layers_outputs c layers log = Ok (Some outs) ->
  map length outs = widths layers.
Proof.
  intros H. apply layers_outputs_parsed in H.
  induction H as [|l row layers outs Hrow _ IH]; [reflexivity|].
  cbn [map widths]. f_equal; [|exact IH].
  symmetry. exact (Forall2_length _ _ _ Hrow).
Qed.

(** X12. [get_outputs] returns a result exactly when every output node
    of every layer yields a voltage (its pattern is found in the log
    and [float] accepts the text matched) and all layers have the same
    number of output nodes.  When every node yields a voltage and two
    layers differ in width, the final [numpy.asarray] raises
    [ValueError]. *)
Theorem get_outputs_succeeds_iff (c : MLP_Circuit.t) (log : string) :
  ((exists outs, MLP_Circuit.get_outputs c (Some log) = Ok (true, Some outs)) <->
   Forall (fun n => exists v, measured log n = Some v) (expected_nodes c) /\
   same_width (MLP_Circuit.hardware_layers c))
  /\
  (Forall (fun n => exists v, measured log n = Some v) (expected_nodes c) ->
   ~ same_width (MLP_Circuit.hardware_layers c) ->
   MLP_Circuit.get_outputs c (Some log) = Raise ValueError).
Proof.
  rewrite <- parsed_iff. unfold expected_nodes, same_width.
  rewrite <- (layers_outputs_status c). rewrite get_outputs_status.
  destruct (MLP_Circuit.layers_outputs c (MLP_Circuit.hardware_layers c) log)
    as [[outs|]|e] eqn:Hl; cbn [status].
  - rewrite <- (layers_outputs_widths _ _ _ _ Hl), <- homogeneous_iff.
    destruct (MLP_Circuit.homogeneous outs); split.
    + split; [intros _; split; reflexivity | intros _; now exists outs].
    + intros _ H. now contradiction H.
    + split; [intros [o Ho]; discriminate | intros [_ H]; discriminate].
    + reflexivity.
  - split; [|discriminate].
    split; [intros [o Ho]; discriminate | intros [H _]; discriminate].
  - split; [|discriminate].
    split; [intros [o Ho]; discriminate | intros [H _]; discriminate].
Qed.

Lemma get_outputs_succeeds_iff_witness :
  exists c st,
    MLP_Circuit.new network_2_1 rng_mid = Ok (c, st) /\
    widths (MLP_Circuit.hardware_layers c) = [2; 1]%nat /\
    MLP_Circuit.get_outputs c (Some log_2_1) = Raise ValueError.
Proof.
  let r := eval vm_compute in (MLP_Circuit.new network_2_1 rng_mid) in
  match r with
  | Ok (?c, ?st) =>
      assert (Hw : widths (MLP_Circuit.hardware_layers c) = [2; 1]%nat)
        by (vm_compute; reflexivity);
      assert (Hall : Forall (fun n => exists v, measured log_2_1 n = Some v)
                       (expected_nodes c))
        by (repeat constructor; eexists; vm_compute; reflexivity);
      assert (Hdiff : ~ same_width (MLP_Circuit.hardware_layers c))
        by (unfold same_width; rewrite Hw; intros H;
            specialize (H 2%nat 1%nat (or_introl eq_refl)
                          (or_intror (or_introl eq_refl)));
            discriminate H);
      exists c, st;
      split; [vm_compute; reflexivity|];
      split; [exact Hw|];
      exact (proj2 (get_outputs_succeeds_iff c log_2_1) Hall Hdiff)
  end.
Defined.

(** ** think: the attempts *)

Section Attempts.

Variable Netlist : Type.
Variable ltspice : nat -> Netlist -> Res (option string).

(** The first parse that succeeds ends the loop. *)
Lemma attempt_loop_success (c : MLP_Circuit.t) (net : Netlist) (k : nat) :
  forall (n : nat) (w : MLP_Circuit.World) (o outs : option (list (list Q)))
         (file : option string),
    (k < n)%nat ->
    (forall j, (j < k)%nat ->
       exists log,
         ltspice (MLP_Circuit.invocations w + j)%nat net = Ok (Some log) /\
         MLP_Circuit.get_outputs c (Some log) = Ok (false, None)) ->
    ltspice (MLP_Circuit.invocations w + k)%nat net = Ok file ->
    MLP_Circuit.get_outputs c file = Ok (true, outs) ->
    MLP_Circuit.attempt_loop Netlist ltspice c net n false o w =
      Ok (outs, {| MLP_Circuit.invocations := S (MLP_Circuit.invocations w + k);
                   MLP_Circuit.result_file := file |}).
Proof.
  induction k as [|k IH]; intros n w o outs file Hn Hfail Hrun Hparse.
  - destruct n as [|n]; [lia|].
    rewrite Nat.add_0_r in *.
    cbn [MLP_Circuit.attempt_loop]. unfold MLP_Circuit.run_simulation.
    rewrite Hrun. cbn [bind MLP_Circuit.result_file]. rewrite Hparse.
    cbn [bind fst snd]. destruct n; reflexivity.
  - destruct n as [|n]; [lia|].
    destruct (Hfail 0%nat ltac:(lia)) as (log & Hrun0 & Hparse0).
    rewrite Nat.add_0_r in Hrun0.
    cbn [MLP_Circuit.attempt_loop]. unfold MLP_Circuit.run_simulation.
    rewrite Hrun0. cbn [bind MLP_Circuit.result_file]. rewrite Hparse0.
    cbn [bind fst snd].
    rewrite (IH n _ None outs file); cbn [MLP_Circuit.invocations].
    + do 3 f_equal. lia.
    + lia.
    + intros j Hj. destruct (Hfail (S j) ltac:(lia)) as (log' & H1 & H2).
      exists log'. split; [|exact H2].
      now replace (S (MLP_Circuit.invocations w) + j)%nat
        with (MLP_Circuit.invocations w + S j)%nat by lia.
    + now replace (S (MLP_Circuit.invocations w) + k)%nat
        with (MLP_Circuit.invocations w + S k)%nat by lia.
    + exact Hparse.
Qed.

(** An exception of the simulator or of the parse ends the loop. *)
Lemma attempt_loop_raises (c : MLP_Circuit.t) (net : Netlist) (k : nat)
    (e : PyExc) :
  forall (n : nat) (w : MLP_Circuit.World) (o : option (list (list Q))),
    (k < n)%nat ->
    (forall j, (j < k)%nat ->
       exists log,
         ltspice (MLP_Circuit.invocations w + j)%nat net = Ok (Some log) /\
         MLP_Circuit.get_outputs c (Some log) = Ok (false, None)) ->
    (ltspice (MLP_Circuit.invocations w + k)%nat net = Raise e \/
     exists file,
       ltspice (MLP_Circuit.invocations w + k)%nat net = Ok file /\
       MLP_Circuit.get_outputs c file = Raise e) ->
    MLP_Circuit.attempt_loop Netlist ltspice c net n false o w = Raise e.
Proof.
  induction k as [|k IH]; intros n w o Hn Hfail Hbad.
  - destruct n as [|n]; [lia|].
    rewrite Nat.add_0_r in *.
    cbn [MLP_Circuit.attempt_loop]. unfold MLP_Circuit.run_simulation.
    destruct Hbad as [Hrun|(file & Hrun & Hparse)]; rewrite Hrun;
      cbn [bind MLP_Circuit.result_file]; [reflexivity|].
    now rewrite Hparse.
  - destruct n as [|n]; [lia|].
    destruct (Hfail 0%nat ltac:(lia)) as (log & Hrun0 & Hparse0).
    rewrite Nat.add_0_r in Hrun0.
    cbn [MLP_Circuit.attempt_loop]. unfold MLP_Circuit.run_simulation.
    rewrite Hrun0. cbn [bind MLP_Circuit.result_file]. rewrite Hparse0.
    cbn [bind fst snd].
    apply IH; cbn [MLP_Circuit.invocations].
    + lia.
    + intros j Hj. destruct (Hfail (S j) ltac:(lia)) as (log' & H1 & H2).
      exists log'. split; [|exact H2].
      now replace (S (MLP_Circuit.invocations w) + j)%nat
        with (MLP_Circuit.invocations w + S j)%nat by lia.
    + now replace (S (MLP_Circuit.invocations w) + k)%nat
        with (MLP_Circuit.invocations w + S k)%nat by lia.
Qed.

(** Whatever the simulator does, a loop that returns has made between
    one run and as many runs as it had attempts; it returns what the
    parse of the last result file gave. *)
Lemma attempt_loop_returns (c : MLP_Circuit.t) (net : Netlist) (n : nat) :
  forall (w w' : MLP_Circuit.World) (o r : option (list (list Q))),
    (0 < n)%nat ->
    MLP_Circuit.attempt_loop Netlist ltspice c net n false o w = Ok (r, w') ->
    (MLP_Circuit.invocations w < MLP_Circuit.invocations w'
     <= MLP_Circuit.invocations w + n)%nat /\
    ((MLP_Circuit.get_outputs c (MLP_Circuit.result_file w') = Ok (true, r)) \/
     (MLP_Circuit.get_outputs c (MLP_Circuit.result_file w') = Ok (false, r) /\
      MLP_Circuit.invocations w' = (MLP_Circuit.invocations w + n)%nat)).
Proof.
  induction n as [|n IH]; intros w w' o r Hn; [lia|].
  cbn [MLP_Circuit.attempt_loop]. unfold MLP_Circuit.run_simulation.
  destruct (ltspice (MLP_Circuit.invocations w) net) as [file|e];
    [|discriminate].
  cbn [bind MLP_Circuit.result_file].
  destruct (MLP_Circuit.get_outputs c file) as [[success outs]|e] eqn:Hparse;
    [|discriminate].
  cbn [bind fst snd].
  destruct n as [|n].
  - cbn [MLP_Circuit.attempt_loop]. intros [= <- <-].
    cbn [MLP_Circuit.invocations MLP_Circuit.result_file].
    split; [lia|].
    destruct success; [left | right]; [exact Hparse|].
    split; [exact Hparse | lia].
  - destruct success.
    + cbn [MLP_Circuit.attempt_loop]. intros [= <- <-].
      cbn [MLP_Circuit.invocations MLP_Circuit.result_file].
      split; [lia|]. left. exact Hparse.
    + intros Hloop.
      destruct (IH _ _ _ _ ltac:(lia) Hloop) as [Hinv Hres].
      cbn [MLP_Circuit.invocations] in *.
      split; [lia|].
      destruct Hres as [Hres|[Hres Hcount]]; [left; exact Hres|].
      right. split; [exact Hres | lia].
Qed.

End Attempts.

Lemma get_outputs_false (c : MLP_Circuit.t) (file : option string)
    (r : option (list (list Q))) :
  MLP_Circuit.get_outputs c file = Ok (false, r) -> r = None.
Proof.
  destruct file as [log|]; [|discriminate]. rewrite get_outputs_status.
  destruct (MLP_Circuit.layers_outputs c (MLP_Circuit.hardware_layers c) log)
    as [[outs|]|e]; [| | discriminate].
  - destruct (MLP_Circuit.homogeneous outs); discriminate.
  - now intros [= <-].
Qed.

Lemma get_outputs_true (c : MLP_Circuit.t) (file : option string)
    (r : option (list (list Q))) :
  MLP_Circuit.get_outputs c file = Ok (true, r) -> exists outs, r = Some outs.
Proof.
  destruct file as [log|]; [|discriminate]. rewrite get_outputs_status.
  destruct (MLP_Circuit.layers_outputs c (MLP_Circuit.hardware_layers c) log)
    as [[outs|]|e]; [| discriminate | discriminate].
  destruct (MLP_Circuit.homogeneous outs); [|discriminate].
  intros [= <-]. now exists outs.
Qed.

(** X13. If the first [k < 5] runs leave logs on which the parse fails
    and the next run leaves one that parses, [think] returns the values
    of that log after exactly [k + 1] runs of the simulator, all on the
    one netlist written before the first run. *)
Theorem think_returns_first_parse (Netlist : Type)
    (create_netlist : MLP_Circuit.t -> Res Netlist)
    (ltspice : nat -> Netlist -> Res (option string))
    (c : MLP_Circuit.t) (inputs : list Q) (w : MLP_Circuit.World)
    (layers : list MLP_Circuit_Layer.t) (net : Netlist)
    (k : nat) (file : option string) (outs : list (list Q)) :
  MLP_Circuit.update_layers
    (MLP_Circuit.hardware_layers (MLP_Circuit.update_input_sources c inputs))
    = Ok layers ->
  create_netlist (synced c inputs layers) = Ok net ->
  (k < 5)%nat ->
  (forall j, (j < k)%nat ->
     exists log,
       ltspice (MLP_Circuit.invocations w + j)%nat net = Ok (Some log) /\
       MLP_Circuit.get_outputs (synced c inputs layers) (Some log)
         = Ok (false, None)) ->
  ltspice (MLP_Circuit.invocations w + k)%nat net = Ok file ->
  MLP_Circuit.get_outputs (synced c inputs layers) file = Ok (true, Some outs) ->
  MLP_Circuit.think Netlist create_netlist ltspice c inputs w =
    Ok (Some outs,
        (synced c inputs layers,
         {| MLP_Circuit.invocations := S (MLP_Circuit.invocations w + k);
            MLP_Circuit.result_file := file |})).
Proof.
  intros Hupd Hnet Hk Hfail Hrun Hparse.
  unfold MLP_Circuit.think. rewrite Hupd. cbn [bind].
  fold (synced c inputs layers). rewrite Hnet. cbn [bind].
  rewrite (attempt_loop_success Netlist ltspice _ net k 5 w None (Some outs)
             file Hk Hfail Hrun Hparse).
  reflexivity.
Qed.

Lemma think_returns_first_parse_witness :
  exists c st c' outs,
    MLP_Circuit.new [net_2x2] rng_mid = Ok (c, st) /\
    MLP_Circuit.think unit (fun _ => Ok tt) sim_third_time c [1; - (1)] world0
    = Ok (Some outs,
          (c', {| MLP_Circuit.invocations := 3;
                  MLP_Circuit.result_file := Some log_rails |})).
Proof.
  let r := eval vm_compute in (MLP_Circuit.new [net_2x2] rng_mid) in
  match r with
  | Ok (?c, ?st) =>
      let u := eval vm_compute in
                 (MLP_Circuit.update_layers
                    (MLP_Circuit.hardware_layers
                       (MLP_Circuit.update_input_sources c [1; - (1)]))) in
      match u with
      | Ok ?layers =>
          let o := eval vm_compute in
                     (MLP_Circuit.get_outputs (synced c [1; - (1)] layers)
                        (Some log_rails)) in
          match o with
          | Ok (true, Some ?outs) =>
              assert (Hnew : MLP_Circuit.new [net_2x2] rng_mid = Ok (c, st))
                by (vm_compute; reflexivity);
              assert (Hupd : MLP_Circuit.update_layers
                               (MLP_Circuit.hardware_layers
                                  (MLP_Circuit.update_input_sources c [1; - (1)]))
                             = Ok layers)
                by (vm_compute; reflexivity);
              assert (Hparse : MLP_Circuit.get_outputs
                                 (synced c [1; - (1)] layers) (Some log_rails)
                               = Ok (true, Some outs))
                by (vm_compute; reflexivity);
              assert (Hfail : forall j, (j < 2)%nat ->
                        exists log,
                          sim_third_time (MLP_Circuit.invocations world0 + j)%nat tt
                            = Ok (Some log) /\
                          MLP_Circuit.get_outputs (synced c [1; - (1)] layers)
                            (Some log) = Ok (false, None))
                by (intros j Hj; exists log_empty;
                    split; [destruct j as [|[|j]]; [reflexivity | reflexivity | lia]
                           | vm_compute; reflexivity]);
              exists c, st, (synced c [1; - (1)] layers), outs;
              split; [exact Hnew|];
              exact (think_returns_first_parse unit (fun _ => Ok tt)
                       sim_third_time c [1; - (1)] world0 layers tt 2
                       (Some log_rails) outs Hupd eq_refl
                       ltac:(lia) Hfail eq_refl Hparse)
          end
      end
  end.
Defined.

(** X14. Whatever the simulator does, a call of [think] that returns has
    run it at least once and at most five times.  A tensor returned is
    what [get_outputs] reads from the result file as the last run left
    it; [None] is returned only after five runs, the last parse having
    failed. *)
Theorem think_bounded (Netlist : Type)
    (create_netlist : MLP_Circuit.t -> Res Netlist)
    (ltspice : nat -> Netlist -> Res (option string))
    (c c' : MLP_Circuit.t) (inputs : list Q) (w w' : MLP_Circuit.World)
    (r : option (list (list Q))) :
  MLP_Circuit.think Netlist create_netlist ltspice c inputs w = Ok (r, (c', w')) ->
  (MLP_Circuit.invocations w < MLP_Circuit.invocations w'
   <= MLP_Circuit.invocations w + 5)%nat /\
  match r with
  | Some outs =>
      MLP_Circuit.get_outputs c' (MLP_Circuit.result_file w') = Ok (true, Some outs)
  | None =>
      MLP_Circuit.get_outputs c' (MLP_Circuit.result_file w') = Ok (false, None) /\
      MLP_Circuit.invocations w' = (MLP_Circuit.invocations w + 5)%nat
  end.
Proof.
  unfold MLP_Circuit.think.
  destruct (MLP_Circuit.update_layers _) as [layers|e]; [|discriminate].
  cbn [bind].
  destruct (create_netlist _) as [net|e]; [|discriminate].
  cbn [bind].
  destruct (MLP_Circuit.attempt_loop _ _ _ _ _ _ _ _) as [[r0 w0]|e] eqn:Hloop;
    [|discriminate].
  cbn [bind fst snd]. intros [= <- <- <-].
  destruct (attempt_loop_returns Netlist ltspice _ net 5 w w0 None r0
              ltac:(lia) Hloop) as [Hinv Hres].
  split; [exact Hinv|].
  destruct Hres as [Hres|[Hres Hcount]].
  - destruct (get_outputs_true _ _ _ Hres) as [outs ->]. exact Hres.
  - pose proof (get_outputs_false _ _ _ Hres) as ->. split; assumption.
Qed.

Lemma think_bounded_witness :
  exists c st c' w' outs,
    MLP_Circuit.new [net_2x2] rng_mid = Ok (c, st) /\
    MLP_Circuit.think unit (fun _ => Ok tt) sim_third_time c [1; - (1)] world0
    = Ok (Some outs, (c', w')) /\
    (0 < MLP_Circuit.invocations w' <= 5)%nat.
Proof.
  let r := eval vm_compute in (MLP_Circuit.new [net_2x2] rng_mid) in
  match r with
  | Ok (?c, ?st) =>
      let t := eval vm_compute in
                 (MLP_Circuit.think unit (fun _ => Ok tt) sim_third_time c
                    [1; - (1)] world0) in
      match t with
      | Ok (Some ?outs, (?c', ?w')) =>
          assert (Hnew : MLP_Circuit.new [net_2x2] rng_mid = Ok (c, st))
            by (vm_compute; reflexivity);
          assert (Hthink : MLP_Circuit.think unit (fun _ => Ok tt)
                             sim_third_time c [1; - (1)] world0
                           = Ok (Some outs, (c', w')))
            by (vm_compute; reflexivity);
          exists c, st, c', w', outs;
          split; [exact Hnew|]; split; [exact Hthink|];
          exact (proj1 (think_bounded unit (fun _ => Ok tt) sim_third_time
                          c c' [1; - (1)] world0 w' (Some outs) Hthink))
      end
  end.
Defined.

(** X15. [think] retries a failed parse and nothing else: if, after
    [k < 5] runs with a failed parse, the simulator exits with a
    non-zero status, or [get_outputs] raises on the result file, that
    exception ends the call. *)
Theorem think_propagates (Netlist : Type)
    (create_netlist : MLP_Circuit.t -> Res Netlist)
    (ltspice : nat -> Netlist -> Res (option string))
    (c : MLP_Circuit.t) (inputs : list Q) (w : MLP_Circuit.World)
    (layers : list MLP_Circuit_Layer.t) (net : Netlist)
    (k : nat) (e : PyExc) :
  MLP_Circuit.update_layers
    (MLP_Circuit.hardware_layers (MLP_Circuit.update_input_sources c inputs))
    = Ok layers ->
  create_netlist (synced c inputs layers) = Ok net ->
  (k < 5)%nat ->
  (forall j, (j < k)%nat ->
     exists log,
       ltspice (MLP_Circuit.invocations w + j)%nat net = Ok (Some log) /\
       MLP_Circuit.get_outputs (synced c inputs layers) (Some log)
         = Ok (false, None)) ->
  (ltspice (MLP_Circuit.invocations w + k)%nat net = Raise e \/
   exists file,
     ltspice (MLP_Circuit.invocations w + k)%nat net = Ok file /\
     MLP_Circuit.get_outputs (synced c inputs layers) file = Raise e) ->
  MLP_Circuit.think Netlist create_netlist ltspice c inputs w = Raise e.
Proof.
  intros Hupd Hnet Hk Hfail Hbad.
  unfold MLP_Circuit.think. rewrite Hupd. cbn [bind].
  fold (synced c inputs layers). rewrite Hnet. cbn [bind].
  now rewrite (attempt_loop_raises Netlist ltspice _ net k e 5 w None Hk Hfail Hbad).
Qed.

Lemma think_propagates_witness :
  exists c st,
    MLP_Circuit.new [net_2x2] rng_mid = Ok (c, st) /\
    MLP_Circuit.think unit (fun _ => Ok tt) sim_crash c [1; - (1)] world0
    = Raise CalledProcessError.
Proof.
  let r := eval vm_compute in (MLP_Circuit.new [net_2x2] rng_mid) in
  match r with
  | Ok (?c, ?st) =>
      let u := eval vm_compute in
                 (MLP_Circuit.update_layers
                    (MLP_Circuit.hardware_layers
                       (MLP_Circuit.update_input_sources c [1; - (1)]))) in
      match u with
      | Ok ?layers =>
          assert (Hnew : MLP_Circuit.new [net_2x2] rng_mid = Ok (c, st))
            by (vm_compute; reflexivity);
          assert (Hupd : MLP_Circuit.update_layers
                           (MLP_Circuit.hardware_layers
                              (MLP_Circuit.update_input_sources c [1; - (1)]))
                         = Ok layers)
            by (vm_compute; reflexivity);
          assert (Hfail : forall j, (j < 1)%nat ->
                    exists log,
                      sim_crash (MLP_Circuit.invocations world0 + j)%nat tt
                        = Ok (Some log) /\
                      MLP_Circuit.get_outputs (synced c [1; - (1)] layers)
                        (Some log) = Ok (false, None))
            by (intros j Hj; exists log_empty;
                split; [destruct j as [|j]; [reflexivity | lia]
                       | vm_compute; reflexivity]);
          exists c, st; split; [exact Hnew|];
          exact (think_propagates unit (fun _ => Ok tt) sim_crash c [1; - (1)]
                   world0 layers tt 1 CalledProcessError Hupd eq_refl
                   ltac:(lia) Hfail (or_introl eq_refl))
      end
  end.
Defined.

(** ** MLP_Circuit: the first inference after construction *)

Lemma pot_sound_well_formed (lo hi taps : Z) (p : DigitalPot.t) :
  (2 <= taps)%Z -> pot_sound lo hi taps p -> well_formed p.
Proof. intros Ht (Htap & Hm & _). split; [exact Hm | lia]. Qed.

Lemma update_set_input_nodes (v : option (list string))
    (l l' : MLP_Circuit_Layer.t) :
  MLP_Circuit_Layer.update_synapse_weights l = Ok l' ->
  MLP_Circuit_Layer.update_synapse_weights (MLP_Circuit_Layer.set_input_nodes v l)
  = Ok (MLP_Circuit_Layer.set_input_nodes v l').
Proof.
  rewrite !update_after_push.
  change (MLP_Circuit_Layer.push_weights (MLP_Circuit_Layer.set_input_nodes v l))
    with (MLP_Circuit_Layer.push_weights l).
  destruct (MLP_Circuit_Layer.push_weights l) as [pots|e]; [|discriminate].
  cbn [bind]. intros [= <-]. reflexivity.
Qed.

Lemma update_layers_fixed (layers : list MLP_Circuit_Layer.t) :
  Forall (fun l => MLP_Circuit_Layer.update_synapse_weights l = Ok l) layers ->
  MLP_Circuit.update_layers layers = Ok layers.
Proof.
  induction 1 as [|l ls Hl _ IH]; [reflexivity|].
  cbn [MLP_Circuit.update_layers]. rewrite Hl. cbn [bind]. now rewrite IH.
Qed.

Lemma relink_fixed (layers : list MLP_Circuit_Layer.t) :
  forall prev,
    Forall (fun l => MLP_Circuit_Layer.update_synapse_weights l = Ok l) layers ->
    Forall (fun l => MLP_Circuit_Layer.update_synapse_weights l = Ok l)
      (MLP_Circuit.relink prev layers).
Proof.
  induction layers as [|l ls IH]; intros prev H; [constructor|].
  apply Forall_cons in H as [Hl Hls].
  cbn [MLP_Circuit.relink]. constructor.
  - now apply update_set_input_nodes.
  - now apply IH.
Qed.

Section Synced.

Variables lo hi taps : Z.
Hypothesis lo_positive : (0 < lo)%Z.
Hypothesis taps_two : (2 <= taps)%Z.

(** A layer that the constructor returns is a fixed point of the
    update. *)
Lemma layer_new_fixed (nl : NeuronLayer.t) (inputs : option (list string))
    (number : nat) (r_total : Q) (f : DigitalPotFactory.t) (rng : Random.t)
    (st' : DigitalPotFactory.t * Random.t) (l : MLP_Circuit_Layer.t) :
  shaped (NeuronLayer.neuron_count nl) (NeuronLayer.inputs_per_neuron nl)
    (NeuronLayer.synaptic_weights nl) ->
  factory_sound lo hi taps f ->
  MLP_Circuit_Layer.new nl inputs number r_total (f, rng) = Ok (l, st') ->
  MLP_Circuit_Layer.update_synapse_weights l = Ok l.
Proof.
  intros Hw Hf. unfold MLP_Circuit_Layer.new.
  destruct (comprehension _ _ (f, rng)) as [[pots st]|e] eqn:Hmade;
    [|discriminate].
  cbn [bind fst snd].
  match goal with
  | |- context [MLP_Circuit_Layer.update_synapse_weights ?x] => set (l0 := x)
  end.
  assert (Hpot : forall (x : nat) (s : DigitalPotFactory.t * Random.t)
                   (p : DigitalPot.t) (s' : DigitalPotFactory.t * Random.t),
             factory_sound lo hi taps (fst s) ->
             DigitalPotFactory.pot (fst s) (NeuronLayer.max_weight nl) (snd s)
               = Ok (p, s') ->
             factory_sound lo hi taps (fst s') /\ pot_sound lo hi taps p).
  { intros _ [g r] p [g' r'] Hg Hp. cbn [fst snd] in *.
    exact (pot_sound_step lo hi taps lo_positive taps_two g g' _ r r' p Hg Hp). }
  assert (Hrow : forall (x : nat) (s : DigitalPotFactory.t * Random.t)
                   (row : list DigitalPot.t)
                   (s' : DigitalPotFactory.t * Random.t),
             factory_sound lo hi taps (fst s) ->
             comprehension (range0 (NeuronLayer.neuron_count nl))
               (fun (_ : nat) s0 =>
                  DigitalPotFactory.pot (fst s0) (NeuronLayer.max_weight nl)
                    (snd s0)) s = Ok (row, s') ->
             factory_sound lo hi taps (fst s') /\
             (length row = NeuronLayer.neuron_count nl /\
              Forall (pot_sound lo hi taps) row)).
  { intros _ s row s' Hs Hr.
    destruct (comprehension_preserves
                (fun s0 : DigitalPotFactory.t * Random.t =>
                   factory_sound lo hi taps (fst s0))
                (pot_sound lo hi taps) _ _ Hpot s row s' Hs Hr)
      as (Hs' & Hall & Hlen).
    unfold range0 in Hlen. rewrite length_seq in Hlen.
    split; [exact Hs'|]. split; assumption. }
  destruct (comprehension_preserves
              (fun s0 : DigitalPotFactory.t * Random.t =>
                 factory_sound lo hi taps (fst s0))
              (fun row => length row = NeuronLayer.neuron_count nl /\
                          Forall (pot_sound lo hi taps) row)
              _ _ Hrow (f, rng) pots st Hf Hmade) as (_ & Hall & Hlen).
  unfold range0 in Hlen. rewrite length_seq in Hlen.
  assert (Hok : layer_ok l0).
  { split; [split; [split|]|exact Hw].
    - exact Hlen.
    - eapply Forall_impl; [exact Hall|]. now intros row [? _].
    - eapply Forall_impl; [exact Hall|]. intros row [_ Hr].
      eapply Forall_impl; [exact Hr|].
      intros p. now apply pot_sound_well_formed. }
  rewrite update_after_push.
  destruct (MLP_Circuit_Layer.push_weights l0) as [pots'|e] eqn:Hpush;
    [|discriminate].
  cbn [bind]. intros [= <- _].
  pose proof (push_weights_twice l0 pots' Hok Hpush) as Htwice.
  rewrite update_after_push.
  match goal with
  | |- bind (MLP_Circuit_Layer.push_weights ?x) _ = _ =>
      change (MLP_Circuit_Layer.push_weights x)
        with (MLP_Circuit_Layer.push_weights
                (MLP_Circuit_Layer.set_digital_pots pots' l0))
  end.
  rewrite Htwice. reflexivity.
Qed.

Lemma build_layers_fixed (models : list NeuronLayer.t) :
  forall (idx : nat) (inputs : option (list string)) (r_total : Q)
         (f f' : DigitalPotFactory.t) (rng rng' : Random.t)
         (layers : list MLP_Circuit_Layer.t),
    Forall (fun nl =>
              shaped (NeuronLayer.neuron_count nl)
                (NeuronLayer.inputs_per_neuron nl)
                (NeuronLayer.synaptic_weights nl)) models ->
    factory_sound lo hi taps f ->
    MLP_Circuit.build_layers models idx inputs r_total (f, rng)
      = Ok (layers, (f', rng')) ->
    Forall (fun l => MLP_Circuit_Layer.update_synapse_weights l = Ok l) layers.
Proof.
  induction models as [|m models IH];
    intros idx inputs r_total f f' rng rng' layers Hw Hf.
  - intros [= <- _ _]. constructor.
  - apply Forall_cons in Hw as [Hm Hw].
    cbn [MLP_Circuit.build_layers].
    destruct (MLP_Circuit_Layer.new m inputs idx r_total (f, rng))
      as [[l [f1 rng1]]|e] eqn:Hnew; [|discriminate].
    cbn [bind fst snd].
    destruct (MLP_Circuit.build_layers models (S idx) _ r_total (f1, rng1))
      as [[ls [f2 rng2]]|e] eqn:Hrest; [|discriminate].
    cbn [bind fst snd]. intros [= <- _ _].
    destruct (layer_new_sound lo hi taps lo_positive taps_two
                _ _ _ _ _ _ _ _ _ Hf Hnew) as [Hf1 _].
    constructor.
    + exact (layer_new_fixed _ _ _ _ _ _ _ _ Hm Hf Hnew).
    + exact (IH _ _ _ _ _ _ _ _ Hw Hf1 Hrest).
Qed.

End Synced.

(** X16. A circuit built from a network whose weight matrices have the
    declared shape is ready for inference: as long as the weights are
    those it was built with, the weight synchronisation of [think]
    raises nothing and leaves every hardware layer as it is. *)
Theorem sync_after_new (network : list NeuronLayer.t) (rng rng' : Random.t)
    (c : MLP_Circuit.t) (inputs : list Q) :
  Forall (fun nl =>
            shaped (NeuronLayer.neuron_count nl)
              (NeuronLayer.inputs_per_neuron nl)
              (NeuronLayer.synaptic_weights nl)) network ->
  MLP_Circuit.new network rng = Ok (c, rng') ->
  MLP_Circuit.update_layers
    (MLP_Circuit.hardware_layers (MLP_Circuit.update_input_sources c inputs))
  = Ok (MLP_Circuit.hardware_layers c).
Proof.
  intros Hw Hnew.
  destruct (new_layers _ _ _ _ Hnew) as (layers & [f1 rng1] & Hbuild & Hhw).
  change (MLP_Circuit.hardware_layers (MLP_Circuit.update_input_sources c inputs))
    with (MLP_Circuit.hardware_layers c).
  apply update_layers_fixed. rewrite Hhw.
  assert (Hf : factory_sound 4000 6000 128
                 (DigitalPotFactory.new _r_total_ohms _pot_tap_count
                    (Z.of_nat _pots_per_chip) _pot_tolerance)).
  { split; [reflexivity|]. split; [reflexivity|]. split; [reflexivity|].
    left. reflexivity. }
  pose proof (build_layers_fixed 4000 6000 128 ltac:(lia) ltac:(lia)
                network 0 None _ _ _ _ _ _ Hw Hf Hbuild) as Hall.
  destruct layers as [|l0 ls]; [constructor|].
  apply Forall_cons in Hall as [H0 Hls].
  constructor; [exact H0|]. now apply relink_fixed.
Qed.

Lemma sync_after_new_witness :
  exists c rng',
    MLP_Circuit.new network_2_2 rng_mid = Ok (c, rng') /\
    MLP_Circuit.update_layers
      (MLP_Circuit.hardware_layers
         (MLP_Circuit.update_input_sources c [1; - (1)]))
    = Ok (MLP_Circuit.hardware_layers c).
Proof.
  let r := eval vm_compute in (MLP_Circuit.new network_2_2 rng_mid) in
  match r with
  | Ok (?c, ?st) =>
      assert (Hnew : MLP_Circuit.new network_2_2 rng_mid = Ok (c, st))
        by (vm_compute; reflexivity);
      assert (Hw : Forall (fun nl =>
                     shaped (NeuronLayer.neuron_count nl)
                       (NeuronLayer.inputs_per_neuron nl)
                       (NeuronLayer.synaptic_weights nl)) network_2_2)
        by (repeat constructor);
      exists c, st; split; [exact Hnew|];
      exact (sync_after_new network_2_2 rng_mid st c [1; - (1)] Hw Hnew)
  end.
Defined.

(** ** create_measurements *)

Lemma append_assoc_s (a b c : string) : (a +:+ b) +:+ c = a +:+ (b +:+ c).
Proof.
  induction a as [|x a IH]; [reflexivity|].
  change (String x ((a +:+ b) +:+ c) = String x (a +:+ (b +:+ c))).
  f_equal. exact IH.
Qed.

Lemma length_append_s (a b : string) :
  String.length (a +:+ b) = (String.length a + String.length b)%nat.
Proof.
  induction a as [|x a IH]; [reflexivity|].
  change (S (String.length (a +:+ b))
          = S (String.length a + String.length b)).
  f_equal. exact IH.
Qed.

Lemma substring_prefix (a b : string) :
  substring 0 (String.length (a +:+ b) - String.length b) (a +:+ b) = a.
Proof.
  rewrite length_append_s.
  replace (String.length a + String.length b - String.length b)%nat
    with (String.length a) by lia.
  induction a as [|x a IH].
  - now destruct b.
  - change (String x (substring 0 (String.length a) (a +:+ b)) = String x a).
    f_equal. exact IH.
Qed.

Lemma star_ext {R : Type} (a : Re.atom) (k1 k2 : string -> option R) :
  (forall s, k1 s = k2 s) -> forall s, Re.star a k1 s = Re.star a k2 s.
Proof.
  intros Hk. induction s as [|c s IH]; cbn [Re.star]; [apply Hk|].
  destruct (Re.accepts a c); [|apply Hk]. now rewrite IH, Hk.
Qed.

Lemma run_app {R : Type} (p1 p2 : list Re.item) (k : string -> option R) :
  forall s, Re.run (p1 ++ p2) k s = Re.run p1 (Re.run p2 k) s.
Proof.
  induction p1 as [|i p1 IH]; intros s; [reflexivity|].
  destruct i as [a|a|a|a]; cbn [app Re.run].
  - destruct s as [|c s]; [reflexivity|]. destruct (Re.accepts a c); auto.
  - destruct s as [|c s]; [apply IH|].
    destruct (Re.accepts a c); [|apply IH]. now rewrite !IH.
  - apply star_ext. exact IH.
  - destruct s as [|c s]; [reflexivity|].
    destruct (Re.accepts a c); [|reflexivity]. apply star_ext. exact IH.
Qed.

(** A literal matches itself and nothing is left to choose. *)
Lemma run_literal {R : Type} (lit : string) (k : string -> option R) :
  forall rest, Re.run (Re.literal lit) k (lit +:+ rest) = k rest.
Proof.
  induction lit as [|c lit IH]; intros rest; [reflexivity|].
  unfold Re.literal in *. simpl.
  rewrite Ascii.eqb_refl. apply IH.
Qed.

(** Greedy [\d*] runs through a string of digits when the rest of the
    pattern matches after it. *)
Lemma star_digits {R : Type} (k : string -> option R) (d : string) :
  forall (rest : string) (r : R),
    every is_digit d = true ->
    Re.star Re.Digit k rest = Some r ->
    Re.star Re.Digit k (d +:+ rest) = Some r.
Proof.
  induction d as [|c d IH]; intros rest r Hd Hk; [exact Hk|].
  simpl in Hd. apply andb_prop in Hd as [Hc Hd].
  simpl. rewrite Hc. now rewrite (IH rest r Hd Hk).
Qed.

Lemma star_stops {R : Type} (a : Re.atom) (k : string -> option R)
    (c : ascii) (rest : string) :
  Re.accepts a c = false ->
  Re.star a k (String c rest) = k (String c rest).
Proof. intros H. simpl. now rewrite H. Qed.

Lemma pretty_N_go_length (x : N) :
  forall s, (String.length s <= String.length (pretty_N_go x s))%nat.
Proof.
  induction (N.lt_wf_0 x) as [x _ IH]; intros s.
  destruct (N.eq_dec x 0%N) as [->|Hx].
  - now rewrite pretty_N_go_0.
  - rewrite pretty_N_go_step by lia.
    etransitivity; [|apply IH, N.div_lt; lia]. simpl. lia.
Qed.

Lemma pretty_nat_nonempty (n : nat) :
  exists c d, pretty n = String c d.
Proof.
  unfold pretty, pretty_nat, pretty, pretty_N.
  destruct (decide (N.of_nat n = 0%N)); [now exists "0"%char, ""%string|].
  rewrite pretty_N_go_step by lia.
  pose proof (pretty_N_go_length (N.of_nat n `div` 10)%N
                (String (pretty_N_char (N.of_nat n `mod` 10)) "")) as H.
  destruct (pretty_N_go _ _) as [|c d]; [simpl in H; lia|].
  now exists c, d.
Qed.

(** [\d+] followed by a character that is no digit takes the whole
    rendering of a number. *)
Lemma plus_digits_number {R : Type} (p : list Re.item)
    (k : string -> option R) (n : nat) (c : ascii) (rest : string) (r : R) :
  is_digit c = false ->
  Re.run p k (String c rest) = Some r ->
  Re.run (Re.Plus Re.Digit :: p) k (pretty n +:+ String c rest) = Some r.
Proof.
  intros Hc Hk.
  pose proof (pretty_nat_digits n) as Hd.
  destruct (pretty_nat_nonempty n) as (c0 & d & E). rewrite E in *.
  simpl in Hd. apply andb_prop in Hd as [Hc0 Hd].
  simpl. rewrite Hc0.
  apply star_digits; [exact Hd|].
  rewrite star_stops by exact Hc. exact Hk.
Qed.

(** The activation pattern matches [Neuron_k_x] at the start of the
    name of an output node and leaves [_out]. *)
Lemma run_activation {R : Type} (K : string -> option R) (k x : nat) (r : R) :
  K "_out"%string = Some r ->
  Re.run (Re.literal "Neuron_"
          ++ [ Re.Plus Re.Digit; Re.One (Re.Lit "_"); Re.Plus Re.Digit ]) K
    (MLP_Circuit_Layer.neuron_out_name k x) = Some r.
Proof.
  intros HK. unfold MLP_Circuit_Layer.neuron_out_name.
  rewrite run_app, run_literal.
  change (pretty k +:+ "_" +:+ pretty x +:+ "_out")
    with (pretty k +:+ String "_" (pretty x +:+ "_out")).
  apply plus_digits_number; [reflexivity|].
  change (Re.run [Re.Plus Re.Digit] K (pretty x +:+ String "_" "out")
          = Some r).
  apply plus_digits_number; [reflexivity|].
  exact HK.
Qed.

Lemma neuron_out_name_split (k x : nat) :
  MLP_Circuit_Layer.neuron_out_name k x
  = ("Neuron_" +:+ pretty k +:+ "_" +:+ pretty x) +:+ "_out".
Proof.
  unfold MLP_Circuit_Layer.neuron_out_name. now rewrite !append_assoc_s.
Qed.

Lemma search_found (gs : list (list Re.item)) (s : string)
    (caps : list string) (fin : string) :
  Re.groups gs s = Some (caps, fin) -> Re.search gs s = Some caps.
Proof. intros H. destruct s; cbn [Re.search]; now rewrite H. Qed.

(** For the name of an output node the search finds [Neuron_k_x]. *)
Lemma activation_input_node_of_output (k x : nat) :
  activation_input_node (MLP_Circuit_Layer.neuron_out_name k x)
  = Some (("Neuron_" +:+ pretty k +:+ "_" +:+ pretty x) +:+ "_005").
Proof.
  unfold activation_input_node.
  rewrite (search_found activation_pattern _
             ["Neuron_" +:+ pretty k +:+ "_" +:+ pretty x] "_out");
    [reflexivity|].
  unfold activation_pattern. cbn [Re.groups].
  apply run_activation.
  rewrite (neuron_out_name_split k x).
  now rewrite substring_prefix.
Qed.

Lemma debug_lines_ok (nodes : list string) :
  Forall (fun n => exists a, activation_input_node n = Some a) nodes ->
  exists dbg,
    debug_lines nodes = Some dbg /\
    length dbg = (2 * length nodes)%nat /\
    forall n a, In n nodes -> activation_input_node n = Some a ->
                In (save_line a) dbg /\ In (measure_line a) dbg.
Proof.
  induction 1 as [|n nodes [a Ha] _ (dbg & E & Hlen & Hin)].
  - exists []. split; [reflexivity|]. split; [reflexivity|]. intros ? ? [].
  - exists (save_line a :: measure_line a :: dbg).
    split; [cbn [debug_lines]; now rewrite Ha, E|].
    split; [cbn [length]; lia|].
    intros n' a' [<-|Hn'] Ha'.
    + assert (a' = a) as -> by congruence.
      split; [now left | right; now left].
    + destruct (Hin n' a' Hn' Ha') as [Hs Hm].
      split; right; right; assumption.
Qed.

(** A raised [debug_lines] has met a node without [Neuron_<d>_<d>]. *)
Lemma debug_lines_raises (nodes : list string) :
  debug_lines nodes = None ->
  exists n, In n nodes /\ activation_input_node n = None.
Proof.
  induction nodes as [|n nodes IH]; [discriminate|].
  cbn [debug_lines]. destruct (activation_input_node n) as [a|] eqn:Ha.
  - destruct (debug_lines nodes) as [dbg|]; [discriminate|].
    intros _. destruct (IH eq_refl) as (n' & Hin & Hn').
    exists n'. split; [now right | exact Hn'].
  - intros _. exists n. split; [now left | exact Ha].
Qed.

Lemma expected_node_position (c : MLP_Circuit.t) (name : string) :
  In name (expected_nodes c) <->
  exists k l x,
    MLP_Circuit.hardware_layers c !! k = Some l /\
    MLP_Circuit_Layer.output_nodes l !! x = Some name.
Proof.
  unfold expected_nodes. rewrite in_concat. split.
  - intros (ns & Hns & Hname). apply in_map_iff in Hns as (l & <- & Hl).
    apply list_elem_of_In, list_elem_of_lookup in Hl as [k Hk].
    apply list_elem_of_In, list_elem_of_lookup in Hname as [x Hx].
    now exists k, l, x.
  - intros (k & l & x & Hk & Hx).
    exists (MLP_Circuit_Layer.output_nodes l). split.
    + apply in_map, list_elem_of_In. eapply list_elem_of_lookup_2, Hk.
    + apply list_elem_of_In. eapply list_elem_of_lookup_2, Hx.
Qed.

(** X17. For a circuit that [MLP_Circuit.new] returns,
    [create_measurements] returns (the subscript of the search result
    never fails): four lines per output node and two separators.  The
    node of neuron [x] of layer [k] gets its [.save] and [.measure]
    lines, and so does the activation node [Neuron_k_x_005]. *)
Theorem measurements_complete (network : list NeuronLayer.t)
    (rng rng' : Random.t) (c : MLP_Circuit.t) :
  MLP_Circuit.new network rng = Ok (c, rng') ->
  exists lines,
    create_measurements c = Some lines /\
    length lines = (4 * length (expected_nodes c) + 2)%nat /\
    forall k l x name,
      MLP_Circuit.hardware_layers c !! k = Some l ->
      MLP_Circuit_Layer.output_nodes l !! x = Some name ->
      In (save_line name) lines /\
      In (measure_line name) lines /\
      In (save_line (("Neuron_" +:+ pretty k +:+ "_" +:+ pretty x) +:+ "_005"))
        lines /\
      In (measure_line
            (("Neuron_" +:+ pretty k +:+ "_" +:+ pretty x) +:+ "_005")) lines.
Proof.
  intros Hnew.
  assert (Hname : forall k l x name,
             MLP_Circuit.hardware_layers c !! k = Some l ->
             MLP_Circuit_Layer.output_nodes l !! x = Some name ->
             name = MLP_Circuit_Layer.neuron_out_name k x).
  { intros k l x name Hk Hx.
    destruct (hardware_layer_of _ _ _ _ _ _ Hnew Hk) as (nl & _ & Hof).
    exact (proj1 (output_node_name _ _ _ _ _ Hof Hx)). }
  assert (Hall : Forall (fun n => exists a, activation_input_node n = Some a)
                   (expected_nodes c)).
  { apply List.Forall_forall. intros n Hn.
    apply expected_node_position in Hn as (k & l & x & Hk & Hx).
    rewrite (Hname k l x n Hk Hx).
    eexists. apply activation_input_node_of_output. }
  destruct (debug_lines_ok _ Hall) as (dbg & Edbg & Hlen & Hin).
  unfold create_measurements. cbn zeta. rewrite Edbg.
  eexists. split; [reflexivity|]. split.
  - rewrite !length_app, !length_map, Hlen. cbn [length]. lia.
  - intros k l x name Hk Hx.
    assert (Hn : In name (expected_nodes c))
      by (apply expected_node_position; now exists k, l, x).
    pose proof (Hname k l x name Hk Hx) as E.
    assert (Ha : activation_input_node name
                 = Some (("Neuron_" +:+ pretty k +:+ "_" +:+ pretty x)
                         +:+ "_005"))
      by (rewrite E; apply activation_input_node_of_output).
    destruct (Hin name _ Hn Ha) as [Hs Hm].
    rewrite !in_app_iff.
    split; [left; left; now apply in_map|].
    split; [left; right; left; now apply in_map|].
    split; right; left; assumption.
Qed.

Lemma measurements_complete_witness :
  exists c rng' lines,
    MLP_Circuit.new network_2_2 rng_mid = Ok (c, rng') /\
    create_measurements c = Some lines /\
    length lines = 18%nat /\
    In ".save V(Neuron_1_0_out)"%string lines /\
    In ".measure VNeuron_1_0_005 avg V(Neuron_1_0_005)"%string lines.
Proof.
  let r := eval vm_compute in (MLP_Circuit.new network_2_2 rng_mid) in
  match r with
  | Ok (?c, ?st) =>
      let b := eval vm_compute in (MLP_Circuit.hardware_layers c !! 1%nat) in
      match b with
      | Some ?l1 =>
          assert (Hnew : MLP_Circuit.new network_2_2 rng_mid = Ok (c, st))
            by (vm_compute; reflexivity);
          assert (H1 : MLP_Circuit.hardware_layers c !! 1%nat = Some l1)
            by (vm_compute; reflexivity);
          assert (Hx : MLP_Circuit_Layer.output_nodes l1 !! 0%nat
                       = Some "Neuron_1_0_out"%string)
            by (vm_compute; reflexivity);
          assert (Hn : length (expected_nodes c) = 4%nat)
            by (vm_compute; reflexivity);
          destruct (measurements_complete network_2_2 rng_mid st c Hnew)
            as (lines & Hl & Hlen & Hin);
          destruct (Hin 1%nat l1 0%nat _ H1 Hx) as (Hs & _ & _ & Hm);
          exists c, st, lines;
          split; [exact Hnew|];
          split; [exact Hl|];
          split; [rewrite Hlen, Hn; reflexivity|];
          split; [exact Hs | exact Hm]
      end
  end.
Defined.

(** The constructor's naming is what keeps the search from failing:
    with an output node named otherwise the method raises. *)
Lemma measurements_renamed_raises :
  create_measurements circuit_renamed = None.
Proof. vm_compute. reflexivity. Qed.
